(** * Weather_Forecast: the resilient API-access layer

    A shallow embedding of the TypeScript sources
      - [src/types/error.ts]            (AppError, createAppError)
      - [src/utils/errorHandling.ts]    (NetworkChecker, RetryHandler,
                                         HttpErrorAnalyzer, RateLimitHandler,
                                         OfflineHandler, ErrorHandler)
      - [src/services/CacheService.ts]
      - [src/services/LocationService.ts]
      - [src/services/WeatherService.ts]
    together with the properties of the specification that concern them.

    JavaScript numbers are IEEE-754 binary64 values and are modelled by Rocq's
    primitive floats; integral quantities that the code only ever handles as
    integers (millisecond clocks, counters, retry configuration) are in [Z].
    Strings are sequences of ASCII code units.  Asynchronous code is modelled
    as sequential state passing over a [World] that scripts the environment
    (connectivity events, fetch outcomes, random numbers). *)

From Stdlib Require Import ZArith Floats Ascii String List Bool Lia Sorted Permutation.
From stdpp Require Import gmap strings list pretty.

Set Warnings "-register-all,-inexact-float".

Local Open Scope string_scope.
Local Open Scope Z_scope.

(* ===================================================================== *)
(** * The JavaScript values the code relies on *)
(* ===================================================================== *)

Module JS.

(** ** Strings *)

(** [WhiteSpace] and [LineTerminator] code units below 128: what
    [String.prototype.trim] strips and what the regular expression class
    [\s] matches. *)
Definition is_space (c : ascii) : bool :=
  let n := nat_of_ascii c in
  ((9 <=? n)%nat && (n <=? 13)%nat) || (n =? 32)%nat.

Definition lower_char (c : ascii) : ascii :=
  let n := nat_of_ascii c in
  if ((65 <=? n)%nat && (n <=? 90)%nat) then ascii_of_nat (n + 32) else c.

(** [s.toLowerCase()] *)
Fixpoint toLowerCase (s : string) : string :=
  match s with
  | EmptyString => EmptyString
  | String c r => String (lower_char c) (toLowerCase r)
  end.

Fixpoint trimStart (s : string) : string :=
  match s with
  | EmptyString => EmptyString
  | String c r => if is_space c then trimStart r else s
  end.

Fixpoint all_space (s : string) : bool :=
  match s with
  | EmptyString => true
  | String c r => is_space c && all_space r
  end.

Fixpoint trimEnd (s : string) : string :=
  match s with
  | EmptyString => EmptyString
  | String c r => if all_space s then EmptyString else String c (trimEnd r)
  end.

(** [s.trim()] *)
Definition trim (s : string) : string := trimEnd (trimStart s).

(** [s.replace(/\s+/g, ' ')]: every maximal run of white space becomes one
    space; [in_run] tells that the run's space has been written already. *)
Fixpoint collapse_from (in_run : bool) (s : string) : string :=
  match s with
  | EmptyString => EmptyString
  | String c r =>
      if is_space c
      then (if in_run then collapse_from true r
            else String " "%char (collapse_from true r))
      else String c (collapse_from false r)
  end.

Definition collapse_spaces (s : string) : string := collapse_from false s.

(** [s.replace(/[...]/g, '')] for a character class given as a predicate. *)
Fixpoint remove_chars (bad : ascii -> bool) (s : string) : string :=
  match s with
  | EmptyString => EmptyString
  | String c r =>
      if bad c then remove_chars bad r else String c (remove_chars bad r)
  end.

(** [s.substring(0, n)] *)
Fixpoint substring0 (n : nat) (s : string) : string :=
  match n, s with
  | O, _ => EmptyString
  | _, EmptyString => EmptyString
  | S n', String c r => String c (substring0 n' r)
  end.

Fixpoint starts_with (p s : string) : bool :=
  match p, s with
  | EmptyString, _ => true
  | String a p', String b s' => Ascii.eqb a b && starts_with p' s'
  | String _ _, EmptyString => false
  end.

(** [s.includes(sub)] *)
Fixpoint includes (sub s : string) : bool :=
  starts_with sub s ||
  match s with
  | EmptyString => false
  | String _ r => includes sub r
  end.

(** Does the character occur in the string? *)
Fixpoint mentions (c : ascii) (s : string) : bool :=
  match s with
  | EmptyString => false
  | String c' r => Ascii.eqb c c' || mentions c r
  end.

Fixpoint repeat_char (c : ascii) (n : nat) : string :=
  match n with
  | O => EmptyString
  | S n' => String c (repeat_char c n')
  end.

Fixpoint drop_chars (n : nat) (s : string) : string :=
  match n, s with
  | O, _ => s
  | _, EmptyString => EmptyString
  | S n', String _ r => drop_chars n' r
  end.

(** Decimal digits of an integer, as [String(n)] prints an integral
    number. *)
Definition Z_toString (z : Z) : string := pretty z.

(** ** Numbers *)

(** The float nearest to an integer (exact below 2^53). *)
Definition Z2float (z : Z) : float :=
  SF2Prim (binary_normalize prec emax z 0 false).

(** A finite non-zero float is [m * 2^e]; decimals are [s * 10^p].  Both
    are compared exactly as integers after clearing negative exponents. *)
Definition scale2_10 (a b c : Z) (b0 c0 : Z) : Z :=
  a * 2 ^ (b - b0) * 10 ^ (c - c0).

(** [a1 * 2^b1 * 10^c1 ?= a2 * 2^b2 * 10^c2] *)
Definition cmp2_10 (a1 b1 c1 a2 b2 c2 : Z) : comparison :=
  let b0 := Z.min b1 b2 in
  let c0 := Z.min c1 c2 in
  Z.compare (scale2_10 a1 b1 c1 b0 c0) (scale2_10 a2 b2 c2 b0 c0).

(** Does the decimal [s * 10^p] convert back to the float [m * 2^e]
    (round to nearest, ties to even)?  The float's rounding interval ends
    half-way to its neighbours; the lower neighbour is closer when [m] is
    the smallest normal mantissa. *)
Definition rounds_to (m e s p : Z) : bool :=
  let lower_ok :=
    if (m =? 2 ^ 52) && (-1074 <? e)
    then cmp2_10 (4 * m - 1) (e - 2) 0 s 0 p
    else cmp2_10 (2 * m - 1) (e - 1) 0 s 0 p in
  let upper_ok := cmp2_10 s 0 p (2 * m + 1) (e - 1) 0 in
  let ok (c : comparison) :=
    match c with
    | Lt => true
    | Eq => Z.even m
    | Gt => false
    end in
  ok lower_ok && ok upper_ok.

(** The [n] with [10^(n-1) <= m * 2^e < 10^n], found from an estimate by
    the bit length. *)
Fixpoint decimal_exponent_up (fuel : nat) (m e n : Z) : Z :=
  match fuel with
  | O => n
  | S f =>
      match cmp2_10 m e 0 1 0 n with
      | Lt => n
      | _ => decimal_exponent_up f m e (n + 1)
      end
  end.

Fixpoint decimal_exponent_down (fuel : nat) (m e n : Z) : Z :=
  match fuel with
  | O => n
  | S f =>
      match cmp2_10 m e 0 1 0 (n - 1) with
      | Lt => decimal_exponent_down f m e (n - 1)
      | _ => n
      end
  end.

Definition decimal_exponent (m e : Z) : Z :=
  let est := (Z.log2 m + e) * 30103 / 100000 in
  decimal_exponent_up 700 m e (decimal_exponent_down 700 m e est).

(** [floor (m * 2^e / 10^p)] *)
Definition scaled_floor (m e p : Z) : Z :=
  (m * 2 ^ Z.max e 0 * 10 ^ Z.max (- p) 0) /
  (2 ^ Z.max (- e) 0 * 10 ^ Z.max p 0).

(** The shortest digit string [s] and exponent [n] with [s * 10^(n-k)]
    converting back to the float, [k] the number of digits of [s]
    (ECMA-262, Number::toString, step 5); of two candidates of one length
    the closer one is taken. *)
Fixpoint shortest_digits (fuel : nat) (m e n0 k : Z) : Z * Z :=
  let p := n0 - k in
  let lo := scaled_floor m e p in
  let hi := lo + 1 in
  let lo_ok := rounds_to m e lo p in
  let hi_ok := rounds_to m e hi p in
  let pick (s : Z) := if s =? 10 ^ k then (10 ^ (k - 1), n0 + 1) else (s, n0) in
  match fuel with
  | O => (lo, n0)
  | S f =>
      if lo_ok && hi_ok then
        (* distance to lo against distance to hi: 2x ?= lo + hi *)
        match cmp2_10 (2 * m) e 0 (lo + hi) 0 p with
        | Lt => pick lo
        | Gt => pick hi
        | Eq => if Z.even lo then pick lo else pick hi
        end
      else if lo_ok then pick lo
      else if hi_ok then pick hi
      else shortest_digits f m e n0 (k + 1)
  end.

Definition format_digits (s n : Z) : string :=
  let ds := Z_toString s in
  let k := Z.of_nat (String.length ds) in
  if (k <=? n) && (n <=? 21) then
    ds ++ repeat_char "0"%char (Z.to_nat (n - k))
  else if (0 <? n) && (n <=? 21) then
    substring0 (Z.to_nat n) ds ++ "." ++ drop_chars (Z.to_nat n) ds
  else if (-6 <? n) && (n <=? 0) then
    "0." ++ repeat_char "0"%char (Z.to_nat (- n)) ++ ds
  else
    let ex := n - 1 in
    let sign := if ex <? 0 then "-" else "+" in
    let mant :=
      if k =? 1 then ds
      else substring0 1 ds ++ "." ++ drop_chars 1 ds in
    mant ++ "e" ++ sign ++ Z_toString (Z.abs ex).

(** [String(x)], [x.toString()] and template interpolation of a number. *)
Definition Number_toString (x : float) : string :=
  match Prim2SF x with
  | S754_nan => "NaN"
  | S754_zero _ => "0"
  | S754_infinity false => "Infinity"
  | S754_infinity true => "-Infinity"
  | S754_finite sg m e =>
      let '(s, n) :=
        shortest_digits 17 (Zpos m) e (decimal_exponent (Zpos m) e) 1 in
      (if sg then "-" else "") ++ format_digits s n
  end.

(** [Math.round(x)]: the nearest integer, half-way cases towards
    [+Infinity]; NaN and the infinities are returned unchanged and a result
    of zero keeps the sign of [x]. *)
Definition Math_round (x : float) : float :=
  match Prim2SF x with
  | S754_finite sg m e =>
      if 0 <=? e then x
      else
        let v := if sg then Zneg m else Zpos m in
        let d := 2 ^ (- e) in
        let k := (2 * v + d) / (2 * d) in
        if k =? 0 then (if sg then PrimFloat.neg_zero else PrimFloat.zero)
        else Z2float k
  | _ => x
  end.

End JS.

(* ===================================================================== *)
(** * src/types/error.ts *)
(* ===================================================================== *)

(** [type ErrorType = 'network' | 'api' | 'data' | 'user'] *)
Inductive ErrorType := network | api | data | user.

Definition ErrorType_eqb (a b : ErrorType) : bool :=
  match a, b with
  | network, network | api, api | data, data | user, user => true
  | _, _ => false
  end.

(** A JavaScript [Error] instance (TypeError, SyntaxError, DOMException,
    ...): its [name] and [message]. *)
Record JsError := { err_name : string; err_message : string }.

Record AppError := {
  type : ErrorType;
  message : string;
  retryable : bool;
  originalError : option JsError
}.

Definition createAppError (ty : ErrorType) (msg : string) (retry : bool)
    (orig : option JsError) : AppError :=
  {| type := ty; message := msg; retryable := retry; originalError := orig |}.

(** What a [throw] or a rejected promise carries: an [AppError] (a plain
    object with a [type] property), an [Error] instance, or a primitive
    value such as a string. *)
Inductive Thrown :=
| ThrownAppError (e : AppError)
| ThrownError (e : JsError)
| ThrownValue (s : string).

(** [error && typeof error === 'object' && 'type' in error] *)
Definition has_type_property (error : Thrown) : bool :=
  match error with
  | ThrownAppError _ => true
  | _ => false
  end.

(** [error instanceof Error ? error : new Error(String(error))] *)
Definition as_Error (error : Thrown) : JsError :=
  match error with
  | ThrownError e => e
  | ThrownAppError _ => {| err_name := "Error"; err_message := "[object Object]" |}
  | ThrownValue s => {| err_name := "Error"; err_message := s |}
  end.

(** The outcome of a call: a value or an exception. *)
Inductive Completion (A : Type) :=
| Return (a : A)
| Throw (t : Thrown).
Arguments Return {A} a.
Arguments Throw {A} t.

(* ===================================================================== *)
(** * RateLimitHandler (src/utils/errorHandling.ts) *)
(* ===================================================================== *)

Module RateLimitHandler.

(** The values of the [requestCounts] map. *)
Record RateWindow := { count : Z; resetTime : Z }.

Definition RATE_LIMIT_WINDOW : Z := 60000.
Definition MAX_REQUESTS_PER_WINDOW : Z := 60.

(** [checkRateLimit(serviceKey)] at clock reading [now]: the answer and the
    map afterwards.  [current.count++] updates the stored object. *)
Definition checkRateLimit (serviceKey : string) (now : Z)
    (requestCounts : gmap string RateWindow) : bool * gmap string RateWindow :=
  let current := requestCounts !! serviceKey in
  if match current with
     | None => true
     | Some c => resetTime c <? now
     end
  then
    (true, <[serviceKey := {| count := 1; resetTime := now + RATE_LIMIT_WINDOW |}]>
             requestCounts)
  else
    match current with
    | None => (true, requestCounts)
    | Some c =>
        if MAX_REQUESTS_PER_WINDOW <=? count c then (false, requestCounts)
        else
          (true, <[serviceKey := {| count := count c + 1; resetTime := resetTime c |}]>
                   requestCounts)
    end.

(** [getResetTime(serviceKey)] *)
Definition getResetTime (serviceKey : string) (now : Z)
    (requestCounts : gmap string RateWindow) : Z :=
  match requestCounts !! serviceKey with
  | None => 0
  | Some c => Z.max 0 (resetTime c - now)
  end.

(** [Math.ceil(resetTime / 60000)] for an integral [resetTime]. *)
Definition ceil_minutes (ms : Z) : Z := (ms + 59999) / 60000.

(** [handleRateLimitExceeded(serviceKey)] *)
Definition handleRateLimitExceeded (serviceKey : string) (now : Z)
    (requestCounts : gmap string RateWindow) : AppError :=
  let resetMinutes := ceil_minutes (getResetTime serviceKey now requestCounts) in
  createAppError api
    ("Rate limit exceeded. Please wait " ++ JS.Z_toString resetMinutes ++ " minute"
       ++ (if resetMinutes =? 1 then "" else "s") ++ " before trying again.")
    true None.

(** Successive calls, one per clock reading, in order. *)
Fixpoint checkRateLimit_calls (serviceKey : string) (times : list Z)
    (requestCounts : gmap string RateWindow) : list bool * gmap string RateWindow :=
  match times with
  | [] => ([], requestCounts)
  | t :: ts =>
      let '(r, m) := checkRateLimit serviceKey t requestCounts in
      let '(rs, m') := checkRateLimit_calls serviceKey ts m in
      (r :: rs, m')
  end.

(** No window for the key, or a window whose reset time has passed. *)
Definition no_live_window (serviceKey : string) (now : Z)
    (requestCounts : gmap string RateWindow) : Prop :=
  match requestCounts !! serviceKey with
  | None => True
  | Some c => resetTime c < now
  end.

End RateLimitHandler.

(* ===================================================================== *)
(** * Values decoded by [response.json()] *)
(* ===================================================================== *)

(** What [JSON.parse] produces, with [undefined] added for the result of
    reading a property that is not there.  An object lists its own
    properties, each key once. *)
Inductive JsValue :=
| JUndefined
| JNull
| JBool (b : bool)
| JNum (x : float)
| JStr (s : string)
| JArr (items : list JsValue)
| JObj (fields : list (string * JsValue)).

(** Truthiness: what [!v], [v || w] and [if (v)] test. *)
Definition truthy (v : JsValue) : bool :=
  match v with
  | JUndefined | JNull => false
  | JBool b => b
  | JNum x => negb (PrimFloat.is_nan x || PrimFloat.is_zero x)
  | JStr s => negb (String.eqb s "")
  | JArr _ | JObj _ => true
  end.

Fixpoint assoc {A : Type} (k : string) (l : list (string * A)) : option A :=
  match l with
  | [] => None
  | (k', v) :: r => if String.eqb k k' then Some v else assoc k r
  end.

Definition TypeError (msg : string) : Thrown :=
  ThrownError {| err_name := "TypeError"; err_message := msg |}.

(** [v.name] for one of the property names the services read ([results],
    [current], [daily], [time], [id], ...): none of them is defined on a
    prototype of a decoded value, so only own properties of objects
    answer; reading from [null] or [undefined] throws. *)
Definition get_prop (v : JsValue) (name : string) : Completion JsValue :=
  match v with
  | JUndefined =>
      Throw (TypeError ("Cannot read properties of undefined (reading '" ++ name ++ "')"))
  | JNull =>
      Throw (TypeError ("Cannot read properties of null (reading '" ++ name ++ "')"))
  | JObj fields =>
      Return (match assoc name fields with Some x => x | None => JUndefined end)
  | _ => Return JUndefined
  end.

(** [v.name] where [v] is known to be neither [null] nor [undefined]. *)
Definition prop (v : JsValue) (name : string) : JsValue :=
  match v with
  | JObj fields => match assoc name fields with Some x => x | None => JUndefined end
  | _ => JUndefined
  end.

(** [name in v] for [v] of type object. *)
Definition has_prop (name : string) (v : JsValue) : bool :=
  match v with
  | JObj fields => match assoc name fields with Some _ => true | None => false end
  | _ => false
  end.

(** [typeof v === 'object'] *)
Definition typeof_object (v : JsValue) : bool :=
  match v with
  | JNull | JArr _ | JObj _ => true
  | _ => false
  end.

Definition typeof_number (v : JsValue) : bool :=
  match v with JNum _ => true | _ => false end.

Definition typeof_string (v : JsValue) : bool :=
  match v with JStr _ => true | _ => false end.

(** [v[index]] for an array index: element of an array, character of a
    string, property of an object; [undefined] when there is none, and a
    TypeError on [null] and [undefined]. *)
Definition get_index (v : JsValue) (index : nat) : Completion JsValue :=
  match v with
  | JUndefined =>
      Throw (TypeError ("Cannot read properties of undefined (reading '"
                          ++ JS.Z_toString (Z.of_nat index) ++ "')"))
  | JNull =>
      Throw (TypeError ("Cannot read properties of null (reading '"
                          ++ JS.Z_toString (Z.of_nat index) ++ "')"))
  | JArr items => Return (nth index items JUndefined)
  | JStr s =>
      Return (match String.get index s with
              | Some c => JStr (String c EmptyString)
              | None => JUndefined
              end)
  | JObj fields =>
      Return (match assoc (JS.Z_toString (Z.of_nat index)) fields with
              | Some x => x
              | None => JUndefined
              end)
  | _ => Return JUndefined
  end.

(* ===================================================================== *)
(** * src/types/location.ts and src/types/weather.ts *)
(* ===================================================================== *)

(** [interface Location].  [admin1] is whatever truthy value the provider
    sent: the code casts it without a check. *)
Record Location := {
  id : float;
  name : string;
  country : string;
  admin1 : option JsValue;
  latitude : float;
  longitude : float
}.

(** A [Date], as its time value in milliseconds. *)
Definition Date := Z.

(** [interface CurrentWeatherData]: the numeric fields are copied from the
    response unchecked. *)
Record CurrentWeatherData := {
  temperature : JsValue;
  weatherCode : JsValue;
  windSpeed : JsValue;
  windDirection : JsValue;
  humidity : JsValue;
  timestamp : Date
}.

(** [interface ForecastData] *)
Record ForecastData := {
  date : Date;
  temperatureMax : JsValue;
  temperatureMin : JsValue;
  fc_weatherCode : JsValue;
  precipitationSum : JsValue
}.

(** [interface WeatherCacheData] of the cache service. *)
Record WeatherCacheData := {
  current : CurrentWeatherData;
  forecast : list ForecastData
}.

(* ===================================================================== *)
(** * src/config/index.ts *)
(* ===================================================================== *)

(** The configuration object, read from the environment with defaults. *)
Record Config := {
  weatherApiBaseUrl : string;
  geocodingApiBaseUrl : string;
  maxLocationResults : Z;
  forecastDays : Z;
  cacheDurationMinutes : Z
}.

Definition default_config : Config :=
  {| weatherApiBaseUrl := "https://api.open-meteo.com/v1/forecast";
     geocodingApiBaseUrl := "https://geocoding-api.open-meteo.com/v1/search";
     maxLocationResults := 10;
     forecastDays := 7;
     cacheDurationMinutes := 10 |}.

(* ===================================================================== *)
(** * Plain objects used as dictionaries *)
(* ===================================================================== *)

Module Dict.

(** A [Record<string, V>] built by [JSON.parse] or from [{}]: its own
    properties in the order [Object.entries] lists them, each key once. *)
Definition t (V : Type) := list (string * V).

Definition keys {V} (o : t V) : list string := map fst o.

Fixpoint all_digits (s : string) : bool :=
  match s with
  | EmptyString => true
  | String c r =>
      let n := nat_of_ascii c in
      ((48 <=? n)%nat && (n <=? 57)%nat) && all_digits r
  end.

Fixpoint digits_value (acc : Z) (s : string) : Z :=
  match s with
  | EmptyString => acc
  | String c r => digits_value (10 * acc + (Z.of_nat (nat_of_ascii c) - 48)) r
  end.

(** The array index a property key denotes, if it is the canonical decimal
    form of an integer below 2^32 - 1.  Such keys are enumerated first, in
    ascending numeric order; all other keys follow in creation order. *)
Definition array_index (k : string) : option Z :=
  match k with
  | EmptyString => None
  | String c r =>
      if all_digits k && (String.eqb k "0" || negb (Ascii.eqb c "0"%char))
      then (let n := digits_value 0 k in
            if n <? 4294967295 then Some n else None)
      else None
  end.

(** The names [Object.prototype] defines: a read of one of them on an
    object that has no own property of that name yields the inherited
    member, never [undefined]. *)
Definition Object_prototype_names : list string :=
  [ "constructor"; "__defineGetter__"; "__defineSetter__"; "hasOwnProperty";
    "__lookupGetter__"; "__lookupSetter__"; "isPrototypeOf";
    "propertyIsEnumerable"; "toString"; "valueOf"; "__proto__";
    "toLocaleString" ].

Definition inherited_name (k : string) : bool :=
  existsb (String.eqb k) Object_prototype_names.

(** The result of reading [o[k]]. *)
Inductive Lookup (V : Type) :=
| Own (v : V)        (* an own property *)
| Inherited          (* a member of Object.prototype: a truthy non-entry *)
| Missing.           (* undefined *)
Arguments Own {V} v.
Arguments Inherited {V}.
Arguments Missing {V}.

(** [o[k]] *)
Definition get {V} (k : string) (o : t V) : Lookup V :=
  match assoc k o with
  | Some v => Own v
  | None => if inherited_name k then Inherited else Missing
  end.

(** Where a new key goes in enumeration order. *)
Fixpoint insert_new {V} (k : string) (v : V) (o : t V) : t V :=
  match o with
  | [] => [(k, v)]
  | (k', v') :: r =>
      match array_index k, array_index k' with
      | Some n, Some n' =>
          if n <? n' then (k, v) :: o else (k', v') :: insert_new k v r
      | Some _, None => (k, v) :: o
      | None, _ => (k', v') :: insert_new k v r
      end
  end.

Fixpoint replace {V} (k : string) (v : V) (o : t V) : t V :=
  match o with
  | [] => []
  | (k', v') :: r =>
      if String.eqb k k' then (k', v) :: r else (k', v') :: replace k v r
  end.

(** [o[k] = v] for an object value [v].  Assigning to [__proto__] runs the
    setter inherited from [Object.prototype]: it changes the prototype and
    creates no own property. *)
Definition set {V} (k : string) (v : V) (o : t V) : t V :=
  match assoc k o with
  | Some _ => replace k v o
  | None => if String.eqb k "__proto__" then o else insert_new k v o
  end.

(** [delete o[k]] *)
Definition delete {V} (k : string) (o : t V) : t V :=
  List.filter (fun kv => negb (String.eqb k (fst kv))) o.

End Dict.

(* ===================================================================== *)
(** * src/services/CacheService.ts *)
(* ===================================================================== *)

Module CacheService.

(** [interface CacheEntry<T>] *)
Record CacheEntry (T : Type) := {
  data : T;
  timestamp : Z;
  expiresAt : Z
}.
Arguments data {T} c.
Arguments timestamp {T} c.
Arguments expiresAt {T} c.

(** What [localStorage.getItem] finds under one of the two cache keys: no
    item, a text [JSON.parse] rejects, or the JSON text of a cache object:
    [Blob cache] is the text [JSON.stringify(cache)].  [JSON.parse] gives
    [cache] back, with the [Date]s that [getWeatherCache] rebuilds from
    their ISO strings, except for what a JSON text cannot hold: NaN and
    the infinities are written as [null] and negative zero as [0].
    Statements that compare data read with data written are made for data
    that the text gives back unchanged (module [JSON]).  A text that
    parses to something other than an object of entries is not
    represented. *)
Inductive Stored (T : Type) :=
| NoItem
| Unparsable
| Blob (cache : Dict.t (CacheEntry T)).
Arguments NoItem {T}.
Arguments Unparsable {T}.
Arguments Blob {T} cache.

(** The browser's [localStorage], as far as the service uses it.  Reads
    and writes can be refused (storage disabled, quota exceeded): then
    [getItem], respectively [setItem], throws. *)
Record LocalStorage := {
  readable : bool;
  writable : bool;
  location_item : Stored (list Location);   (* 'weather-app-location-cache' *)
  weather_item : Stored WeatherCacheData    (* 'weather-app-weather-cache' *)
}.

(** What a cache getter returns: [null], the cached data, or [undefined]
    when the key named an inherited member instead of an entry. *)
Inductive Cached (T : Type) :=
| Null
| Undefined
| Data (d : T).
Arguments Null {T}.
Arguments Undefined {T}.
Arguments Data {T} d.

Definition LOCATION_CACHE_DURATION : Z := 24 * 60 * 60 * 1000.
Definition MAX_LOCATION_CACHE_SIZE : nat := 50.

(** [normalizeQuery(query)] *)
Definition normalizeQuery (query : string) : string :=
  JS.collapse_spaces (JS.trim (JS.toLowerCase query)).

(** [getWeatherCacheKey(lat, lon)] *)
Definition getWeatherCacheKey (lat lon : float) : string :=
  let roundedLat := (JS.Math_round (lat * 100) / 100)%float in
  let roundedLon := (JS.Math_round (lon * 100) / 100)%float in
  JS.Number_toString roundedLat ++ "," ++ JS.Number_toString roundedLon.

(** The body of [getLocationCache] and [getWeatherCache]: a refused read
    and an unparsable text are caught and give the empty object. *)
Definition read_cache {T} (can_read : bool) (item : Stored T) : Dict.t (CacheEntry T) :=
  if can_read then
    match item with
    | NoItem => []
    | Unparsable => []
    | Blob cache => cache
    end
  else [].

Definition getLocationCache (ls : LocalStorage) : Dict.t (CacheEntry (list Location)) :=
  read_cache (readable ls) (location_item ls).

Definition getWeatherCache (ls : LocalStorage) : Dict.t (CacheEntry WeatherCacheData) :=
  read_cache (readable ls) (weather_item ls).

(** [localStorage.setItem(LOCATION_CACHE_KEY, JSON.stringify(cache))]:
    [None] when it throws. *)
Definition setLocationItem (cache : Dict.t (CacheEntry (list Location)))
    (ls : LocalStorage) : option LocalStorage :=
  if writable ls then
    Some {| readable := readable ls; writable := writable ls;
            location_item := Blob cache; weather_item := weather_item ls |}
  else None.

Definition setWeatherItem (cache : Dict.t (CacheEntry WeatherCacheData))
    (ls : LocalStorage) : option LocalStorage :=
  if writable ls then
    Some {| readable := readable ls; writable := writable ls;
            location_item := location_item ls; weather_item := Blob cache |}
  else None.

(** The order of the comparator [a.timestamp - b.timestamp]. *)
Definition ts_le {T} (a b : string * CacheEntry T) : Prop :=
  timestamp (snd a) <= timestamp (snd b).

(** [entries.sort(([, a], [, b]) => a.timestamp - b.timestamp)]: the sort
    is stable. *)
Fixpoint insert_by_timestamp {T} (x : string * CacheEntry T)
    (l : list (string * CacheEntry T)) : list (string * CacheEntry T) :=
  match l with
  | [] => [x]
  | y :: r =>
      if timestamp (snd x) <=? timestamp (snd y) then x :: l
      else y :: insert_by_timestamp x r
  end.

Fixpoint sort_by_timestamp {T} (l : list (string * CacheEntry T))
    : list (string * CacheEntry T) :=
  match l with
  | [] => []
  | x :: r => insert_by_timestamp x (sort_by_timestamp r)
  end.

(** [limitCacheSize(cache, maxSize)]: the cache object afterwards. *)
Definition limitCacheSize {T} (cache : Dict.t (CacheEntry T)) (maxSize : nat)
    : Dict.t (CacheEntry T) :=
  let entries := cache in
  if (length entries <=? maxSize)%nat then cache
  else
    fold_left (fun c kv => Dict.delete (fst kv) c)
      (firstn (length entries - maxSize) (sort_by_timestamp entries))
      cache.

(** [cacheLocationSearch(query, locations)] when [Date.now()] reads [now]:
    the storage afterwards.  A throwing [setItem] is caught (and logged). *)
Definition cacheLocationSearch (query : string) (locations : list Location)
    (now : Z) (ls : LocalStorage) : LocalStorage :=
  let cacheKey := normalizeQuery query in
  let cache := getLocationCache ls in
  let cache :=
    Dict.set cacheKey
      {| data := locations; timestamp := now;
         expiresAt := now + LOCATION_CACHE_DURATION |} cache in
  let cache := limitCacheSize cache MAX_LOCATION_CACHE_SIZE in
  match setLocationItem cache ls with
  | Some ls' => ls'
  | None => ls
  end.

(** [getCachedLocationSearch(query)] *)
Definition getCachedLocationSearch (query : string) (now : Z) (ls : LocalStorage)
    : Cached (list Location) * LocalStorage :=
  let cacheKey := normalizeQuery query in
  let cache := getLocationCache ls in
  match Dict.get cacheKey cache with
  | Dict.Missing => (Null, ls)
  | Dict.Inherited => (Undefined, ls)
  | Dict.Own entry =>
      if expiresAt entry <? now then
        match setLocationItem (Dict.delete cacheKey cache) ls with
        | Some ls' => (Null, ls')
        | None => (Null, ls)
        end
      else (Data (data entry), ls)
  end.

Section WithConfig.
Context (config : Config).

Definition WEATHER_CACHE_DURATION : Z := cacheDurationMinutes config * 60 * 1000.

(** [cacheWeatherData(lat, lon, current, forecast)] *)
Definition cacheWeatherData (lat lon : float) (cur : CurrentWeatherData)
    (fc : list ForecastData) (now : Z) (ls : LocalStorage) : LocalStorage :=
  let cacheKey := getWeatherCacheKey lat lon in
  let cache := getWeatherCache ls in
  let cache :=
    Dict.set cacheKey
      {| data := {| current := cur; forecast := fc |}; timestamp := now;
         expiresAt := now + WEATHER_CACHE_DURATION |} cache in
  match setWeatherItem cache ls with
  | Some ls' => ls'
  | None => ls
  end.

End WithConfig.

(** [getCachedWeatherData(lat, lon)] *)
Definition getCachedWeatherData (lat lon : float) (now : Z) (ls : LocalStorage)
    : Cached WeatherCacheData * LocalStorage :=
  let cacheKey := getWeatherCacheKey lat lon in
  let cache := getWeatherCache ls in
  match Dict.get cacheKey cache with
  | Dict.Missing => (Null, ls)
  | Dict.Inherited => (Undefined, ls)
  | Dict.Own entry =>
      if expiresAt entry <? now then
        match setWeatherItem (Dict.delete cacheKey cache) ls with
        | Some ls' => (Null, ls')
        | None => (Null, ls)
        end
      else (Data (data entry), ls)
  end.

End CacheService.

(* ===================================================================== *)
(** * The environment of the asynchronous code *)
(* ===================================================================== *)

Module Http.

(** What [response.json()] settles to: the decoded value, or a rejection
    (a SyntaxError for a body that is not JSON). *)
Inductive Body :=
| BodyJson (v : JsValue)
| BodyInvalid (e : JsError).

Record Response := { status : Z; body : Body }.

(** [response.ok] *)
Definition ok (r : Response) : bool := (200 <=? status r) && (status r <=? 299).

(** [await response.json()] *)
Definition json (r : Response) : Completion JsValue :=
  match body r with
  | BodyJson v => Return v
  | BodyInvalid e => Throw (ThrownError e)
  end.

(** How one [fetch] call ends, and after how many milliseconds. *)
Inductive FetchResult :=
| Resolves (r : Response)
| Rejects (t : Thrown).

Record FetchOutcome := { latency : Z; result : FetchResult }.

End Http.

(** What a run leaves behind for an observer. *)
Inductive Event :=
| EvSleep (ms : float)      (* a backoff sleep of the retry engine *)
| EvFetch (url : string).   (* a request sent *)

(** The state the code runs against.  [randoms], [connectivity] and
    [responses] script the environment: the next values of
    [Math.random()], the online/offline event (if any) that arrives during
    each coming sleep, and the outcomes of the coming [fetch] calls. *)
Record World := {
  online : bool;                                         (* NetworkChecker.isOnline *)
  clock : Z;                                             (* Date.now() *)
  randoms : list float;
  connectivity : list (option bool);
  responses : list Http.FetchOutcome;
  requestCounts : gmap string RateLimitHandler.RateWindow; (* RateLimitHandler.requestCounts *)
  storage : CacheService.LocalStorage;                   (* localStorage *)
  trace : list Event
}.

Definition set_online (b : bool) (w : World) : World :=
  {| online := b; clock := clock w; randoms := randoms w;
     connectivity := connectivity w; responses := responses w;
     requestCounts := requestCounts w; storage := storage w; trace := trace w |}.

Definition set_clock (t : Z) (w : World) : World :=
  {| online := online w; clock := t; randoms := randoms w;
     connectivity := connectivity w; responses := responses w;
     requestCounts := requestCounts w; storage := storage w; trace := trace w |}.

Definition set_randoms (l : list float) (w : World) : World :=
  {| online := online w; clock := clock w; randoms := l;
     connectivity := connectivity w; responses := responses w;
     requestCounts := requestCounts w; storage := storage w; trace := trace w |}.

Definition set_connectivity (l : list (option bool)) (w : World) : World :=
  {| online := online w; clock := clock w; randoms := randoms w;
     connectivity := l; responses := responses w;
     requestCounts := requestCounts w; storage := storage w; trace := trace w |}.

Definition set_responses (l : list Http.FetchOutcome) (w : World) : World :=
  {| online := online w; clock := clock w; randoms := randoms w;
     connectivity := connectivity w; responses := l;
     requestCounts := requestCounts w; storage := storage w; trace := trace w |}.

Definition set_requestCounts (m : gmap string RateLimitHandler.RateWindow)
    (w : World) : World :=
  {| online := online w; clock := clock w; randoms := randoms w;
     connectivity := connectivity w; responses := responses w;
     requestCounts := m; storage := storage w; trace := trace w |}.

Definition set_storage (s : CacheService.LocalStorage) (w : World) : World :=
  {| online := online w; clock := clock w; randoms := randoms w;
     connectivity := connectivity w; responses := responses w;
     requestCounts := requestCounts w; storage := s; trace := trace w |}.

Definition log (e : Event) (w : World) : World :=
  {| online := online w; clock := clock w; randoms := randoms w;
     connectivity := connectivity w; responses := responses w;
     requestCounts := requestCounts w; storage := storage w;
     trace := trace w ++ [e] |}.

(** Code that runs against the world and completes normally or abruptly. *)
Definition Async (A : Type) : Type := World -> Completion A * World.

Definition ret {A} (a : A) : Async A := fun w => (Return a, w).
Definition throw {A} (t : Thrown) : Async A := fun w => (Throw t, w).
Definition bind {A B} (m : Async A) (k : A -> Async B) : Async B :=
  fun w =>
    match m w with
    | (Return a, w') => k a w'
    | (Throw t, w') => (Throw t, w')
    end.
(** [try { m } catch (error) { h(error) }] *)
Definition try_catch {A} (m : Async A) (h : Thrown -> Async A) : Async A :=
  fun w =>
    match m w with
    | (Return a, w') => (Return a, w')
    | (Throw t, w') => h t w'
    end.
(** A completion computed without touching the world. *)
Definition lift {A} (c : Completion A) : Async A := fun w => (c, w).

Notation "'let*' x ':=' m 'in' k" := (bind m (fun x => k))
  (at level 10, x name, m at level 100, k at level 200).

Module Env.

(** [Date.now()] *)
Definition Date_now (w : World) : Z := clock w.

(** [Math.random()] *)
Definition Math_random (w : World) : float * World :=
  match randoms w with
  | [] => (PrimFloat.zero, w)
  | r :: rs => (r, set_randoms rs w)
  end.

(** The whole milliseconds of a timer delay. *)
Definition whole_ms (ms : float) : Z :=
  match Prim2SF ms with
  | S754_finite false m e =>
      if 0 <=? e then Zpos m * 2 ^ e else Zpos m / 2 ^ (- e)
  | _ => 0
  end.

(** [await new Promise(resolve => setTimeout(resolve, ms))]: time passes,
    and the event handlers of [NetworkChecker] run if an online or offline
    event arrives meanwhile. *)
Definition sleep (ms : float) (w : World) : World :=
  let w := log (EvSleep ms) w in
  let w := set_clock (clock w + whole_ms ms) w in
  match connectivity w with
  | [] => w
  | None :: rest => set_connectivity rest w
  | Some b :: rest => set_online b (set_connectivity rest w)
  end.

Definition AbortError : JsError :=
  {| err_name := "AbortError"; err_message := "The operation was aborted." |}.

(** [await fetch(url, { signal })] with the 30 second abort timer of
    [handleFetch]: a request still pending after 30000 ms is aborted and
    rejects with an AbortError.  With nothing scripted the request fails as
    an unreachable host does. *)
Definition fetch (url : string) : Async Http.Response :=
  fun w =>
    let w := log (EvFetch url) w in
    match responses w with
    | [] =>
        (Throw (ThrownError {| err_name := "TypeError"; err_message := "Failed to fetch" |}), w)
    | o :: rest =>
        let w := set_responses rest w in
        if 30000 <=? Http.latency o then
          (Throw (ThrownError AbortError), set_clock (clock w + 30000) w)
        else
          let w := set_clock (clock w + Z.max 0 (Http.latency o)) w in
          match Http.result o with
          | Http.Resolves r => (Return r, w)
          | Http.Rejects t => (Throw t, w)
          end
    end.

End Env.

(* ===================================================================== *)
(** * src/utils/errorHandling.ts *)
(* ===================================================================== *)

Module NetworkChecker.

(** [NetworkChecker.getInstance().isNetworkOnline()] *)
Definition isNetworkOnline (w : World) : bool := online w.

End NetworkChecker.

Module RetryHandler.

(** [interface RetryConfig] *)
Record RetryConfig := {
  maxAttempts : Z;
  baseDelay : Z;
  maxDelay : Z;
  backoffMultiplier : Z;
  retryableErrors : list ErrorType
}.

Definition DEFAULT_RETRY_CONFIG : RetryConfig :=
  {| maxAttempts := 3; baseDelay := 1000; maxDelay := 10000;
     backoffMultiplier := 2; retryableErrors := [network; api] |}.

(** [Partial<RetryConfig>] *)
Record PartialRetryConfig := {
  p_maxAttempts : option Z;
  p_baseDelay : option Z;
  p_maxDelay : option Z;
  p_backoffMultiplier : option Z;
  p_retryableErrors : option (list ErrorType)
}.

(** [{ ...DEFAULT_RETRY_CONFIG, ...config }] *)
Definition new (config : PartialRetryConfig) : RetryConfig :=
  {| maxAttempts := default (maxAttempts DEFAULT_RETRY_CONFIG) (p_maxAttempts config);
     baseDelay := default (baseDelay DEFAULT_RETRY_CONFIG) (p_baseDelay config);
     maxDelay := default (maxDelay DEFAULT_RETRY_CONFIG) (p_maxDelay config);
     backoffMultiplier :=
       default (backoffMultiplier DEFAULT_RETRY_CONFIG) (p_backoffMultiplier config);
     retryableErrors :=
       default (retryableErrors DEFAULT_RETRY_CONFIG) (p_retryableErrors config) |}.

(** The error thrown inside the [try] block when the browser is offline. *)
Definition offline_error : AppError :=
  createAppError network
    "No internet connection. Please check your network and try again." true None.

Section executeWithRetry.
Context {T : Type}.
Context (config : RetryConfig).
Context (operation : Async T) (operationName : string).

(** [Math.min(baseDelay * Math.pow(backoffMultiplier, attempt - 1), maxDelay)] *)
Definition backoff_delay (attempt : Z) : Z :=
  Z.min (baseDelay config * backoffMultiplier config ^ (attempt - 1)) (maxDelay config).

(** The [try] block of one attempt. *)
Definition attempt_once : Async T :=
  fun w =>
    if negb (NetworkChecker.isNetworkOnline w)
    then (Throw (ThrownAppError offline_error), w)
    else operation w.

(** The [for] loop from [attempt] on, [remaining] iterations being left
    before [attempt] exceeds [maxAttempts]. *)
Fixpoint retry_loop (remaining : nat) (attempt : Z) (lastError : option JsError)
    (w : World) : Completion T * World :=
  match remaining with
  | O =>
      (* after the loop *)
      (Throw (ThrownAppError
                (createAppError api (operationName ++ " failed unexpectedly")
                   false lastError)), w)
  | S remaining' =>
      match attempt_once w with
      | (Return v, w) => (Return v, w)
      | (Throw error, w) =>
          let lastError := as_Error error in
          let rethrown :=
            match error with
            | ThrownAppError appError =>
                (* not retryable, or of a type the configuration does not retry *)
                negb (retryable appError)
                || negb (existsb (ErrorType_eqb (type appError)) (retryableErrors config))
                (* user errors *)
                || ErrorType_eqb (type appError) user
            | _ => false
            end in
          if rethrown then (Throw error, w)
          else if attempt =? maxAttempts config then
            if has_type_property error then (Throw error, w)
            else
              (Throw (ThrownAppError
                        (createAppError api
                           (operationName ++ " failed after "
                              ++ JS.Z_toString (maxAttempts config) ++ " attempts")
                           false (Some lastError))), w)
          else
            let delay := backoff_delay attempt in
            let '(r, w) := Env.Math_random w in
            let jitteredDelay := (JS.Z2float delay + r * 1000)%float in
            let w := Env.sleep jitteredDelay w in
            retry_loop remaining' (attempt + 1) (Some lastError) w
      end
  end.

(** [executeWithRetry(operation, operationName)] *)
Definition executeWithRetry : Async T :=
  fun w => retry_loop (Z.to_nat (maxAttempts config)) 1 None w.

End executeWithRetry.

End RetryHandler.

Module HttpErrorAnalyzer.

(** [analyzeHttpError(response, context)] *)
Definition analyzeHttpError (response : Http.Response) (context : string) : AppError :=
  let status := Http.status response in
  if status =? 429 then
    createAppError api "Too many requests. Please wait a moment and try again." true None
  else if (500 <=? status) && (status <? 600) then
    createAppError api
      (context ++ " service unavailable (" ++ JS.Z_toString status ++ ")") true None
  else if status =? 404 then
    createAppError api
      (context ++ " service endpoint not found. This may be a temporary issue.") true None
  else if status =? 403 then
    createAppError api
      ("Access to " ++ JS.toLowerCase context ++ " service is forbidden") false None
  else if status =? 401 then
    createAppError api
      ("Authentication required for " ++ context ++ " service.") false None
  else if (400 <=? status) && (status <? 500) then
    createAppError user
      ("Invalid request to " ++ context
         ++ " service. Please check your input and try again.") false None
  else
    createAppError api
      (context ++ " service returned an unexpected error ("
         ++ JS.Z_toString status ++ ").") true None.

(** [analyzeFetchError(error, context)] *)
Definition analyzeFetchError (error : JsError) (context : string) : AppError :=
  let message := JS.toLowerCase (err_message error) in
  if JS.includes "failed to fetch" message
     || JS.includes "network error" message
     || JS.includes "networkerror" message then
    createAppError network
      ("Unable to connect to " ++ JS.toLowerCase context
         ++ " service. Please check your internet connection.") true (Some error)
  else if JS.includes "timeout" message
          || JS.includes "aborted" message
          || String.eqb (err_name error) "AbortError" then
    createAppError network
      (context ++ " service request timed out. Please try again.") true (Some error)
  else if JS.includes "cors" message || JS.includes "cross-origin" message then
    createAppError api
      (context ++ " service is not accessible due to security restrictions.")
      false (Some error)
  else if JS.includes "dns" message || JS.includes "name resolution" message then
    createAppError network
      ("Cannot reach " ++ context
         ++ " service. Please check your internet connection.") true (Some error)
  else
    createAppError network
      ("Network error occurred while accessing " ++ context ++ " service.")
      true (Some error).

End HttpErrorAnalyzer.

Module OfflineHandler.

(** [createOfflineError(context)] *)
Definition createOfflineError (context : string) : AppError :=
  createAppError network
    ("You are currently offline. " ++ context
       ++ " will be attempted when your connection is restored.") true None.

End OfflineHandler.

Module ErrorHandler.

Section WithRetryConfig.
Context (retryConfig : RetryHandler.PartialRetryConfig).

Definition retryHandler : RetryHandler.RetryConfig := RetryHandler.new retryConfig.

(** [handleApiRequest(operation, context, serviceKey)] *)
Definition handleApiRequest {T} (operation : Async T) (context serviceKey : string)
    : Async T :=
  fun w =>
    if negb (NetworkChecker.isNetworkOnline w) then
      (Throw (ThrownAppError (OfflineHandler.createOfflineError context)), w)
    else
      let '(allowed, counts) :=
        RateLimitHandler.checkRateLimit serviceKey (Env.Date_now w) (requestCounts w) in
      let w := set_requestCounts counts w in
      if negb allowed then
        (Throw (ThrownAppError
                  (RateLimitHandler.handleRateLimitExceeded serviceKey
                     (Env.Date_now w) (requestCounts w))), w)
      else RetryHandler.executeWithRetry retryHandler operation context w.

(** The [operation] closure of [handleFetch]. *)
Definition fetch_operation (url context : string) : Async Http.Response :=
  try_catch
    (let* response := Env.fetch url in
     if negb (Http.ok response)
     then throw (ThrownAppError (HttpErrorAnalyzer.analyzeHttpError response context))
     else ret response)
    (fun error =>
       if has_type_property error then throw error
       else throw (ThrownAppError
                     (HttpErrorAnalyzer.analyzeFetchError (as_Error error) context))).

(** [handleFetch(url, options, context)] *)
Definition handleFetch (url context : string) : Async Http.Response :=
  handleApiRequest (fetch_operation url context) context (JS.toLowerCase context).

End WithRetryConfig.

End ErrorHandler.

(* ===================================================================== *)
(** * URLSearchParams *)
(* ===================================================================== *)

Module URLSearchParams.

Definition hex_digit (n : nat) : ascii :=
  if (n <? 10)%nat then ascii_of_nat (48 + n) else ascii_of_nat (55 + n).

Definition unreserved (c : ascii) : bool :=
  let n := nat_of_ascii c in
  ((48 <=? n)%nat && (n <=? 57)%nat)
  || ((65 <=? n)%nat && (n <=? 90)%nat)
  || ((97 <=? n)%nat && (n <=? 122)%nat)
  || (n =? 42)%nat || (n =? 45)%nat || (n =? 46)%nat || (n =? 95)%nat.

(** The application/x-www-form-urlencoded serialisation of a string. *)
Fixpoint encode (s : string) : string :=
  match s with
  | EmptyString => EmptyString
  | String c r =>
      let n := nat_of_ascii c in
      if unreserved c then String c (encode r)
      else if (n =? 32)%nat then String "+"%char (encode r)
      else String "%"%char
             (String (hex_digit (n / 16)) (String (hex_digit (n mod 16)) (encode r)))
  end.

(** [new URLSearchParams({...}).toString()] *)
Fixpoint toString (params : list (string * string)) : string :=
  match params with
  | [] => ""
  | [(k, v)] => encode k ++ "=" ++ encode v
  | (k, v) :: rest => encode k ++ "=" ++ encode v ++ "&" ++ toString rest
  end.

End URLSearchParams.

(** [array.slice(0, n)] *)
Definition slice0 {A} (n : Z) (l : list A) : list A :=
  if n <? 0 then firstn (length l - Z.to_nat (- n)) l
  else firstn (Z.to_nat n) l.

(** [array.join(',')] *)
Fixpoint join_comma (l : list string) : string :=
  match l with
  | [] => ""
  | [x] => x
  | x :: rest => x ++ "," ++ join_comma rest
  end.

(* ===================================================================== *)
(** * src/services/LocationService.ts *)
(* ===================================================================== *)

Module LocationService.

Section WithConfig.
Context (config : Config).

Definition baseUrl : string := geocodingApiBaseUrl config.
Definition maxResults : Z := maxLocationResults config.

Definition errorHandler : RetryHandler.PartialRetryConfig :=
  {| RetryHandler.p_maxAttempts := Some 2;
     RetryHandler.p_baseDelay := Some 500;
     RetryHandler.p_maxDelay := Some 3000;
     RetryHandler.p_backoffMultiplier := None;
     RetryHandler.p_retryableErrors := None |}.

(** The character class of [sanitizeQuery]: less-than, greater-than, double
    quote (code 34), single quote (code 39), ampersand, both parentheses and
    slash. *)
Definition dangerous (c : ascii) : bool :=
  existsb (Ascii.eqb c)
    [ "<"%char; ">"%char; ascii_of_nat 34; ascii_of_nat 39; "&"%char;
      "("%char; ")"%char; "/"%char ].

(** [sanitizeQuery(query)] *)
Definition sanitizeQuery (query : string) : string :=
  JS.substring0 100 (JS.remove_chars dangerous (JS.trim query)).

(** [isValidQuery(query)] *)
Definition isValidQuery (query : string) : bool :=
  (2 <=? String.length query)%nat && (String.length query <=? 100)%nat.

(** [buildSearchUrl(query)] *)
Definition buildSearchUrl (query : string) : string :=
  baseUrl ++ "?" ++
  URLSearchParams.toString
    [ ("name", query); ("count", JS.Z_toString maxResults);
      ("language", "en"); ("format", "json") ].

(** [(v as string).length > 0], evaluated after [typeof v === 'string']. *)
Definition length_positive (v : JsValue) : bool :=
  match v with
  | JStr s => (0 <? String.length s)%nat
  | _ => false
  end.

(** [isValidLocationResult(result)] *)
Definition isValidLocationResult (result : JsValue) : bool :=
  negb (match result with JNull => true | _ => false end)
  && typeof_object result
  && negb (match result with JUndefined => true | _ => false end)
  && has_prop "id" result
  && has_prop "name" result
  && has_prop "country" result
  && has_prop "latitude" result
  && has_prop "longitude" result
  && typeof_number (prop result "id")
  && typeof_string (prop result "name")
  && typeof_string (prop result "country")
  && typeof_number (prop result "latitude")
  && typeof_number (prop result "longitude")
  && length_positive (prop result "name")
  && length_positive (prop result "country").

(** [v as number] and [v as string]: casts, applied to validated records. *)
Definition as_number (v : JsValue) : float :=
  match v with JNum x => x | _ => PrimFloat.nan end.
Definition as_string (v : JsValue) : string :=
  match v with JStr s => s | _ => "" end.

(** [transformLocationResult(result)] *)
Definition transformLocationResult (result : JsValue) : Location :=
  {| id := as_number (prop result "id");
     name := as_string (prop result "name");
     country := as_string (prop result "country");
     admin1 := (let a := prop result "admin1" in if truthy a then Some a else None);
     latitude := as_number (prop result "latitude");
     longitude := as_number (prop result "longitude") |}.

(** [validateAndTransformResults(results)] *)
Definition validateAndTransformResults (results : list JsValue) : list Location :=
  map transformLocationResult
    (slice0 maxResults (List.filter isValidLocationResult results)).

(** The body of the [try] block of [searchLocations], from the response
    on.  [data.results.filter] exists only on arrays. *)
Definition process_response (sanitizedQuery : string) (response : Http.Response)
    : Async (list Location) :=
  let* data := lift (Http.json response) in
  let* results := lift (get_prop data "results") in
  if negb (truthy results) then
    fun w =>
      (Return [],
       set_storage
         (CacheService.cacheLocationSearch sanitizedQuery [] (Env.Date_now w) (storage w)) w)
  else
    match results with
    | JArr items =>
        let results := validateAndTransformResults items in
        fun w =>
          (Return results,
           set_storage
             (CacheService.cacheLocationSearch sanitizedQuery results
                (Env.Date_now w) (storage w)) w)
    | _ => throw (TypeError "results.filter is not a function")
    end.

(** [searchLocations(query)].  The result is [None] when the cache getter
    returned [undefined], which the [!== null] test lets through. *)
Definition searchLocations (query : string) : Async (option (list Location)) :=
  let sanitizedQuery := sanitizeQuery query in
  if negb (isValidQuery sanitizedQuery) then
    throw (ThrownAppError
             (createAppError user
                "Please enter a valid location name (at least 2 characters)" false None))
  else
    fun w =>
      let '(cachedResults, ls) :=
        CacheService.getCachedLocationSearch sanitizedQuery (Env.Date_now w) (storage w) in
      let w := set_storage ls w in
      match cachedResults with
      | CacheService.Data d => (Return (Some d), w)
      | CacheService.Undefined => (Return None, w)
      | CacheService.Null =>
          try_catch
            (let url := buildSearchUrl sanitizedQuery in
             let* response := ErrorHandler.handleFetch errorHandler url "Location search" in
             let* results := process_response sanitizedQuery response in
             ret (Some results))
            (fun error => throw error)   (* catch (error) { throw error } *)
            w
      end.

End WithConfig.

End LocationService.

(* ===================================================================== *)
(** * src/services/WeatherService.ts *)
(* ===================================================================== *)

Module WeatherService.

Section WithConfig.
Context (config : Config).
(** [new Date(v).getTime()] of the host, [None] standing for NaN (an
    invalid date). *)
Context (Date_getTime : JsValue -> option Z).

Definition baseUrl : string := weatherApiBaseUrl config.

Definition errorHandler : RetryHandler.PartialRetryConfig :=
  {| RetryHandler.p_maxAttempts := Some 3;
     RetryHandler.p_baseDelay := Some 1000;
     RetryHandler.p_maxDelay := Some 8000;
     RetryHandler.p_backoffMultiplier := None;
     RetryHandler.p_retryableErrors := None |}.

Definition coordinate_error (msg : string) : Thrown :=
  ThrownAppError (createAppError user msg false None).

(** [validateCoordinates(lat, lon)].  The arguments are declared [number];
    the [typeof] tests see whatever value the caller passed. *)
Definition validateCoordinates (lat lon : JsValue) : Completion unit :=
  match lat, lon with
  | JNum lat, JNum lon =>
      if (lat <? -90)%float || (90 <? lat)%float then
        Throw (coordinate_error "Latitude must be between -90 and 90 degrees")
      else if (lon <? -180)%float || (180 <? lon)%float then
        Throw (coordinate_error "Longitude must be between -180 and 180 degrees")
      else Return tt
  | _, _ => Throw (coordinate_error "Invalid coordinates provided")
  end.

Definition current_fields : list string :=
  [ "temperature_2m"; "weather_code"; "wind_speed_10m"; "wind_direction_10m";
    "relative_humidity_2m" ].

Definition daily_fields : list string :=
  [ "temperature_2m_max"; "temperature_2m_min"; "weather_code"; "precipitation_sum" ].

(** [buildCurrentWeatherUrl(lat, lon)] *)
Definition buildCurrentWeatherUrl (lat lon : float) : string :=
  baseUrl ++ "?" ++
  URLSearchParams.toString
    [ ("latitude", JS.Number_toString lat);
      ("longitude", JS.Number_toString lon);
      ("current", join_comma current_fields);
      ("timezone", "auto") ].

(** [buildForecastUrl(lat, lon)] *)
Definition buildForecastUrl (lat lon : float) : string :=
  baseUrl ++ "?" ++
  URLSearchParams.toString
    [ ("latitude", JS.Number_toString lat);
      ("longitude", JS.Number_toString lon);
      ("daily", join_comma daily_fields);
      ("forecast_days", JS.Z_toString (forecastDays config));
      ("timezone", "auto") ].

(** [buildCompleteWeatherUrl(lat, lon)] *)
Definition buildCompleteWeatherUrl (lat lon : float) : string :=
  baseUrl ++ "?" ++
  URLSearchParams.toString
    [ ("latitude", JS.Number_toString lat);
      ("longitude", JS.Number_toString lon);
      ("current", join_comma current_fields);
      ("daily", join_comma daily_fields);
      ("forecast_days", JS.Z_toString (forecastDays config));
      ("timezone", "auto") ].

(** [parseTimestamp(timestamp)], [new Date()] reading [now]. *)
Definition parseTimestamp (ts : JsValue) (now : Z) : Date :=
  match Date_getTime ts with
  | Some t => t
  | None => now
  end.

(** [transformCurrentWeatherData(current)], for a truthy [current]. *)
Definition transformCurrentWeatherData (cur : JsValue) (now : Z) : CurrentWeatherData :=
  {| temperature := prop cur "temperature_2m";
     weatherCode := prop cur "weather_code";
     windSpeed := prop cur "wind_speed_10m";
     windDirection := prop cur "wind_direction_10m";
     humidity := prop cur "relative_humidity_2m";
     timestamp := parseTimestamp (prop cur "time") now |}.

(** The callback of [time.map] applied from [index] on. *)
Fixpoint forecast_from (items : list JsValue) (index : nat)
    (tmax tmin code precip : JsValue) (now : Z) : Completion (list ForecastData) :=
  match items with
  | [] => Return []
  | dateStr :: rest =>
      let d := parseTimestamp dateStr now in
      match get_index tmax index with
      | Throw t => Throw t
      | Return vmax =>
      match get_index tmin index with
      | Throw t => Throw t
      | Return vmin =>
      match get_index code index with
      | Throw t => Throw t
      | Return vcode =>
      match get_index precip index with
      | Throw t => Throw t
      | Return vprecip =>
      match forecast_from rest (S index) tmax tmin code precip now with
      | Throw t => Throw t
      | Return days =>
          Return ({| date := d; temperatureMax := vmax; temperatureMin := vmin;
                     fc_weatherCode := vcode; precipitationSum := vprecip |} :: days)
      end end end end end
  end.

(** [transformForecastData(daily)], for a truthy [daily]: [time.map]
    exists only on arrays. *)
Definition transformForecastData (daily : JsValue) (now : Z)
    : Completion (list ForecastData) :=
  match prop daily "time" with
  | JArr items =>
      forecast_from items 0 (prop daily "temperature_2m_max")
        (prop daily "temperature_2m_min") (prop daily "weather_code")
        (prop daily "precipitation_sum") now
  | JUndefined => Throw (TypeError "Cannot read properties of undefined (reading 'map')")
  | JNull => Throw (TypeError "Cannot read properties of null (reading 'map')")
  | _ => Throw (TypeError "time.map is not a function")
  end.

Definition invalid_data (msg : string) : Thrown :=
  ThrownAppError (createAppError data msg true None).

(** [cacheService.cacheWeatherData(lat, lon, current, forecast)] *)
Definition cache_both (lat lon : float) (cur : CurrentWeatherData)
    (fc : list ForecastData) : Async unit :=
  fun w =>
    (Return tt,
     set_storage
       (CacheService.cacheWeatherData config lat lon cur fc (Env.Date_now w) (storage w)) w).

(** [cacheService.getCachedWeatherData(lat, lon)] *)
Definition cache_lookup (lat lon : float) : Async (CacheService.Cached WeatherCacheData) :=
  fun w =>
    let '(c, ls) := CacheService.getCachedWeatherData lat lon (Env.Date_now w) (storage w) in
    (Return c, set_storage ls w).

Definition undefined_read (name : string) : Thrown :=
  TypeError ("Cannot read properties of undefined (reading '" ++ name ++ "')").

(** The [try] block of [getCurrentWeather]. *)
Definition fetch_current (lat lon : float) : Async CurrentWeatherData :=
  let url := buildCurrentWeatherUrl lat lon in
  let* response := ErrorHandler.handleFetch errorHandler url "Weather" in
  let* data := lift (Http.json response) in
  let* cur := lift (get_prop data "current") in
  if negb (truthy cur) then
    throw (invalid_data "Invalid weather data received from service")
  else
    fun w =>
      let currentWeather := transformCurrentWeatherData cur (Env.Date_now w) in
      (* If we have daily data too, cache both together *)
      (let* _ :=
         (if truthy (prop data "daily") then
            let* fc := lift (transformForecastData (prop data "daily") (Env.Date_now w)) in
            cache_both lat lon currentWeather fc
          else ret tt) in
       ret currentWeather) w.

(** [getCurrentWeather(lat, lon)] *)
Definition getCurrentWeather (lat lon : JsValue) : Async CurrentWeatherData :=
  let* _ := lift (validateCoordinates lat lon) in
  let lat := LocationService.as_number lat in
  let lon := LocationService.as_number lon in
  let* cachedData := cache_lookup lat lon in
  match cachedData with
  | CacheService.Data d => ret (current d)
  | CacheService.Undefined => throw (undefined_read "current")
  | CacheService.Null =>
      try_catch (fetch_current lat lon) (fun error => throw error)
  end.

(** The [try] block of [getForecast]. *)
Definition fetch_forecast (lat lon : float) : Async (list ForecastData) :=
  let url := buildForecastUrl lat lon in
  let* response := ErrorHandler.handleFetch errorHandler url "Weather forecast" in
  let* data := lift (Http.json response) in
  let* daily := lift (get_prop data "daily") in
  if negb (truthy daily) then
    throw (invalid_data "Invalid forecast data received from service")
  else
    fun w =>
      (let* fc := lift (transformForecastData daily (Env.Date_now w)) in
       (* If we have current data too, cache both together *)
       let* _ :=
         (if truthy (prop data "current") then
            cache_both lat lon
              (transformCurrentWeatherData (prop data "current") (Env.Date_now w)) fc
          else ret tt) in
       ret fc) w.

(** [getForecast(lat, lon)] *)
Definition getForecast (lat lon : JsValue) : Async (list ForecastData) :=
  let* _ := lift (validateCoordinates lat lon) in
  let lat := LocationService.as_number lat in
  let lon := LocationService.as_number lon in
  let* cachedData := cache_lookup lat lon in
  match cachedData with
  | CacheService.Data d => ret (forecast d)
  | CacheService.Undefined => throw (undefined_read "forecast")
  | CacheService.Null =>
      try_catch (fetch_forecast lat lon) (fun error => throw error)
  end.

(** The [try] block of [getCompleteWeatherData]. *)
Definition fetch_complete (lat lon : float) : Async WeatherCacheData :=
  let url := buildCompleteWeatherUrl lat lon in
  let* response := ErrorHandler.handleFetch errorHandler url "Complete weather" in
  let* data := lift (Http.json response) in
  let* cur := lift (get_prop data "current") in
  if negb (truthy cur) || negb (truthy (prop data "daily")) then
    throw (invalid_data "Invalid weather data received from service")
  else
    fun w =>
      let c := transformCurrentWeatherData cur (Env.Date_now w) in
      (let* fc := lift (transformForecastData (prop data "daily") (Env.Date_now w)) in
       let* _ := cache_both lat lon c fc in
       ret {| current := c; forecast := fc |}) w.

(** [getCompleteWeatherData(lat, lon)]; [None] is the [undefined] that the
    [!== null] test lets through. *)
Definition getCompleteWeatherData (lat lon : JsValue) : Async (option WeatherCacheData) :=
  let* _ := lift (validateCoordinates lat lon) in
  let lat := LocationService.as_number lat in
  let lon := LocationService.as_number lon in
  let* cachedData := cache_lookup lat lon in
  match cachedData with
  | CacheService.Data d => ret (Some d)
  | CacheService.Undefined => ret None
  | CacheService.Null =>
      try_catch (let* d := fetch_complete lat lon in ret (Some d))
                (fun error => throw error)
  end.

End WithConfig.

End WeatherService.

(* ===================================================================== *)
(** * Vocabulary of the properties *)
(* ===================================================================== *)

Definition is_sleep (e : Event) : bool :=
  match e with EvSleep _ => true | EvFetch _ => false end.

(** The number of backoff sleeps a trace records. *)
Definition count_sleeps (tr : list Event) : nat := length (List.filter is_sleep tr).

(** The number of requests a trace records. *)
Definition count_fetches (tr : list Event) : nat :=
  length (List.filter (fun e => negb (is_sleep e)) tr).

(** No coming connectivity event brings the browser online. *)
Definition stays_offline (w : World) : Prop :=
  online w = false /\ Forall (fun ev => ev <> Some true) (connectivity w).

(** What a successful accessor call leaves in the weather cache when it
    caches: the world [after] is [before] with [cacheWeatherData] applied
    to its storage, and where that storage accepts the write it holds the
    pair under the coordinate key. *)
Definition cached_together (config : Config) (lat lon : float)
    (cur : CurrentWeatherData) (fc : list ForecastData) (before after : World) : Prop :=
  after = set_storage
            (CacheService.cacheWeatherData config lat lon cur fc (clock before)
               (storage before)) before
  /\ (CacheService.writable (storage before) = true ->
      exists cache,
        CacheService.weather_item (storage after) = CacheService.Blob cache
        /\ assoc (CacheService.getWeatherCacheKey lat lon) cache
           = Some {| CacheService.data := {| current := cur; forecast := fc |};
                     CacheService.timestamp := clock before;
                     CacheService.expiresAt :=
                       clock before + CacheService.WEATHER_CACHE_DURATION config |}).

(* ===================================================================== *)
(** * Concrete environments *)
(* ===================================================================== *)

Module Scenario.

Definition empty_storage : CacheService.LocalStorage :=
  {| CacheService.readable := true; CacheService.writable := true;
     CacheService.location_item := CacheService.NoItem;
     CacheService.weather_item := CacheService.NoItem |}.

(** Online, nothing cached, nothing scripted. *)
Definition quiet : World :=
  {| online := true; clock := 1705320000000; randoms := []; connectivity := [];
     responses := []; requestCounts := ∅; storage := empty_storage; trace := [] |}.

(** Online, with the given outcomes of the coming requests. *)
Definition answering (outcomes : list Http.FetchOutcome) : World :=
  set_responses outcomes quiet.

Definition ok_json (v : JsValue) : Http.FetchOutcome :=
  {| Http.latency := 120;
     Http.result := Http.Resolves {| Http.status := 200; Http.body := Http.BodyJson v |} |}.

(** A 200 response whose body is not JSON: [response.json()] rejects. *)
Definition syntax_error : JsError :=
  {| err_name := "SyntaxError"; err_message := "Unexpected token < in JSON at position 0" |}.

Definition not_json : Http.FetchOutcome :=
  {| Http.latency := 120;
     Http.result := Http.Resolves {| Http.status := 200;
                                     Http.body := Http.BodyInvalid syntax_error |} |}.

(** Offline now; the online event arrives during the first sleep. *)
Definition offline_then_online : World :=
  set_online false (set_connectivity [Some true] (set_randoms [0.5%float] quiet)).

(** An operation that succeeds whenever it is invoked. *)
Definition succeed : Async Z := ret 42.

(** A host date parser that knows one timestamp and one calendar day. *)
Definition Date_getTime (v : JsValue) : option Z :=
  match v with
  | JStr s =>
      if String.eqb s "2024-01-15T12:00" then Some 1705320000000
      else if String.eqb s "2024-01-15" then Some 1705276800000
      else None
  | _ => None
  end.

(** A response to a current-weather request: no [daily] member. *)
Definition current_only : JsValue :=
  JObj [ ("current",
          JObj [ ("time", JStr "2024-01-15T12:00");
                 ("temperature_2m", JNum 15.5);
                 ("weather_code", JNum 1);
                 ("wind_speed_10m", JNum 10.25);
                 ("wind_direction_10m", JNum 180);
                 ("relative_humidity_2m", JNum 65) ]) ].

(** A response to a forecast request: no [current] member. *)
Definition daily_only : JsValue :=
  JObj [ ("daily",
          JObj [ ("time", JArr [JStr "2024-01-15"]);
                 ("temperature_2m_max", JArr [JNum 20.5]);
                 ("temperature_2m_min", JArr [JNum 10.25]);
                 ("weather_code", JArr [JNum 1]);
                 ("precipitation_sum", JArr [JNum 0]) ]) ].


(** A window that has reached the ceiling and has not expired. *)
Definition full_window : gmap string RateLimitHandler.RateWindow :=
  {[ "weather" := {| RateLimitHandler.count := 60; RateLimitHandler.resetTime := 60000 |} ]}.

Definition london : Location :=
  {| id := 2643743; name := "London"; country := "United Kingdom";
     admin1 := Some (JStr "England"); latitude := 51.5; longitude := -0.125 |}.

Definition no_weather : WeatherCacheData :=
  {| current :=
       {| temperature := JNum 15.5; weatherCode := JNum 1; windSpeed := JNum 10.25;
          windDirection := JNum 180; humidity := JNum 65; timestamp := 1705320000000 |};
     forecast := [] |}.

(** A response that carries both members. *)
Definition current_and_daily : JsValue :=
  JObj [ ("current",
          JObj [ ("time", JStr "2024-01-15T12:00");
                 ("temperature_2m", JNum 15.5);
                 ("weather_code", JNum 1);
                 ("wind_speed_10m", JNum 10.25);
                 ("wind_direction_10m", JNum 180);
                 ("relative_humidity_2m", JNum 65) ]);
         ("daily",
          JObj [ ("time", JArr [JStr "2024-01-15"]);
                 ("temperature_2m_max", JArr [JNum 20.5]);
                 ("temperature_2m_min", JArr [JNum 10.25]);
                 ("weather_code", JArr [JNum 1]);
                 ("precipitation_sum", JArr [JNum 0]) ]) ].

(** A storage whose weather cache holds one entry, under the key of two
    NaN coordinates, that expires at 1705320600000. *)
Definition nan_cached : World :=
  set_storage
    {| CacheService.readable := true; CacheService.writable := true;
       CacheService.location_item := CacheService.NoItem;
       CacheService.weather_item :=
         CacheService.Blob
           [ ("NaN,NaN",
              {| CacheService.data := no_weather;
                 CacheService.timestamp := 1705320000000;
                 CacheService.expiresAt := 1705320600000 |}) ] |}
    quiet.

(** Offline, with no connectivity event to come. *)
Definition offline_for_good : World := set_online false quiet.

(** An operation whose outcomes are scripted like those of [fetch]: it
    yields the status of the next response. *)
Definition scripted : Async Z :=
  let* response := Env.fetch "operation" in ret (Http.status response).

Definition rejecting (e : AppError) : Http.FetchOutcome :=
  {| Http.latency := 0; Http.result := Http.Rejects (ThrownAppError e) |}.

Definition status_only (status : Z) : Http.FetchOutcome :=
  {| Http.latency := 120;
     Http.result := Http.Resolves {| Http.status := status;
                                     Http.body := Http.BodyJson JNull |} |}.

Definition paris : JsValue :=
  JObj [ ("id", JNum 4); ("name", JStr "Paris"); ("country", JStr "France");
         ("latitude", JNum 48.8566); ("longitude", JNum 2.3522) ].

Definition london_raw : JsValue :=
  JObj [ ("id", JNum 1); ("name", JStr "London"); ("country", JStr "United Kingdom");
         ("latitude", JNum 51.5074); ("longitude", JNum (-0.1278)) ].

(** The response of the repository's test 'should filter out invalid
    location results': two valid records, one with members missing and one
    with members of the wrong types. *)
Definition mixed_results : JsValue :=
  JObj [ ("results",
          JArr [ london_raw;
                 JObj [ ("id", JNum 2); ("name", JStr "Invalid Location") ];
                 JObj [ ("id", JStr "3"); ("name", JNum 123); ("country", JStr "Test");
                        ("latitude", JStr "invalid"); ("longitude", JNum 0) ];
                 paris ]) ].

End Scenario.

Module CacheScenario.
Import CacheService.

(** A storage whose two caches each hold one entry that expired at
    1705320000000. *)
Definition stale : LocalStorage :=
  {| readable := true; writable := true;
     location_item :=
       Blob [ ("london", {| data := [Scenario.london]; timestamp := 1705233600000;
                            expiresAt := 1705320000000 |}) ];
     weather_item :=
       Blob [ ("51.5,-0.13", {| data := Scenario.no_weather; timestamp := 1705319400000;
                                expiresAt := 1705320000000 |}) ] |}.

(** Fifty searches, cached one second apart from 1705320000000 on. *)
Definition fifty : Dict.t (CacheEntry (list Location)) :=
  map (fun i : nat =>
         ("city " ++ JS.Z_toString (Z.of_nat i),
          {| data := []; timestamp := 1705320000000 + 1000 * Z.of_nat i;
             expiresAt := 1705406400000 + 1000 * Z.of_nat i |}))
      (seq 0 50).

Definition full : LocalStorage :=
  {| readable := true; writable := true;
     location_item := Blob fifty; weather_item := NoItem |}.

(** The three spellings of the specification. *)
Definition spellings : list string := [ "  New York  "; "NEW YORK"; "new    york" ].

End CacheScenario.
(* ===================================================================== *)
(** * What the JSON text of a cache gives back *)
(* ===================================================================== *)

Module JSON.

(** [JSON.parse(JSON.stringify(x))] for a number: NaN and the infinities
    are written as [null], negative zero as [0]; every other number is
    written with the digits that read back as itself. *)
Definition number (x : float) : JsValue :=
  match Prim2SF x with
  | S754_nan | S754_infinity _ => JNull
  | S754_zero _ => JNum PrimFloat.zero
  | S754_finite _ _ _ => JNum x
  end.

(** [JSON.parse(JSON.stringify(v))] for the value of a member or of an
    array element: a member that is [undefined] is left out of the text,
    an element that is [undefined] is written as [null]. *)
Fixpoint value (v : JsValue) : JsValue :=
  match v with
  | JNum x => number x
  | JArr items =>
      JArr (map (fun item => match item with
                             | JUndefined => JNull
                             | _ => value item
                             end) items)
  | JObj fields =>
      JObj ((fix members (l : list (string * JsValue)) : list (string * JsValue) :=
               match l with
               | [] => []
               | (_, JUndefined) :: r => members r
               | (k, x) :: r => (k, value x) :: members r
               end) fields)
  | _ => v
  end.

(** What the weather cache gives back for what was written: a valid [Date]
    is written as its ISO string and rebuilt from it. *)
Definition roundtrip_current (c : CurrentWeatherData) : CurrentWeatherData :=
  {| temperature := value (temperature c);
     weatherCode := value (weatherCode c);
     windSpeed := value (windSpeed c);
     windDirection := value (windDirection c);
     humidity := value (humidity c);
     timestamp := timestamp c |}.

Definition roundtrip_day (d : ForecastData) : ForecastData :=
  {| date := date d;
     temperatureMax := value (temperatureMax d);
     temperatureMin := value (temperatureMin d);
     fc_weatherCode := value (fc_weatherCode d);
     precipitationSum := value (precipitationSum d) |}.

Definition roundtrip_weather (d : WeatherCacheData) : WeatherCacheData :=
  {| current := roundtrip_current (current d);
     forecast := map roundtrip_day (forecast d) |}.

(** A Location whose JSON text gives it back unchanged: its numbers are
    finite and not negative zero. *)
Definition location_survives (l : Location) : Prop :=
  number (id l) = JNum (id l)
  /\ number (latitude l) = JNum (latitude l)
  /\ number (longitude l) = JNum (longitude l)
  /\ match admin1 l with
     | Some a => value a = a
     | None => True
     end.

End JSON.


(* ===================================================================== *)
(** * CacheService.ts: maintenance operations *)
(* ===================================================================== *)

Module CacheMaintenance.
Import CacheService.

(** [clearAllCache()].  [removable] tells whether the storage carries out
    [removeItem]; when it throws, at the first call, the error is caught
    and nothing has been removed. *)
Definition clearAllCache (removable : bool) (ls : LocalStorage) : LocalStorage :=
  if removable then
    {| readable := readable ls; writable := writable ls;
       location_item := NoItem; weather_item := NoItem |}
  else ls.

(** The [forEach] over the snapshot [Object.keys(cache)] of the two
    cleanup methods: the cache object and the [hasExpired] flag after the
    keys have been visited.  Reading [cache[key].expiresAt] throws a
    TypeError ([None]) if [cache[key]] is [undefined]; an inherited member
    has [expiresAt] undefined and compares false. *)
Fixpoint cleanup_keys {T} (now : Z) (keys : list string)
    (cache : Dict.t (CacheEntry T)) (hasExpired : bool)
    : option (Dict.t (CacheEntry T) * bool) :=
  match keys with
  | [] => Some (cache, hasExpired)
  | key :: rest =>
      match Dict.get key cache with
      | Dict.Own entry =>
          if expiresAt entry <? now
          then cleanup_keys now rest (Dict.delete key cache) true
          else cleanup_keys now rest cache hasExpired
      | Dict.Inherited => cleanup_keys now rest cache hasExpired
      | Dict.Missing => None
      end
  end.

(** [cleanupLocationCache()] *)
Definition cleanupLocationCache (now : Z) (ls : LocalStorage) : LocalStorage :=
  let cache := getLocationCache ls in
  match cleanup_keys now (Dict.keys cache) cache false with
  | Some (cache, true) =>
      match setLocationItem cache ls with
      | Some ls' => ls'
      | None => ls
      end
  | _ => ls
  end.

(** [cleanupWeatherCache()] *)
Definition cleanupWeatherCache (now : Z) (ls : LocalStorage) : LocalStorage :=
  let cache := getWeatherCache ls in
  match cleanup_keys now (Dict.keys cache) cache false with
  | Some (cache, true) =>
      match setWeatherItem cache ls with
      | Some ls' => ls'
      | None => ls
      end
  | _ => ls
  end.

(** [cleanupExpiredEntries()] *)
Definition cleanupExpiredEntries (now : Z) (ls : LocalStorage) : LocalStorage :=
  cleanupWeatherCache now (cleanupLocationCache now ls).

(** The result of [getCacheStats()]. *)
Record CacheStats := {
  locationCacheSize : nat;
  weatherCacheSize : nat;
  locationCacheExpired : nat;
  weatherCacheExpired : nat
}.

(** [Object.values(cache).filter(entry => now > entry.expiresAt).length] *)
Definition expired_count {T} (now : Z) (cache : Dict.t (CacheEntry T)) : nat :=
  length (List.filter (fun kv => expiresAt (snd kv) <? now) cache).

(** [getCacheStats()] *)
Definition getCacheStats (now : Z) (ls : LocalStorage) : CacheStats :=
  let locationCache := getLocationCache ls in
  let weatherCache := getWeatherCache ls in
  {| locationCacheSize := length (Dict.keys locationCache);
     weatherCacheSize := length (Dict.keys weatherCache);
     locationCacheExpired := expired_count now locationCache;
     weatherCacheExpired := expired_count now weatherCache |}.

End CacheMaintenance.

(* ===================================================================== *)
(** * errorHandling.ts: listeners, connectivity test and offline queue *)
(* ===================================================================== *)

Module Connectivity.

(** [await fetch(url, { signal: AbortSignal.timeout(limit) })]: as
    [Env.fetch], with the abort after [limit] milliseconds. *)
Definition fetch_within (limit : Z) (url : string) : Async Http.Response :=
  fun w =>
    let w := log (EvFetch url) w in
    match responses w with
    | [] =>
        (Throw (ThrownError {| err_name := "TypeError"; err_message := "Failed to fetch" |}), w)
    | o :: rest =>
        let w := set_responses rest w in
        if limit <=? Http.latency o then
          (Throw (ThrownError {| err_name := "TimeoutError";
                                 err_message := "The operation timed out." |}),
           set_clock (clock w + limit) w)
        else
          let w := set_clock (clock w + Z.max 0 (Http.latency o)) w in
          match Http.result o with
          | Http.Resolves r => (Return r, w)
          | Http.Rejects t => (Throw t, w)
          end
    end.

(** [NetworkChecker.testConnectivity()] *)
Definition testConnectivity : Async bool :=
  fun w =>
    if negb (NetworkChecker.isNetworkOnline w) then (Return false, w)
    else
      match fetch_within 5000 "https://httpbin.org/status/200" w with
      | (Return _, w) => (Return true, w)
      | (Throw _, w) => (Return false, w)
      end.

End Connectivity.

Module OfflineQueue.

(** A registered callback, identified as a function object is: the
    [onlineHandler] closure of the [n]-th [queueForOnline] call, or some
    other callback, which neither throws nor touches the checker or the
    queue. *)
Inductive Listener :=
| OnlineHandler (n : nat)
| Other (n : nat).

Definition Listener_eqb (a b : Listener) : bool :=
  match a, b with
  | OnlineHandler n, OnlineHandler m => (n =? m)%nat
  | Other n, Other m => (n =? m)%nat
  | _, _ => false
  end.

Definition is_online_handler (l : Listener) : bool :=
  match l with OnlineHandler _ => true | Other _ => false end.

(** An element of [OfflineHandler.offlineQueue]; [promise] identifies the
    promise whose [resolve] and [reject] the element holds. *)
Record QueueItem (T : Type) := {
  operation : Async T;
  promise : nat;
  context : string
}.
Arguments operation {T} q.
Arguments promise {T} q.
Arguments context {T} q.

(** The world together with [NetworkChecker.listeners], the offline queue
    and the promises settled so far, in the order they were settled. *)
Record State (T : Type) := {
  world : World;
  listeners : list Listener;
  offlineQueue : list (QueueItem T);
  settled : list (nat * Completion T);
  calls : nat            (* the number of [queueForOnline] calls so far *)
}.
Arguments world {T} s.
Arguments listeners {T} s.
Arguments offlineQueue {T} s.
Arguments settled {T} s.
Arguments calls {T} s.

Section Queue.
Context {T : Type}.

(** [addNetworkListener(callback)] *)
Definition addNetworkListener (callback : Listener) (s : State T) : State T :=
  {| world := world s; listeners := listeners s ++ [callback];
     offlineQueue := offlineQueue s; settled := settled s; calls := calls s |}.

(** [removeNetworkListener(callback)] *)
Definition removeNetworkListener (callback : Listener) (s : State T) : State T :=
  {| world := world s;
     listeners := List.filter (fun l => negb (Listener_eqb l callback)) (listeners s);
     offlineQueue := offlineQueue s; settled := settled s; calls := calls s |}.

(** [queueForOnline(operation, context)]: the promise returned and the
    state afterwards. *)
Definition queueForOnline (op : Async T) (ctx : string) (s : State T) : nat * State T :=
  let n := calls s in
  let s :=
    {| world := world s; listeners := listeners s;
       offlineQueue := offlineQueue s
                         ++ [{| operation := op; promise := n; context := ctx |}];
       settled := settled s; calls := S n |} in
  (n, addNetworkListener (OnlineHandler n) s).

(** One turn of the loop of [processOfflineQueue]. *)
Definition process_item (s : State T) (item : QueueItem T) : State T :=
  let '(outcome, w) := operation item (world s) in
  {| world := w; listeners := listeners s; offlineQueue := offlineQueue s;
     settled := settled s ++ [(promise item, outcome)]; calls := calls s |}.

(** [processOfflineQueue()], run to its end. *)
Definition processOfflineQueue (s : State T) : State T :=
  let queue := offlineQueue s in
  let s :=
    {| world := world s; listeners := listeners s; offlineQueue := [];
       settled := settled s; calls := calls s |} in
  fold_left process_item queue s.

(** A call of one listener. *)
Definition call_listener (online : bool) (s : State T) (l : Listener) : State T :=
  match l with
  | OnlineHandler n =>
      if online then removeNetworkListener (OnlineHandler n) (processOfflineQueue s)
      else s
  | Other _ => s
  end.

(** [notifyListeners(online)]: [forEach] runs over the array that was
    registered when it started; [removeNetworkListener] installs a new
    one. *)
Definition notifyListeners (online : bool) (s : State T) : State T :=
  fold_left (call_listener online) (listeners s) s.

(** The handlers of the window's [online] and [offline] events. *)
Definition on_event (online : bool) (s : State T) : State T :=
  notifyListeners online
    {| world := set_online online (world s); listeners := listeners s;
       offlineQueue := offlineQueue s; settled := settled s; calls := calls s |}.

(** Is the listener the online handler of one of the calls [hs]? *)
Definition among (hs : list nat) (l : Listener) : bool :=
  existsb (fun n => Listener_eqb l (OnlineHandler n)) hs.

(** Several [queueForOnline] calls in a row. *)
Fixpoint queue_all (ops : list (Async T)) (ctx : string) (s : State T) : State T :=
  match ops with
  | [] => s
  | op :: rest => queue_all rest ctx (snd (queueForOnline op ctx s))
  end.

End Queue.

End OfflineQueue.

(** Operations run one after the other: their outcomes, and the world
    afterwards. *)
Fixpoint run_all {T} (ops : list (Async T)) (w : World) : list (Completion T) * World :=
  match ops with
  | [] => ([], w)
  | op :: rest =>
      let '(c, w1) := op w in
      let '(cs, w2) := run_all rest w1 in
      (c :: cs, w2)
  end.

(* ===================================================================== *)
(** * Further vocabulary *)
(* ===================================================================== *)

(** The test of the retry engine's [catch] block on an AppError: it is
    thrown again at once. *)
Definition not_retried (config : RetryHandler.RetryConfig) (e : AppError) : bool :=
  negb (retryable e)
  || negb (existsb (ErrorType_eqb (type e)) (RetryHandler.retryableErrors config))
  || ErrorType_eqb (type e) user.

(** [checkRateLimit] calls for any keys at any clock readings, in order:
    the map afterwards. *)
Fixpoint rate_limit_history (calls : list (string * Z))
    (requestCounts : gmap string RateLimitHandler.RateWindow)
    : gmap string RateLimitHandler.RateWindow :=
  match calls with
  | [] => requestCounts
  | (key, now) :: rest =>
      rate_limit_history rest (snd (RateLimitHandler.checkRateLimit key now requestCounts))
  end.

(** The test the cache applies to an entry at clock reading [now]: it has
    not expired. *)
Definition unexpired {T} (now : Z) (kv : string * CacheService.CacheEntry T) : bool :=
  negb (CacheService.expiresAt (snd kv) <? now).

(* ===================================================================== *)
(** * Further concrete environments *)
(* ===================================================================== *)

Module MoreScenarios.

(** Online at clock reading 30000, the window of "weather" full. *)
Definition rate_limited : World :=
  set_clock 30000 (set_requestCounts Scenario.full_window Scenario.quiet).

(** An operation that fails with a data error. *)
Definition bad_data : AppError :=
  createAppError data "Invalid weather data received from API" true None.

Definition failing : Async Z := throw (ThrownAppError bad_data).

(** A 403 answer, then an answer that would succeed. *)
Definition forbidden_first : World :=
  Scenario.answering [Scenario.status_only 403; Scenario.ok_json JNull].

(** Three cached searches, the second the oldest. *)
Definition three_searches : Dict.t (CacheService.CacheEntry (list Location)) :=
  [ ("london", {| CacheService.data := [Scenario.london];
                  CacheService.timestamp := 3000; CacheService.expiresAt := 86403000 |});
    ("paris", {| CacheService.data := [];
                 CacheService.timestamp := 1000; CacheService.expiresAt := 86401000 |});
    ("rome", {| CacheService.data := [];
                CacheService.timestamp := 2000; CacheService.expiresAt := 86402000 |}) ].

(** What the accessors make of [Scenario.current_and_daily]. *)
Definition complete_weather : WeatherCacheData :=
  {| current :=
       {| temperature := JNum 15.5; weatherCode := JNum 1; windSpeed := JNum 10.25;
          windDirection := JNum 180; humidity := JNum 65; timestamp := 1705320000000 |};
     forecast :=
       [ {| date := 1705276800000; temperatureMax := JNum 20.5;
            temperatureMin := JNum 10.25; fc_weatherCode := JNum 1;
            precipitationSum := JNum 0 |} ] |}.

(** A geocoding response with the one record of London. *)
Definition london_results : JsValue := JObj [ ("results", JArr [Scenario.london_raw]) ].

Definition london_found : Location :=
  {| id := 1; name := "London"; country := "United Kingdom"; admin1 := None;
     latitude := 51.5074; longitude := -0.1278 |}.

(** The checker and the queue before anything is queued: offline, one
    listener registered by the application. *)
Definition nothing_queued : OfflineQueue.State Z :=
  {| OfflineQueue.world := Scenario.offline_for_good;
     OfflineQueue.listeners := [OfflineQueue.Other 0];
     OfflineQueue.offlineQueue := [];
     OfflineQueue.settled := [];
     OfflineQueue.calls := 0 |}.

(** A 503 answer, then an answer that succeeds; no connectivity event. *)
Definition unavailable_first : World :=
  Scenario.answering [Scenario.status_only 503; Scenario.ok_json JNull].

End MoreScenarios.

(* ===================================================================== *)
(** * Properties of the rate limiter *)
(* ===================================================================== *)

Module RateLimitFacts.
Import RateLimitHandler.

Lemma checkRateLimit_fresh key now counts :
  no_live_window key now counts ->
  checkRateLimit key now counts =
    (true, <[key := {| count := 1; resetTime := now + RATE_LIMIT_WINDOW |}]> counts).
Proof.
  unfold no_live_window, checkRateLimit.
  destruct (counts !! key) as [c|]; [|reflexivity].
  intros H. apply Z.ltb_lt in H. now rewrite H.
Qed.

Lemma checkRateLimit_below key now counts c :
  counts !! key = Some c ->
  now <= resetTime c ->
  count c < MAX_REQUESTS_PER_WINDOW ->
  checkRateLimit key now counts =
    (true, <[key := {| count := count c + 1; resetTime := resetTime c |}]> counts).
Proof.
  intros Hk Hnow Hc. unfold checkRateLimit. rewrite Hk.
  replace (resetTime c <? now) with false by (symmetry; apply Z.ltb_ge; lia).
  replace (MAX_REQUESTS_PER_WINDOW <=? count c) with false
    by (symmetry; apply Z.leb_gt; lia).
  reflexivity.
Qed.

Lemma checkRateLimit_blocked key now counts c :
  counts !! key = Some c ->
  now <= resetTime c ->
  MAX_REQUESTS_PER_WINDOW <= count c ->
  checkRateLimit key now counts = (false, counts).
Proof.
  intros Hk Hnow Hc. unfold checkRateLimit. rewrite Hk.
  replace (resetTime c <? now) with false by (symmetry; apply Z.ltb_ge; lia).
  replace (MAX_REQUESTS_PER_WINDOW <=? count c) with true
    by (symmetry; apply Z.leb_le; lia).
  reflexivity.
Qed.

(** A call is refused only inside a live window whose count has reached
    the ceiling. *)
Lemma checkRateLimit_false_inv key now counts :
  fst (checkRateLimit key now counts) = false ->
  exists c, counts !! key = Some c /\ now <= resetTime c
            /\ MAX_REQUESTS_PER_WINDOW <= count c.
Proof.
  unfold checkRateLimit.
  destruct (counts !! key) as [c|]; [|discriminate].
  destruct (resetTime c <? now) eqn:E1; [discriminate|].
  destruct (MAX_REQUESTS_PER_WINDOW <=? count c) eqn:E2; [|discriminate].
  intros _. exists c. apply Z.ltb_ge in E1. apply Z.leb_le in E2. auto.
Qed.

Lemma checkRateLimit_calls_app key ts1 ts2 counts :
  checkRateLimit_calls key (ts1 ++ ts2) counts =
    let '(r1, m1) := checkRateLimit_calls key ts1 counts in
    let '(r2, m2) := checkRateLimit_calls key ts2 m1 in
    ((r1 ++ r2)%list, m2).
Proof.
  revert counts. induction ts1 as [|t ts1 IH]; intros counts; simpl.
  - now destruct (checkRateLimit_calls key ts2 counts).
  - destruct (checkRateLimit key t counts) as [r m].
    rewrite IH.
    destruct (checkRateLimit_calls key ts1 m) as [r1 m1].
    now destruct (checkRateLimit_calls key ts2 m1).
Qed.

(** Calls inside a live window are all allowed while the count stays
    within the ceiling, and each adds one to the count. *)
Lemma checkRateLimit_calls_allowed key ts : forall counts c r,
  counts !! key = Some {| count := c; resetTime := r |} ->
  Forall (fun t => t <= r) ts ->
  c + Z.of_nat (length ts) <= MAX_REQUESTS_PER_WINDOW ->
  exists counts',
    checkRateLimit_calls key ts counts = (replicate (length ts) true, counts')
    /\ counts' !! key = Some {| count := c + Z.of_nat (length ts); resetTime := r |}.
Proof.
  induction ts as [|t ts IH]; intros counts c r Hk Hts Hlen.
  - exists counts. simpl. split; [reflexivity|]. now rewrite Z.add_0_r.
  - apply Forall_cons in Hts as [Ht Hts].
    cbn [length] in Hlen. rewrite Nat2Z.inj_succ in Hlen.
    cbn [checkRateLimit_calls].
    rewrite (checkRateLimit_below key t counts _ Hk); cbn [count resetTime]; [|lia..].
    destruct (IH (<[key := {| count := c + 1; resetTime := r |}]> counts) (c + 1) r)
      as (counts' & Hcalls & Hk'); [apply lookup_insert_eq|assumption|lia|].
    rewrite Hcalls. exists counts'. split; [reflexivity|].
    rewrite Hk'. cbn [length]. rewrite Nat2Z.inj_succ. f_equal. f_equal. lia.
Qed.

End RateLimitFacts.

(* ===================================================================== *)
(** * Properties of the retry engine *)
(* ===================================================================== *)

Module RetryFacts.
Import RetryHandler.

Section Engine.
Context {T : Type} (config : RetryConfig) (operationName : string).

(** One iteration of the loop that starts offline. *)
Lemma retry_loop_offline (operation : Async T) (remaining : nat) (attempt : Z)
    (lastError : option JsError) (w : World) :
  NetworkChecker.isNetworkOnline w = false ->
  retry_loop config operation operationName (S remaining) attempt lastError w
    = (if negb (existsb (ErrorType_eqb network) (retryableErrors config))
          || (attempt =? maxAttempts config)
       then (Throw (ThrownAppError offline_error), w)
       else
         let '(r, w1) := Env.Math_random w in
         retry_loop config operation operationName remaining (attempt + 1)
           (Some (as_Error (ThrownAppError offline_error)))
           (Env.sleep (JS.Z2float (backoff_delay config attempt) + r * 1000)%float w1)).
Proof.
  intros Hoff. cbn [retry_loop]. unfold attempt_once. rewrite Hoff. cbn [negb].
  cbn [retryable type offline_error createAppError ErrorType_eqb orb negb
       has_type_property].
  rewrite orb_false_r.
  destruct (existsb (ErrorType_eqb network) (retryableErrors config)); cbn [negb orb].
  - destruct (attempt =? maxAttempts config); reflexivity.
  - reflexivity.
Qed.

Lemma count_sleeps_app (tr1 tr2 : list Event) :
  count_sleeps (tr1 ++ tr2) = (count_sleeps tr1 + count_sleeps tr2)%nat.
Proof. unfold count_sleeps. now rewrite List.filter_app, length_app. Qed.

Lemma count_fetches_app (tr1 tr2 : list Event) :
  count_fetches (tr1 ++ tr2) = (count_fetches tr1 + count_fetches tr2)%nat.
Proof. unfold count_fetches. now rewrite List.filter_app, length_app. Qed.

(** A sleep during which the browser does not come online. *)
Lemma sleep_stays_offline (ms : float) (w : World) :
  stays_offline w ->
  stays_offline (Env.sleep ms w)
  /\ count_sleeps (trace (Env.sleep ms w)) = S (count_sleeps (trace w))
  /\ count_fetches (trace (Env.sleep ms w)) = count_fetches (trace w).
Proof.
  intros [Hoff Hev]. unfold Env.sleep, stays_offline.
  cbn [connectivity set_clock log clock].
  revert Hev.
  destruct (connectivity w) as [|[b|] rest] eqn:Hc; intros Hev;
    cbn [online connectivity trace set_online set_connectivity set_clock log];
    rewrite ?Hc, ?count_sleeps_app, ?count_fetches_app; cbn; repeat split;
    try assumption; try lia.
  - apply Forall_cons in Hev as [Hb _]. destruct b; congruence.
  - now apply Forall_cons in Hev as [_ Hrest].
  - now apply Forall_cons in Hev as [_ Hrest].
Qed.

Lemma Math_random_frame (w : World) :
  let w1 := snd (Env.Math_random w) in
  online w1 = online w /\ connectivity w1 = connectivity w /\ trace w1 = trace w.
Proof. unfold Env.Math_random. destruct (randoms w); cbn; auto. Qed.

(** An engine that is offline at every attempt never invokes the
    operation: if network errors are retried, it sleeps once after each
    attempt but the last and then raises the offline error. *)
Lemma offline_throughout (remaining : nat) : forall (attempt : Z)
    (lastError : option JsError) (w : World),
  stays_offline w ->
  existsb (ErrorType_eqb network) (retryableErrors config) = true ->
  attempt + Z.of_nat remaining = maxAttempts config ->
  exists w',
    (forall operation : Async T,
       retry_loop config operation operationName (S remaining) attempt lastError w
       = (Throw (ThrownAppError offline_error), w'))
    /\ count_sleeps (trace w') = (count_sleeps (trace w) + remaining)%nat
    /\ count_fetches (trace w') = count_fetches (trace w).
Proof.
  induction remaining as [|remaining IH]; intros attempt lastError w Hoff Hretry Hlast.
  - exists w. split; [|split; [lia|reflexivity]].
    intros operation. rewrite retry_loop_offline by apply Hoff.
    rewrite Hretry. cbn [negb orb].
    replace (attempt =? maxAttempts config) with true
      by (symmetry; apply Z.eqb_eq; lia).
    reflexivity.
  - pose proof (Math_random_frame w) as Hframe.
    destruct (Env.Math_random w) as [r w1] eqn:Hrandom. cbn [snd] in Hframe.
    destruct Hframe as (Ho & Hc & Ht).
    set (ms := (JS.Z2float (backoff_delay config attempt) + r * 1000)%float).
    assert (Hoff1 : stays_offline w1).
    { destruct Hoff as [H1 H2]. split; congruence. }
    destruct (sleep_stays_offline ms w1 Hoff1) as (Hoff2 & Hsleeps & Hfetches).
    destruct (IH (attempt + 1) (Some (as_Error (ThrownAppError offline_error)))
                (Env.sleep ms w1) Hoff2 Hretry) as (w' & Hrun & Hs & Hf); [lia|].
    exists w'. split; [|split].
    + intros operation. rewrite retry_loop_offline by apply Hoff.
      rewrite Hretry, Hrandom. cbn [negb orb].
      replace (attempt =? maxAttempts config) with false
        by (symmetry; apply Z.eqb_neq; lia).
      apply Hrun.
    + rewrite Hs, Hsleeps, Ht. lia.
    + rewrite Hf, Hfetches, Ht. reflexivity.
Qed.

End Engine.

End RetryFacts.

(* ===================================================================== *)
(** * Properties of dictionary objects and of the cache service *)
(* ===================================================================== *)

Module DictFacts.

Lemma assoc_In {A} (k : string) (v : A) (o : list (string * A)) :
  assoc k o = Some v -> In (k, v) o.
Proof.
  induction o as [|[k' v'] o IH]; simpl; [discriminate|].
  destruct (String.eqb k k') eqn:E.
  - apply String.eqb_eq in E. intros [= ->]. subst. now left.
  - intros H. right. now apply IH.
Qed.

Lemma assoc_None_keys {A} (k : string) (o : list (string * A)) :
  assoc k o = None -> ~ In k (Dict.keys o).
Proof.
  induction o as [|[k' v'] o IH]; simpl; [tauto|].
  destruct (String.eqb k k') eqn:E; [discriminate|].
  apply String.eqb_neq in E. intros H [Heq|Hin]; [congruence|]. now apply IH.
Qed.

Lemma assoc_delete_eq {A} (k : string) (o : Dict.t A) :
  assoc k (Dict.delete k o) = None.
Proof.
  unfold Dict.delete. induction o as [|[k' v'] o IH]; simpl; [reflexivity|].
  destruct (String.eqb k k') eqn:E; simpl; [exact IH|].
  now rewrite E.
Qed.

Lemma get_delete_not_own {A} (k : string) (o : Dict.t A) (v : A) :
  Dict.get k (Dict.delete k o) <> Dict.Own v.
Proof.
  unfold Dict.get. rewrite assoc_delete_eq.
  destruct (Dict.inherited_name k); discriminate.
Qed.

Lemma assoc_replace_eq {A} (k : string) (v : A) (o : Dict.t A) :
  assoc k o <> None -> assoc k (Dict.replace k v o) = Some v.
Proof.
  induction o as [|[k' v'] o IH]; simpl; [congruence|].
  destruct (String.eqb k k') eqn:E; simpl; rewrite E; [reflexivity|exact IH].
Qed.

Lemma length_replace {A} (k : string) (v : A) (o : Dict.t A) :
  length (Dict.replace k v o) = length o.
Proof.
  induction o as [|[k' v'] o IH]; simpl; [reflexivity|].
  destruct (String.eqb k k'); simpl; congruence.
Qed.

Lemma insert_new_Permutation {A} (k : string) (v : A) (o : Dict.t A) :
  Permutation ((k, v) :: o) (Dict.insert_new k v o).
Proof.
  induction o as [|[k' v'] o IH]; simpl; [reflexivity|].
  destruct (Dict.array_index k) as [n|].
  - destruct (Dict.array_index k') as [n'|]; [|reflexivity].
    destruct (n <? n'); [reflexivity|].
    rewrite perm_swap. now apply perm_skip.
  - rewrite perm_swap. now apply perm_skip.
Qed.

Lemma assoc_insert_new_eq {A} (k : string) (v : A) (o : Dict.t A) :
  assoc k o = None -> assoc k (Dict.insert_new k v o) = Some v.
Proof.
  induction o as [|[k' v'] o IH]; simpl.
  - now rewrite String.eqb_refl.
  - destruct (String.eqb k k') eqn:E; [discriminate|]. intros H.
    destruct (Dict.array_index k) as [n|].
    + destruct (Dict.array_index k') as [n'|].
      * destruct (n <? n'); simpl.
        -- now rewrite String.eqb_refl.
        -- rewrite E. now apply IH.
      * simpl. now rewrite String.eqb_refl.
    + simpl. rewrite E. now apply IH.
Qed.

(** After [o[k] = v] the object has the own property, unless [k] is
    [__proto__] and was not an own property before. *)
Lemma assoc_set_eq {A} (k : string) (v : A) (o : Dict.t A) :
  k <> "__proto__" -> assoc k (Dict.set k v o) = Some v.
Proof.
  intros Hk. unfold Dict.set. destruct (assoc k o) eqn:E.
  - apply assoc_replace_eq. congruence.
  - apply String.eqb_neq in Hk. rewrite Hk. now apply assoc_insert_new_eq.
Qed.

Lemma length_set_le {A} (k : string) (v : A) (o : Dict.t A) :
  (length (Dict.set k v o) <= S (length o))%nat.
Proof.
  unfold Dict.set. destruct (assoc k o).
  - rewrite length_replace. lia.
  - destruct (String.eqb k "__proto__"); [lia|].
    rewrite <- (Permutation_length (insert_new_Permutation k v o)). simpl. lia.
Qed.

Lemma filter_length_Permutation {A} (f : A -> bool) (l l' : list A) :
  Permutation l l' -> length (List.filter f l) = length (List.filter f l').
Proof.
  induction 1; simpl; try congruence.
  - destruct (f x); simpl; congruence.
  - destruct (f x), (f y); reflexivity.
Qed.

(** Deleting several keys in turn is one filter. *)
Lemma fold_delete_filter {A} (l : list (string * A)) : forall o : Dict.t A,
  fold_left (fun c kv => Dict.delete (fst kv) c) l o
  = List.filter (fun kv => negb (existsb (String.eqb (fst kv)) (map fst l))) o.
Proof.
  induction l as [|[k v] l IH]; intros o; simpl.
  - induction o as [|x o IHo]; simpl; congruence.
  - rewrite IH. unfold Dict.delete.
    induction o as [|[k' v'] o IHo]; simpl; [reflexivity|].
    rewrite (String.eqb_sym k' k).
    destruct (String.eqb k k'); simpl; rewrite IHo; reflexivity.
Qed.

Lemma filter_own_keys_nil {A} (l : list (string * A)) (ks : list string) :
  (forall kv, In kv l -> In (fst kv) ks) ->
  List.filter (fun kv => negb (existsb (String.eqb (fst kv)) ks)) l = [].
Proof.
  induction l as [|x l IH]; intros H; simpl; [reflexivity|].
  assert (Hx : existsb (String.eqb (fst x)) ks = true).
  { apply existsb_exists. exists (fst x). split; [apply H; now left|].
    apply String.eqb_refl. }
  rewrite Hx. simpl. apply IH. intros kv Hkv. apply H. now right.
Qed.

(** With every key occurring once, deleting the key of an entry removes
    that entry and nothing else. *)
Lemma delete_Permutation {A} (k : string) (v : A) (o : Dict.t A) :
  NoDup (Dict.keys o) -> In (k, v) o ->
  Permutation o ((k, v) :: Dict.delete k o).
Proof.
  unfold Dict.delete, Dict.keys.
  induction o as [|[k' v'] o IH]; simpl; intros Hnd Hin; [tauto|].
  apply NoDup_cons in Hnd as [Hnotin Hnd]. rewrite list_elem_of_In in Hnotin.
  destruct Hin as [Heq|Hin].
  - injection Heq as -> ->. rewrite String.eqb_refl. simpl.
    apply perm_skip.
    assert (Hsame : forall l : list (string * A), ~ In k (map fst l) ->
              List.filter (fun kv => negb (String.eqb k (fst kv))) l = l).
    { induction l as [|[k2 v2] l IHl]; simpl; intros Hl; [reflexivity|].
      destruct (String.eqb k k2) eqn:E.
      - apply String.eqb_eq in E. subst. tauto.
      - simpl. f_equal. apply IHl. tauto. }
    now rewrite Hsame.
  - destruct (String.eqb k k') eqn:E.
    + apply String.eqb_eq in E. subst. exfalso. apply Hnotin.
      change k' with (fst (k', v)). now apply in_map.
    + simpl. rewrite perm_swap. apply perm_skip. now apply IH.
Qed.

End DictFacts.

Module CacheFacts.
Import CacheService DictFacts.

Lemma insert_by_timestamp_Permutation {T} (x : string * CacheEntry T) l :
  Permutation (x :: l) (insert_by_timestamp x l).
Proof.
  induction l as [|y l IH]; simpl; [reflexivity|].
  destruct (timestamp (snd x) <=? timestamp (snd y)); [reflexivity|].
  rewrite perm_swap. now apply perm_skip.
Qed.

Lemma sort_by_timestamp_Permutation {T} (l : list (string * CacheEntry T)) :
  Permutation l (sort_by_timestamp l).
Proof.
  induction l as [|x l IH]; simpl; [reflexivity|].
  rewrite <- insert_by_timestamp_Permutation. now apply perm_skip.
Qed.

Lemma insert_by_timestamp_sorted {T} (x : string * CacheEntry T) l :
  StronglySorted ts_le l -> StronglySorted ts_le (insert_by_timestamp x l).
Proof.
  induction 1 as [|y l Hs IH Hall]; simpl.
  - constructor; constructor.
  - destruct (timestamp (snd x) <=? timestamp (snd y)) eqn:E.
    + apply Z.leb_le in E. constructor.
      * now constructor.
      * constructor; [exact E|].
        eapply Forall_impl; [exact Hall|]. unfold ts_le. intros a Ha. simpl in *. lia.
    + apply Z.leb_gt in E. constructor; [exact IH|].
      apply (Permutation_Forall (insert_by_timestamp_Permutation x l)).
      constructor; [unfold ts_le; lia|exact Hall].
Qed.

Lemma sort_by_timestamp_sorted {T} (l : list (string * CacheEntry T)) :
  StronglySorted ts_le (sort_by_timestamp l).
Proof.
  induction l as [|x l IH]; simpl; [constructor|].
  now apply insert_by_timestamp_sorted.
Qed.

(** The first entry after sorting is an entry of the cache, and no entry
    is older. *)
Lemma sort_head_oldest {T} (l : list (string * CacheEntry T)) h t :
  sort_by_timestamp l = h :: t ->
  In h l /\ forall x, In x l -> timestamp (snd h) <= timestamp (snd x).
Proof.
  intros Hs. pose proof (sort_by_timestamp_Permutation l) as Hp.
  pose proof (sort_by_timestamp_sorted l) as Hsorted.
  rewrite Hs in Hp, Hsorted. split.
  - apply (Permutation_in _ (Permutation_sym Hp)). now left.
  - intros x Hx. apply (Permutation_in _ Hp) in Hx as [<-|Hx]; [lia|].
    apply StronglySorted_inv in Hsorted as [_ Hall].
    rewrite Forall_forall in Hall. apply Hall. now apply list_elem_of_In.
Qed.

Lemma filter_prefix_keys_length {T} (pre suf : list (string * CacheEntry T)) :
  (length (List.filter (fun kv => negb (existsb (String.eqb (fst kv)) (map fst pre)))
             (pre ++ suf)) <= length suf)%nat.
Proof.
  rewrite List.filter_app, length_app.
  rewrite filter_own_keys_nil by (intros kv Hkv; now apply in_map).
  simpl. apply filter_length_le.
Qed.

(** [limitCacheSize] never leaves more than [maxSize] entries. *)
Lemma limitCacheSize_length {T} (cache : Dict.t (CacheEntry T)) (maxSize : nat) :
  (length (limitCacheSize cache maxSize) <= maxSize)%nat.
Proof.
  unfold limitCacheSize.
  destruct (length cache <=? maxSize)%nat eqn:E.
  - now apply Nat.leb_le in E.
  - apply Nat.leb_gt in E. rewrite fold_delete_filter.
    set (d := (length cache - maxSize)%nat).
    set (s := sort_by_timestamp cache).
    rewrite (filter_length_Permutation _ _ _ (sort_by_timestamp_Permutation cache)).
    fold s.
    pose proof (filter_prefix_keys_length (firstn d s) (skipn d s)) as H.
    rewrite firstn_skipn in H.
    etransitivity; [exact H|].
    rewrite length_skipn. unfold s.
    rewrite <- (Permutation_length (sort_by_timestamp_Permutation cache)).
    unfold d. lia.
Qed.

Lemma NoDup_map_injective {A B} (f : A -> B) (l : list A) x y :
  NoDup (map f l) -> In x l -> In y l -> f x = f y -> x = y.
Proof.
  induction l as [|a l IH]; simpl; [tauto|].
  intros Hnd Hx Hy Hf. apply NoDup_cons in Hnd as [Hnotin Hnd].
  rewrite list_elem_of_In in Hnotin.
  destruct Hx as [->|Hx], Hy as [->|Hy]; [reflexivity| | |now apply IH].
  - exfalso. apply Hnotin. rewrite Hf. now apply in_map.
  - exfalso. apply Hnotin. rewrite <- Hf. now apply in_map.
Qed.

End CacheFacts.

(* ===================================================================== *)
(** * Claims about RateLimitHandler *)
(* ===================================================================== *)

Section RateLimitClaims.
Import RateLimitHandler RateLimitFacts.

(** C5. With no live window for the key at the first call and the clock
    staying at or before that window's reset time for the 60 calls that
    follow, 61 calls of [checkRateLimit] answer [true] 60 times and then
    [false]; the next call after the reset time answers [true] and leaves a
    fresh window with count 1. *)
Theorem C5_sixty_allowed_then_blocked_then_reset
    (key : string) (t0 : Z) (ts : list Z) (t61 t' : Z)
    (counts : gmap string RateWindow) :
  no_live_window key t0 counts ->
  length ts = 59%nat ->
  Forall (fun t => t <= t0 + RATE_LIMIT_WINDOW) (ts ++ [t61]) ->
  t0 + RATE_LIMIT_WINDOW < t' ->
  exists counts61 counts62,
    checkRateLimit_calls key (t0 :: ts ++ [t61]) counts
      = ((replicate 60 true ++ [false])%list, counts61)
    /\ checkRateLimit key t' counts61 = (true, counts62)
    /\ counts62 !! key = Some {| count := 1; resetTime := t' + RATE_LIMIT_WINDOW |}.
Proof.
  intros Hfresh Hlen Hin Hlater.
  apply Forall_app in Hin as [Hts H61]. apply Forall_inv in H61.
  set (m1 := <[key := {| count := 1; resetTime := t0 + RATE_LIMIT_WINDOW |}]> counts).
  destruct (checkRateLimit_calls_allowed key ts m1 1 (t0 + RATE_LIMIT_WINDOW))
    as (m60 & Hcalls & Hk60).
  { apply lookup_insert_eq. }
  { exact Hts. }
  { rewrite Hlen. unfold MAX_REQUESTS_PER_WINDOW. lia. }
  rewrite Hlen in Hcalls, Hk60.
  assert (H61' : checkRateLimit key t61 m60 = (false, m60)).
  { eapply checkRateLimit_blocked; [exact Hk60| |]; cbn [count resetTime].
    - exact H61.
    - unfold MAX_REQUESTS_PER_WINDOW. lia. }
  exists m60.
  exists (<[key := {| count := 1; resetTime := t' + RATE_LIMIT_WINDOW |}]> m60).
  split; [|split].
  - cbn [checkRateLimit_calls].
    rewrite (checkRateLimit_fresh key t0 counts Hfresh). fold m1.
    rewrite checkRateLimit_calls_app, Hcalls.
    cbn [checkRateLimit_calls]. rewrite H61'. reflexivity.
  - apply checkRateLimit_fresh. unfold no_live_window. rewrite Hk60.
    cbn [resetTime]. exact Hlater.
  - apply lookup_insert_eq.
Qed.

(** The calls of C5 at one instant, from an empty map. *)
Lemma C5_witness :
  exists counts61 counts62,
    checkRateLimit_calls "weather" (1000 :: replicate 59 1000 ++ [1000]) ∅
      = ((replicate 60 true ++ [false])%list, counts61)
    /\ checkRateLimit "weather" 61001 counts61 = (true, counts62)
    /\ counts62 !! "weather"
       = Some {| count := 1; resetTime := 61001 + RATE_LIMIT_WINDOW |}.
Proof.
  apply (C5_sixty_allowed_then_blocked_then_reset
           "weather" 1000 (replicate 59 1000) 1000 61001 ∅).
  - exact I.
  - reflexivity.
  - apply Forall_forall. intros t Ht.
    apply elem_of_app in Ht as [Ht|Ht].
    + apply elem_of_replicate in Ht as [-> _]. vm_compute. discriminate.
    + apply list_elem_of_singleton in Ht as ->. vm_compute. discriminate.
  - reflexivity.
Defined.


(** C6, as stated, fails: the refused call leaves the stored count at 60;
    it is not one greater than before. *)
Lemma C6_counterexample :
  fst (checkRateLimit "weather" 500 Scenario.full_window) = false
  /\ (count <$> Scenario.full_window !! "weather") = Some 60
  /\ (count <$> snd (checkRateLimit "weather" 500 Scenario.full_window) !! "weather") = Some 60.
Proof. vm_compute. auto. Qed.

(** C6, amended.  When [checkRateLimit] answers [false], the key has an
    unexpired window whose count has reached the ceiling, the call has
    changed nothing (the count is tested before it would be incremented),
    and every later call up to the window's reset time is refused again,
    changing nothing. *)
Theorem C6_blocked_call_changes_nothing
    (key : string) (now : Z) (counts : gmap string RateWindow) :
  fst (checkRateLimit key now counts) = false ->
  snd (checkRateLimit key now counts) = counts
  /\ exists c, counts !! key = Some c
      /\ MAX_REQUESTS_PER_WINDOW <= count c
      /\ now <= resetTime c
      /\ forall later, later <= resetTime c ->
           checkRateLimit key later counts = (false, counts).
Proof.
  intros Hfalse.
  destruct (checkRateLimit_false_inv key now counts Hfalse) as (c & Hk & Hnow & Hc).
  split.
  - now rewrite (checkRateLimit_blocked key now counts c Hk Hnow Hc).
  - exists c. repeat split; try assumption.
    intros later Hlater. now apply (checkRateLimit_blocked key later counts c).
Qed.

Lemma C6_witness :
  snd (checkRateLimit "weather" 500 Scenario.full_window) = Scenario.full_window
  /\ exists c, Scenario.full_window !! "weather" = Some c
      /\ MAX_REQUESTS_PER_WINDOW <= count c
      /\ 500 <= resetTime c
      /\ forall later, later <= resetTime c ->
           checkRateLimit "weather" later Scenario.full_window = (false, Scenario.full_window).
Proof.
  apply (C6_blocked_call_changes_nothing "weather" 500 Scenario.full_window).
  reflexivity.
Defined.

End RateLimitClaims.

(* ===================================================================== *)
(** * Claims about the retry engine *)
(* ===================================================================== *)

Section RetryClaims.
Import RetryHandler.

(** C1, as stated, fails: offline at the start of the first of three
    attempts, the engine does not raise; it sleeps the first backoff
    (1000 ms plus 500 ms of jitter), finds the browser online again and
    returns the operation's result. *)
Lemma C1_counterexample :
  NetworkChecker.isNetworkOnline Scenario.offline_then_online = false
  /\ executeWithRetry DEFAULT_RETRY_CONFIG Scenario.succeed "operation"
       Scenario.offline_then_online
     = (Return 42,
        {| online := true; clock := 1705320001500; randoms := []; connectivity := [];
           responses := []; requestCounts := ∅; storage := Scenario.empty_storage;
           trace := [EvSleep 1500] |}).
Proof. split; vm_compute; reflexivity. Qed.

(** C1, amended.  When the browser is offline at the start of an attempt,
    the attempt does not invoke the operation and ends with the retryable
    network-kind offline error.  The engine raises it at once, leaving the
    world untouched (no sleep), exactly when this is the last attempt or
    the configuration does not retry network errors; otherwise it takes
    the attempt's backoff sleep and goes on with the next attempt.  So a
    run that is offline at every attempt, network errors being retried,
    raises the offline error after one backoff sleep per attempt but the
    last, whatever the operation, and sends nothing.  The gate of
    [handleApiRequest], which runs before the engine, raises its own
    network-kind offline error at once. *)
Theorem C1_offline_attempt
    {T : Type} (config : RetryConfig) (operation : Async T) (operationName : string)
    (remaining : nat) (attempt : Z) (lastError : option JsError) (w : World)
    (partial : PartialRetryConfig) (context serviceKey : string) :
  NetworkChecker.isNetworkOnline w = false ->
  retry_loop config operation operationName (S remaining) attempt lastError w
    = (if negb (existsb (ErrorType_eqb network) (retryableErrors config))
          || (attempt =? maxAttempts config)
       then (Throw (ThrownAppError offline_error), w)
       else
         let '(r, w1) := Env.Math_random w in
         retry_loop config operation operationName remaining (attempt + 1)
           (Some (as_Error (ThrownAppError offline_error)))
           (Env.sleep (JS.Z2float (backoff_delay config attempt) + r * 1000)%float w1))
  /\ type offline_error = network
  /\ retryable offline_error = true
  /\ (stays_offline w ->
      existsb (ErrorType_eqb network) (retryableErrors config) = true ->
      attempt + Z.of_nat remaining = maxAttempts config ->
      exists w',
        (forall any_operation : Async T,
           retry_loop config any_operation operationName (S remaining) attempt lastError w
           = (Throw (ThrownAppError offline_error), w'))
        /\ count_sleeps (trace w') = (count_sleeps (trace w) + remaining)%nat
        /\ count_fetches (trace w') = count_fetches (trace w))
  /\ ErrorHandler.handleApiRequest partial operation context serviceKey w
     = (Throw (ThrownAppError (OfflineHandler.createOfflineError context)), w).
Proof.
  intros Hoff. split; [|split; [reflexivity|split; [reflexivity|split]]].
  - now apply RetryFacts.retry_loop_offline.
  - apply RetryFacts.offline_throughout.
  - unfold ErrorHandler.handleApiRequest. now rewrite Hoff.
Qed.

(** The default engine, offline for good: the first of three attempts
    sleeps; the whole run sleeps twice and raises the offline error. *)
Lemma C1_witness :
  retry_loop DEFAULT_RETRY_CONFIG Scenario.succeed "operation" 3 1 None
      Scenario.offline_for_good
    = (let '(r, w1) := Env.Math_random Scenario.offline_for_good in
       retry_loop DEFAULT_RETRY_CONFIG Scenario.succeed "operation" 2 2
         (Some (as_Error (ThrownAppError offline_error)))
         (Env.sleep (JS.Z2float (backoff_delay DEFAULT_RETRY_CONFIG 1) + r * 1000)%float
            w1))
  /\ (exists w',
        (forall any_operation : Async Z,
           executeWithRetry DEFAULT_RETRY_CONFIG any_operation "operation"
             Scenario.offline_for_good
           = (Throw (ThrownAppError offline_error), w'))
        /\ count_sleeps (trace w') = 2%nat
        /\ count_fetches (trace w') = 0%nat)
  /\ ErrorHandler.handleApiRequest LocationService.errorHandler Scenario.succeed
       "Location search" "location search" Scenario.offline_for_good
     = (Throw (ThrownAppError (OfflineHandler.createOfflineError "Location search")),
        Scenario.offline_for_good).
Proof.
  destruct (C1_offline_attempt DEFAULT_RETRY_CONFIG Scenario.succeed "operation" 2 1 None
              Scenario.offline_for_good LocationService.errorHandler
              "Location search" "location search" eq_refl)
    as (Hstep & _ & _ & Hrun & Hgate).
  split; [exact Hstep|]. split; [|exact Hgate].
  apply Hrun.
  - split; [reflexivity|constructor].
  - reflexivity.
  - reflexivity.
Defined.

End RetryClaims.

(* ===================================================================== *)
(** * Claims about the cache service *)
(* ===================================================================== *)

Section CacheClaims.
Import CacheService DictFacts CacheFacts.

(** C7. A cache getter that finds an entry whose [expiresAt] lies strictly
    before the clock reading returns [null]; the entry is deleted from the
    cache object, and where the storage accepts the write the cache object
    without the entry is what the storage holds when the call returns (a
    storage that refuses the write is left as it was, the refusal being
    caught).  This holds for the location-search cache and for the weather
    cache. *)
Theorem C7_expired_entry_is_deleted (now : Z) (ls : LocalStorage) :
  (forall query entry,
     assoc (normalizeQuery query) (getLocationCache ls) = Some entry ->
     expiresAt entry < now ->
     let answer := getCachedLocationSearch query now ls in
     fst answer = Null
     /\ (writable ls = true ->
         location_item (snd answer)
           = Blob (Dict.delete (normalizeQuery query) (getLocationCache ls))
         /\ assoc (normalizeQuery query) (getLocationCache (snd answer)) = None)
     /\ (writable ls = false -> snd answer = ls))
  /\ (forall lat lon entry,
     assoc (getWeatherCacheKey lat lon) (getWeatherCache ls) = Some entry ->
     expiresAt entry < now ->
     let answer := getCachedWeatherData lat lon now ls in
     fst answer = Null
     /\ (writable ls = true ->
         weather_item (snd answer)
           = Blob (Dict.delete (getWeatherCacheKey lat lon) (getWeatherCache ls))
         /\ assoc (getWeatherCacheKey lat lon) (getWeatherCache (snd answer)) = None)
     /\ (writable ls = false -> snd answer = ls)).
Proof.
  split.
  - intros query entry Hentry Hexp answer. subst answer.
    unfold getCachedLocationSearch, Dict.get. rewrite Hentry.
    apply Z.ltb_lt in Hexp. rewrite Hexp.
    unfold setLocationItem. destruct (writable ls) eqn:Hw; cbn [fst snd].
    + split; [reflexivity|]. split; [|discriminate].
      intros _. split; [reflexivity|].
      unfold getLocationCache at 1. cbn [readable location_item].
      unfold getLocationCache, read_cache in Hentry.
      destruct (readable ls); [|discriminate].
      cbn [read_cache]. apply assoc_delete_eq.
    + split; [reflexivity|]. split; [discriminate|reflexivity].
  - intros lat lon entry Hentry Hexp answer. subst answer.
    unfold getCachedWeatherData, Dict.get. rewrite Hentry.
    apply Z.ltb_lt in Hexp. rewrite Hexp.
    unfold setWeatherItem. destruct (writable ls) eqn:Hw; cbn [fst snd].
    + split; [reflexivity|]. split; [|discriminate].
      intros _. split; [reflexivity|].
      unfold getWeatherCache at 1. cbn [readable weather_item].
      unfold getWeatherCache, read_cache in Hentry.
      destruct (readable ls); [|discriminate].
      cbn [read_cache]. apply assoc_delete_eq.
    + split; [reflexivity|]. split; [discriminate|reflexivity].
Qed.

(** One millisecond after the two entries of [CacheScenario.stale]
    expired. *)
Lemma C7_witness :
  (fst (getCachedLocationSearch "London" 1705320000001 CacheScenario.stale) = Null
   /\ location_item
        (snd (getCachedLocationSearch "London" 1705320000001 CacheScenario.stale))
      = Blob []
   /\ assoc "london"
        (getLocationCache
           (snd (getCachedLocationSearch "London" 1705320000001 CacheScenario.stale)))
      = None)
  /\ (fst (getCachedWeatherData 51.5 (-0.1278) 1705320000001 CacheScenario.stale) = Null
      /\ weather_item
           (snd (getCachedWeatherData 51.5 (-0.1278) 1705320000001 CacheScenario.stale))
         = Blob (Dict.delete (getWeatherCacheKey 51.5 (-0.1278))
                   (getWeatherCache CacheScenario.stale))
      /\ assoc (getWeatherCacheKey 51.5 (-0.1278))
           (getWeatherCache
              (snd (getCachedWeatherData 51.5 (-0.1278) 1705320000001
                      CacheScenario.stale)))
         = None).
Proof.
  destruct (C7_expired_entry_is_deleted 1705320000001 CacheScenario.stale) as [Hl Hw].
  split.
  - destruct (Hl "London" _ eq_refl eq_refl) as [H1 [H2 _]].
    destruct (H2 eq_refl) as [H3 H4]. exact (conj H1 (conj H3 H4)).
  - assert (Hentry : assoc (getWeatherCacheKey 51.5 (-0.1278))
                       (getWeatherCache CacheScenario.stale)
                     = Some {| data := Scenario.no_weather; timestamp := 1705319400000;
                               expiresAt := 1705320000000 |})
      by (vm_compute; reflexivity).
    destruct (Hw 51.5%float (-0.1278)%float _ Hentry eq_refl) as [H1 [H2 _]].
    destruct (H2 eq_refl) as [H3 H4]. exact (conj H1 (conj H3 H4)).
Defined.

(** C8. Where the storage accepts the write, the location-search cache it
    holds after [cacheLocationSearch] has at most 50 entries.  When the
    cache held 50 entries and the search adds one under a new key, all 51
    creation timestamps being different, exactly one entry is evicted, the
    one with the oldest creation timestamp, and exactly 50 remain. *)
Theorem C8_location_cache_bound
    (query : string) (locations : list Location) (now : Z) (ls : LocalStorage) :
  writable ls = true ->
  let cache := getLocationCache ls in
  let key := normalizeQuery query in
  let entry := {| data := locations; timestamp := now;
                  expiresAt := now + LOCATION_CACHE_DURATION |} in
  let cache' := getLocationCache (cacheLocationSearch query locations now ls) in
  (length cache' <= 50)%nat
  /\ (length cache = 50%nat ->
      NoDup (Dict.keys cache) ->
      assoc key cache = None ->
      key <> "__proto__" ->
      NoDup (map (fun kv => timestamp (snd kv)) ((key, entry) :: cache)) ->
      exists oldest,
        Permutation ((key, entry) :: cache) (oldest :: cache')
        /\ (forall kv, In kv cache' -> timestamp (snd oldest) < timestamp (snd kv))
        /\ length cache' = 50%nat).
Proof.
  intros Hw cache key entry cache'.
  assert (Hcache' : cache' = if readable ls
                             then limitCacheSize (Dict.set key entry cache) 50
                             else []).
  { subst cache'. unfold cacheLocationSearch, setLocationItem. rewrite Hw.
    unfold getLocationCache at 1. cbn [readable location_item].
    unfold read_cache. reflexivity. }
  split.
  - rewrite Hcache'. destruct (readable ls); [apply limitCacheSize_length|simpl; lia].
  - intros Hlen Hnd Hnew Hproto Hts.
    assert (Hr : readable ls = true).
    { subst cache. unfold getLocationCache, read_cache in Hlen.
      destruct (readable ls); [reflexivity|discriminate]. }
    rewrite Hr in Hcache'.
    set (c1 := Dict.set key entry cache) in *.
    assert (Hc1 : c1 = Dict.insert_new key entry cache).
    { subst c1. unfold Dict.set. rewrite Hnew.
      apply String.eqb_neq in Hproto. now rewrite Hproto. }
    assert (Hp1 : Permutation ((key, entry) :: cache) c1).
    { rewrite Hc1. apply insert_new_Permutation. }
    assert (Hlen1 : length c1 = 51%nat).
    { rewrite <- (Permutation_length Hp1). simpl. now rewrite Hlen. }
    assert (Hnd1 : NoDup (Dict.keys c1)).
    { unfold Dict.keys. rewrite <- (Permutation_map fst Hp1). simpl.
      apply NoDup_cons. split; [|exact Hnd].
      rewrite list_elem_of_In. now apply assoc_None_keys. }
    assert (Hts1 : NoDup (map (fun kv => timestamp (snd kv)) c1)).
    { now rewrite <- (Permutation_map _ Hp1). }
    destruct (sort_by_timestamp c1) as [|h t] eqn:Hsort.
    { pose proof (Permutation_length (sort_by_timestamp_Permutation c1)) as Hl.
      rewrite Hsort, Hlen1 in Hl. discriminate. }
    destruct (sort_head_oldest c1 h t Hsort) as [Hin Hmin].
    assert (Hlim : cache' = Dict.delete (fst h) c1).
    { rewrite Hcache'. unfold limitCacheSize. rewrite Hlen1, Hsort. reflexivity. }
    assert (Hp2 : Permutation c1 (h :: cache')).
    { rewrite Hlim. destruct h as [hk hv]. now apply delete_Permutation. }
    exists h. split; [|split].
    + now rewrite Hp1.
    + intros kv Hkv.
      assert (Hkv1 : In kv c1).
      { apply (Permutation_in _ (Permutation_sym Hp2)). now right. }
      assert (Hne : kv <> h).
      { intros ->. rewrite Hlim in Hkv. unfold Dict.delete in Hkv.
        apply filter_In in Hkv as [_ Hk]. now rewrite String.eqb_refl in Hk. }
      pose proof (Hmin kv Hkv1) as Hle.
      assert (timestamp (snd h) <> timestamp (snd kv)).
      { intros Heq. apply Hne. symmetry.
        exact (NoDup_map_injective _ c1 h kv Hts1 Hin Hkv1 Heq). }
      lia.
    + pose proof (Permutation_length Hp2) as Hl. simpl in Hl. lia.
Qed.

Lemma C8_witness :
  let cache := getLocationCache CacheScenario.full in
  let entry := {| data := [Scenario.london]; timestamp := 1705370000500;
                  expiresAt := 1705370000500 + LOCATION_CACHE_DURATION |} in
  let cache' :=
    getLocationCache
      (cacheLocationSearch "London" [Scenario.london] 1705370000500
         CacheScenario.full) in
  (length cache' <= 50)%nat
  /\ exists oldest,
       Permutation (("london", entry) :: cache) (oldest :: cache')
       /\ (forall kv, In kv cache' -> timestamp (snd oldest) < timestamp (snd kv))
       /\ length cache' = 50%nat.
Proof.
  destruct (C8_location_cache_bound "London" [Scenario.london] 1705370000500
              CacheScenario.full eq_refl) as [Hle Hevict].
  split; [exact Hle|].
  apply Hevict.
  - reflexivity.
  - apply (bool_decide_unpack _). vm_compute. exact I.
  - reflexivity.
  - discriminate.
  - apply (bool_decide_unpack _). vm_compute. exact I.
Defined.

(** A search cached under one spelling is found under every spelling with
    the same normalized form, as long as the entry was not evicted at once
    and has not expired: the lookup returns the locations written, these
    being locations that their JSON text gives back unchanged. *)
Lemma cached_search_is_found (query query' : string) (locations : list Location)
    (now later : Z) (ls : LocalStorage) :
  Forall JSON.location_survives locations ->
  normalizeQuery query = normalizeQuery query' ->
  normalizeQuery query <> "__proto__" ->
  readable ls = true ->
  writable ls = true ->
  (length (getLocationCache ls) < 50)%nat ->
  later <= now + LOCATION_CACHE_DURATION ->
  fst (getCachedLocationSearch query' later (cacheLocationSearch query locations now ls))
  = Data locations.
Proof.
  intros _ Hkey Hproto Hr Hw Hlen Hlater.
  unfold cacheLocationSearch, setLocationItem. rewrite Hw.
  unfold getCachedLocationSearch.
  unfold getLocationCache at 1. cbn [readable location_item]. rewrite Hr.
  cbn [read_cache]. rewrite <- Hkey.
  set (entry := {| data := locations; timestamp := now;
                   expiresAt := now + LOCATION_CACHE_DURATION |}).
  unfold limitCacheSize.
  pose proof (length_set_le (normalizeQuery query) entry (getLocationCache ls)) as Hset.
  replace (length (Dict.set (normalizeQuery query) entry (getLocationCache ls))
             <=? MAX_LOCATION_CACHE_SIZE)%nat with true
    by (symmetry; apply Nat.leb_le; unfold MAX_LOCATION_CACHE_SIZE; lia).
  unfold Dict.get. rewrite assoc_set_eq by exact Hproto.
  cbn [expiresAt entry].
  replace (now + LOCATION_CACHE_DURATION <? later) with false
    by (symmetry; apply Z.ltb_ge; lia).
  reflexivity.
Qed.

End CacheClaims.

(* ===================================================================== *)
(** * Claims about the location service *)
(* ===================================================================== *)

Section LocationClaims.
Import LocationService.







(** C4: what the code does when [response.json()] rejects.  The body of a
    200 response is not JSON; [searchLocations], [getCurrentWeather],
    [getForecast] and [getCompleteWeatherData] all let the SyntaxError
    through to the caller as it is: their [catch] blocks re-throw, and the
    decoding happens outside the retry engine, which alone wraps foreign
    errors. *)
Theorem C4_json_failure_reaches_the_caller :
  fst (searchLocations default_config "London" (Scenario.answering [Scenario.not_json]))
    = Throw (ThrownError Scenario.syntax_error)
  /\ fst (WeatherService.getCurrentWeather default_config Scenario.Date_getTime
            (JNum 51.5) (JNum (-0.125)) (Scenario.answering [Scenario.not_json]))
     = Throw (ThrownError Scenario.syntax_error)
  /\ fst (WeatherService.getForecast default_config Scenario.Date_getTime
            (JNum 51.5) (JNum (-0.125)) (Scenario.answering [Scenario.not_json]))
     = Throw (ThrownError Scenario.syntax_error)
  /\ fst (WeatherService.getCompleteWeatherData default_config Scenario.Date_getTime
            (JNum 51.5) (JNum (-0.125)) (Scenario.answering [Scenario.not_json]))
     = Throw (ThrownError Scenario.syntax_error).
Proof. repeat split; vm_compute; reflexivity. Qed.

End LocationClaims.

(* ===================================================================== *)
(** * Claims about the weather service *)
(* ===================================================================== *)

Module WeatherFacts.

Lemma try_catch_rethrow {A} (m : Async A) (w : World) :
  try_catch m (fun error => throw error) w = m w.
Proof. unfold try_catch, throw. destruct (m w) as [[a|t] w']; reflexivity. Qed.

Lemma mentions_app (c : ascii) (a b : string) :
  JS.mentions c (a ++ b) = JS.mentions c a || JS.mentions c b.
Proof.
  induction a as [|c' a IH]; simpl; [reflexivity|].
  rewrite IH. now rewrite orb_assoc.
Qed.

(** A weather cache key holds a comma: it is never [__proto__]. *)
Lemma weather_key_not_proto (lat lon : float) :
  CacheService.getWeatherCacheKey lat lon <> "__proto__".
Proof.
  unfold CacheService.getWeatherCacheKey. intros H.
  apply (f_equal (JS.mentions ","%char)) in H.
  rewrite !mentions_app in H. simpl in H. rewrite orb_true_r in H. discriminate.
Qed.

(** Where the storage accepts the write, [cacheWeatherData] leaves the
    pair under the coordinate key. *)
Lemma cacheWeatherData_stored (config : Config) (lat lon : float)
    (cur : CurrentWeatherData) (fc : list ForecastData) (now : Z)
    (ls : CacheService.LocalStorage) :
  CacheService.writable ls = true ->
  exists cache,
    CacheService.weather_item (CacheService.cacheWeatherData config lat lon cur fc now ls)
      = CacheService.Blob cache
    /\ assoc (CacheService.getWeatherCacheKey lat lon) cache
       = Some {| CacheService.data := {| current := cur; forecast := fc |};
                 CacheService.timestamp := now;
                 CacheService.expiresAt :=
                   now + CacheService.WEATHER_CACHE_DURATION config |}.
Proof.
  intros Hw. unfold CacheService.cacheWeatherData, CacheService.setWeatherItem.
  rewrite Hw. eexists. split; [reflexivity|].
  apply DictFacts.assoc_set_eq. apply weather_key_not_proto.
Qed.

End WeatherFacts.

Section WeatherClaims.
Import WeatherService WeatherFacts.

(** C2, as stated, fails: a [getCurrentWeather] call that misses the cache
    and succeeds on a response without [daily] (what the current-weather
    URL asks for) writes nothing to the weather cache; neither does a
    successful [getForecast] on a response without [current]. *)
Lemma C2_counterexample :
  (exists cw w',
     getCurrentWeather default_config Scenario.Date_getTime (JNum 51.5) (JNum (-0.125))
       (Scenario.answering [Scenario.ok_json Scenario.current_only]) = (Return cw, w')
     /\ temperature cw = JNum 15.5
     /\ CacheService.weather_item (storage w') = CacheService.NoItem)
  /\ (exists fc w',
     getForecast default_config Scenario.Date_getTime (JNum 51.5) (JNum (-0.125))
       (Scenario.answering [Scenario.ok_json Scenario.daily_only]) = (Return fc, w')
     /\ length fc = 1%nat
     /\ CacheService.weather_item (storage w') = CacheService.NoItem).
Proof.
  split; eexists; eexists; (split; [vm_compute; reflexivity|]); split; reflexivity.
Qed.

Lemma cached_together_intro (config : Config) (lat lon : float)
    (cur : CurrentWeatherData) (fc : list ForecastData) (w : World) :
  cached_together config lat lon cur fc w
    (set_storage
       (CacheService.cacheWeatherData config lat lon cur fc (clock w) (storage w)) w).
Proof.
  split; [reflexivity|]. intros Hw. cbn [storage set_storage].
  now apply cacheWeatherData_stored.
Qed.

(** C2, amended.  On a cache miss, a successful accessor call caches
    current weather and forecast together, under the key of the
    coordinates rounded to 2 decimals, exactly when the one response
    carries both a truthy [current] and a truthy [daily]:
    [getCompleteWeatherData] always does; [getCurrentWeather] on a
    response without [daily] and [getForecast] on a response without
    [current] return their data and leave the world as the fetch left
    it, the cache included. *)
Theorem C2_cached_together_or_not_at_all
    (config : Config) (Date_getTime : JsValue -> option Z)
    (lat lon : float) (w : World) :
  fst (CacheService.getCachedWeatherData lat lon (clock w) (storage w))
    = CacheService.Null ->
  let w0 :=
    set_storage (snd (CacheService.getCachedWeatherData lat lon (clock w) (storage w))) w in
  (forall v w',
     getCurrentWeather config Date_getTime (JNum lat) (JNum lon) w = (Return v, w') ->
     exists response w1 data cur,
       ErrorHandler.handleFetch errorHandler (buildCurrentWeatherUrl config lat lon)
         "Weather" w0 = (Return response, w1)
       /\ Http.json response = Return data
       /\ get_prop data "current" = Return cur /\ truthy cur = true
       /\ v = transformCurrentWeatherData Date_getTime cur (clock w1)
       /\ if truthy (prop data "daily")
          then exists fc,
                 transformForecastData Date_getTime (prop data "daily") (clock w1)
                   = Return fc
                 /\ cached_together config lat lon v fc w1 w'
          else w' = w1)
  /\ (forall fc w',
     getForecast config Date_getTime (JNum lat) (JNum lon) w = (Return fc, w') ->
     exists response w1 data daily,
       ErrorHandler.handleFetch errorHandler (buildForecastUrl config lat lon)
         "Weather forecast" w0 = (Return response, w1)
       /\ Http.json response = Return data
       /\ get_prop data "daily" = Return daily /\ truthy daily = true
       /\ transformForecastData Date_getTime daily (clock w1) = Return fc
       /\ if truthy (prop data "current")
          then cached_together config lat lon
                 (transformCurrentWeatherData Date_getTime (prop data "current") (clock w1))
                 fc w1 w'
          else w' = w1)
  /\ (forall d w',
     getCompleteWeatherData config Date_getTime (JNum lat) (JNum lon) w
       = (Return (Some d), w') ->
     exists response w1 data,
       ErrorHandler.handleFetch errorHandler (buildCompleteWeatherUrl config lat lon)
         "Complete weather" w0 = (Return response, w1)
       /\ Http.json response = Return data
       /\ truthy (prop data "current") = true /\ truthy (prop data "daily") = true
       /\ current d
          = transformCurrentWeatherData Date_getTime (prop data "current") (clock w1)
       /\ transformForecastData Date_getTime (prop data "daily") (clock w1)
          = Return (forecast d)
       /\ cached_together config lat lon (current d) (forecast d) w1 w').
Proof.
  intros Hmiss w0.
  destruct (CacheService.getCachedWeatherData lat lon (clock w) (storage w))
    as [c ls] eqn:Hlookup.
  cbn [fst snd] in Hmiss, w0. subst c.
  split; [|split].
  - intros v w' H.
    unfold getCurrentWeather, bind, lift in H.
    cbn [validateCoordinates] in H.
    destruct ((lat <? -90)%float || (90 <? lat)%float); [discriminate|].
    destruct ((lon <? -180)%float || (180 <? lon)%float); [discriminate|].
    cbn [LocationService.as_number] in H.
    unfold cache_lookup, Env.Date_now in H. rewrite Hlookup in H. fold w0 in H.
    rewrite try_catch_rethrow in H.
    unfold fetch_current, bind, lift in H.
    destruct (ErrorHandler.handleFetch errorHandler (buildCurrentWeatherUrl config lat lon)
                "Weather" w0) as [[response|t] w1] eqn:Hfetch; [|discriminate].
    destruct (Http.json response) as [data|t] eqn:Hjson; [|discriminate].
    destruct (get_prop data "current") as [cur|t] eqn:Hcur; [|discriminate].
    destruct (truthy cur) eqn:Htruthy; cbn [negb] in H; [|discriminate].
    exists response, w1, data, cur.
    repeat (split; [first [assumption|reflexivity]|]).
    unfold Env.Date_now in H.
    destruct (truthy (prop data "daily")).
    + destruct (transformForecastData Date_getTime (prop data "daily") (clock w1))
        as [fc|t] eqn:Hfc; [|discriminate].
      unfold cache_both, ret, Env.Date_now in H. injection H as <- <-.
      split; [reflexivity|]. exists fc. split; [reflexivity|].
      apply cached_together_intro.
    + unfold ret in H. injection H as <- <-. split; reflexivity.
  - intros fc w' H.
    unfold getForecast, bind, lift in H.
    cbn [validateCoordinates] in H.
    destruct ((lat <? -90)%float || (90 <? lat)%float); [discriminate|].
    destruct ((lon <? -180)%float || (180 <? lon)%float); [discriminate|].
    cbn [LocationService.as_number] in H.
    unfold cache_lookup, Env.Date_now in H. rewrite Hlookup in H. fold w0 in H.
    rewrite try_catch_rethrow in H.
    unfold fetch_forecast, bind, lift in H.
    destruct (ErrorHandler.handleFetch errorHandler (buildForecastUrl config lat lon)
                "Weather forecast" w0) as [[response|t] w1] eqn:Hfetch; [|discriminate].
    destruct (Http.json response) as [data|t] eqn:Hjson; [|discriminate].
    destruct (get_prop data "daily") as [daily|t] eqn:Hdaily; [|discriminate].
    destruct (truthy daily) eqn:Htruthy; cbn [negb] in H; [|discriminate].
    exists response, w1, data, daily.
    repeat (split; [first [assumption|reflexivity]|]).
    unfold Env.Date_now in H.
    destruct (transformForecastData Date_getTime daily (clock w1))
      as [fc'|t] eqn:Hfc; [|discriminate].
    destruct (truthy (prop data "current")).
    + unfold cache_both, ret, Env.Date_now in H. injection H as <- <-.
      split; [reflexivity|]. apply cached_together_intro.
    + unfold ret in H. injection H as <- <-. split; reflexivity.
  - intros d w' H.
    unfold getCompleteWeatherData, bind, lift in H.
    cbn [validateCoordinates] in H.
    destruct ((lat <? -90)%float || (90 <? lat)%float); [discriminate|].
    destruct ((lon <? -180)%float || (180 <? lon)%float); [discriminate|].
    cbn [LocationService.as_number] in H.
    unfold cache_lookup, Env.Date_now in H. rewrite Hlookup in H. fold w0 in H.
    rewrite try_catch_rethrow in H.
    unfold fetch_complete, bind, lift in H.
    destruct (ErrorHandler.handleFetch errorHandler (buildCompleteWeatherUrl config lat lon)
                "Complete weather" w0) as [[response|t] w1] eqn:Hfetch; [|discriminate].
    destruct (Http.json response) as [data|t] eqn:Hjson; [|discriminate].
    destruct (get_prop data "current") as [cur|t] eqn:Hcur; [|discriminate].
    assert (Hprop : cur = prop data "current").
    { destruct data; simpl in Hcur; try discriminate; now injection Hcur as <-. }
    subst cur.
    destruct (truthy (prop data "current")) eqn:Hc; cbn [negb orb] in H; [|discriminate].
    destruct (truthy (prop data "daily")) eqn:Hd; cbn [negb] in H; [|discriminate].
    unfold Env.Date_now in H.
    destruct (transformForecastData Date_getTime (prop data "daily") (clock w1))
      as [fc|t] eqn:Hfc; [|discriminate].
    unfold cache_both, ret, Env.Date_now in H. injection H as <- <-.
    exists response, w1, data. cbn [current forecast].
    repeat (split; [first [assumption|reflexivity]|]).
    apply cached_together_intro.
Qed.


(** A [getCurrentWeather] call answered with both members. *)
Lemma C2_witness :
  exists response w1 data cur,
    ErrorHandler.handleFetch errorHandler
      (buildCurrentWeatherUrl default_config 51.5 (-0.125)) "Weather"
      (set_storage
         (snd (CacheService.getCachedWeatherData 51.5 (-0.125)
                 (clock (Scenario.answering [Scenario.ok_json Scenario.current_and_daily]))
                 (storage (Scenario.answering [Scenario.ok_json Scenario.current_and_daily]))))
         (Scenario.answering [Scenario.ok_json Scenario.current_and_daily]))
      = (Return response, w1)
    /\ Http.json response = Return data
    /\ get_prop data "current" = Return cur /\ truthy cur = true
    /\ fst (getCurrentWeather default_config Scenario.Date_getTime (JNum 51.5)
              (JNum (-0.125))
              (Scenario.answering [Scenario.ok_json Scenario.current_and_daily]))
       = Return (transformCurrentWeatherData Scenario.Date_getTime cur (clock w1))
    /\ if truthy (prop data "daily")
       then exists fc,
              transformForecastData Scenario.Date_getTime (prop data "daily") (clock w1)
                = Return fc
              /\ cached_together default_config 51.5 (-0.125)
                   (transformCurrentWeatherData Scenario.Date_getTime cur (clock w1)) fc w1
                   (snd (getCurrentWeather default_config Scenario.Date_getTime (JNum 51.5)
                           (JNum (-0.125))
                           (Scenario.answering
                              [Scenario.ok_json Scenario.current_and_daily])))
       else snd (getCurrentWeather default_config Scenario.Date_getTime (JNum 51.5)
                   (JNum (-0.125))
                   (Scenario.answering [Scenario.ok_json Scenario.current_and_daily]))
            = w1.
Proof.
  destruct (C2_cached_together_or_not_at_all default_config Scenario.Date_getTime
              51.5 (-0.125)
              (Scenario.answering [Scenario.ok_json Scenario.current_and_daily])
              eq_refl) as [Hcurrent _].
  destruct (getCurrentWeather default_config Scenario.Date_getTime (JNum 51.5)
              (JNum (-0.125))
              (Scenario.answering [Scenario.ok_json Scenario.current_and_daily]))
    as [[v|t] w'] eqn:Hcall.
  - destruct (Hcurrent v w' eq_refl)
      as (response & w1 & data & cur & H1 & H2 & H3 & H4 & H5 & H6).
    exists response, w1, data, cur. cbn [fst snd]. rewrite <- H5.
    exact (conj H1 (conj H2 (conj H3 (conj H4 (conj eq_refl H6))))).
  - vm_compute in Hcall. discriminate.
Defined.

(** C10, as stated, fails: with [lat = NaN] and a longitude of 200 the
    accessors raise the user-kind longitude error; and with one coordinate
    NaN and the other a number the cache key is not ["NaN,NaN"]. *)
Lemma C10_counterexample :
  validateCoordinates (JNum PrimFloat.nan) (JNum 200)
    = Throw (coordinate_error "Longitude must be between -180 and 180 degrees")
  /\ fst (getCurrentWeather default_config Scenario.Date_getTime
            (JNum PrimFloat.nan) (JNum 200) Scenario.quiet)
     = Throw (ThrownAppError
                (createAppError user "Longitude must be between -180 and 180 degrees"
                   false None))
  /\ validateCoordinates (JNum PrimFloat.nan) (JNum 5) = Return tt
  /\ CacheService.getWeatherCacheKey PrimFloat.nan 5 = "NaN,5".
Proof. repeat split; vm_compute; reflexivity. Qed.

Lemma set_storage_same (w : World) : set_storage (storage w) w = w.
Proof. now destruct w. Qed.

(** On a cache miss the NaN coordinates go out in the request. *)
Example nan_coordinates_reach_the_network :
  trace (snd (getCurrentWeather default_config Scenario.Date_getTime
                (JNum PrimFloat.nan) (JNum PrimFloat.nan)
                (Scenario.answering [Scenario.ok_json Scenario.current_and_daily])))
  = [ EvFetch ("https://api.open-meteo.com/v1/forecast?latitude=NaN&longitude=NaN"
               ++ "&current=temperature_2m%2Cweather_code%2Cwind_speed_10m"
               ++ "%2Cwind_direction_10m%2Crelative_humidity_2m&timezone=auto") ].
Proof. vm_compute. reflexivity. Qed.

End WeatherClaims.

(* ===================================================================== *)
(** * Further properties of the error-handling layer *)
(* ===================================================================== *)

Module EngineFacts.
Import RetryHandler.

Lemma sleep_trace (ms : float) (w : World) :
  count_sleeps (trace (Env.sleep ms w)) = S (count_sleeps (trace w))
  /\ count_fetches (trace (Env.sleep ms w)) = count_fetches (trace w)
  /\ storage (Env.sleep ms w) = storage w
  /\ requestCounts (Env.sleep ms w) = requestCounts w.
Proof.
  unfold Env.sleep. cbn [connectivity set_clock log].
  destruct (connectivity w) as [|[b|] rest];
    cbn [trace storage requestCounts set_online set_connectivity set_clock log];
    rewrite RetryFacts.count_sleeps_app, RetryFacts.count_fetches_app; cbn;
    repeat split; lia.
Qed.

Lemma Math_random_rest (w : World) :
  trace (snd (Env.Math_random w)) = trace w
  /\ storage (snd (Env.Math_random w)) = storage w
  /\ requestCounts (snd (Env.Math_random w)) = requestCounts w.
Proof. unfold Env.Math_random. destruct (randoms w); cbn; auto. Qed.

Lemma sleep_appends (ms : float) (w : World) :
  trace (Env.sleep ms w) = (trace w ++ [EvSleep ms])%list
  /\ storage (Env.sleep ms w) = storage w.
Proof.
  unfold Env.sleep. cbn [connectivity set_clock log].
  destruct (connectivity w) as [|[b|] rest]; cbn; auto.
Qed.

Section Loop.
Context {T : Type} (config : RetryConfig) (operation : Async T) (operationName : string).

(** Whatever the loop throws is an AppError; whatever it returns was
    returned by the operation, invoked online. *)
Lemma retry_loop_outcome (remaining : nat) : forall attempt lastError w,
  match retry_loop config operation operationName remaining attempt lastError w with
  | (Throw t, _) => exists e, t = ThrownAppError e
  | (Return v, w') =>
      exists w0, NetworkChecker.isNetworkOnline w0 = true /\ operation w0 = (Return v, w')
  end.
Proof.
  induction remaining as [|remaining IH]; intros attempt lastError w.
  - cbn. eauto.
  - cbn [retry_loop].
    destruct (attempt_once operation w) as [[v|error] w1] eqn:Hattempt.
    + unfold attempt_once in Hattempt.
      destruct (NetworkChecker.isNetworkOnline w) eqn:Hon; cbn [negb] in Hattempt;
        [|discriminate].
      exists w. auto.
    + destruct error as [e|e|s]; cbn [has_type_property].
      * destruct (negb (retryable e)
                  || negb (existsb (ErrorType_eqb (type e)) (retryableErrors config))
                  || ErrorType_eqb (type e) user); [eauto|].
        destruct (attempt =? maxAttempts config); [eauto|].
        destruct (Env.Math_random w1) as [r w2]. apply IH.
      * destruct (attempt =? maxAttempts config); [eauto|].
        destruct (Env.Math_random w1) as [r w2]. apply IH.
      * destruct (attempt =? maxAttempts config); [eauto|].
        destruct (Env.Math_random w1) as [r w2]. apply IH.
Qed.

(** An AppError that the engine does not retry ends the loop where the
    operation threw it. *)
Lemma retry_loop_not_retried (remaining : nat) attempt lastError w e w1 :
  NetworkChecker.isNetworkOnline w = true ->
  operation w = (Throw (ThrownAppError e), w1) ->
  not_retried config e = true ->
  retry_loop config operation operationName (S remaining) attempt lastError w
  = (Throw (ThrownAppError e), w1).
Proof.
  intros Hon Hop Hnot. cbn [retry_loop]. unfold attempt_once.
  rewrite Hon. cbn [negb]. rewrite Hop.
  unfold not_retried in Hnot. now rewrite Hnot.
Qed.

(** An operation that sends one request per invocation, does not sleep
    and leaves cache and rate limiter alone. *)
Definition one_request_each : Prop :=
  forall w,
    count_fetches (trace (snd (operation w))) = S (count_fetches (trace w))
    /\ count_sleeps (trace (snd (operation w))) = count_sleeps (trace w)
    /\ storage (snd (operation w)) = storage w
    /\ requestCounts (snd (operation w)) = requestCounts w.

Lemma retry_loop_budget (Hop : one_request_each) (remaining : nat) :
  forall attempt lastError w,
  attempt + Z.of_nat remaining = maxAttempts config + 1 ->
  let w' := snd (retry_loop config operation operationName remaining attempt lastError w) in
  (count_fetches (trace w') <= count_fetches (trace w) + remaining)%nat
  /\ (count_sleeps (trace w') <= count_sleeps (trace w) + Nat.pred remaining)%nat.
Proof.
  induction remaining as [|remaining IH]; intros attempt lastError w Halign; cbn zeta.
  - cbn. lia.
  - cbn [retry_loop].
    assert (Hattempt : let w1 := snd (attempt_once operation w) in
              (count_fetches (trace w1) <= S (count_fetches (trace w)))%nat
              /\ count_sleeps (trace w1) = count_sleeps (trace w)).
    { unfold attempt_once. destruct (negb (NetworkChecker.isNetworkOnline w)); cbn.
      - lia.
      - destruct (Hop w) as (H1 & H2 & _). lia. }
    destruct (attempt_once operation w) as [[v|error] w1]; cbn [snd] in *.
    + lia.
    + assert (Hgo : forall last',
                let w' := snd (let '(r, w2) := Env.Math_random w1 in
                               retry_loop config operation operationName remaining
                                 (attempt + 1) last'
                                 (Env.sleep (JS.Z2float (backoff_delay config attempt)
                                             + r * 1000)%float w2)) in
                attempt <> maxAttempts config ->
                (count_fetches (trace w') <= count_fetches (trace w) + S remaining)%nat
                /\ (count_sleeps (trace w') <= count_sleeps (trace w) + remaining)%nat).
      { intros last' w' Hne. subst w'.
        pose proof (Math_random_rest w1) as (Ht & _).
        destruct (Env.Math_random w1) as [r w2]. cbn [snd] in Ht.
        set (ms := (JS.Z2float (backoff_delay config attempt) + r * 1000)%float).
        destruct (sleep_trace ms w2) as (Hs & Hf & _).
        destruct remaining as [|remaining'].
        { exfalso. apply Hne. cbn in Halign. lia. }
        destruct (IH (attempt + 1) last' (Env.sleep ms w2)) as [Hf' Hs']; [lia|].
        cbn [Nat.pred] in Hs'. rewrite Hf, Hs, Ht in *. lia. }
      destruct error as [e|e|s]; cbn [has_type_property].
      * destruct (negb (retryable e)
                  || negb (existsb (ErrorType_eqb (type e)) (retryableErrors config))
                  || ErrorType_eqb (type e) user); cbn [snd]; [lia|].
        destruct (attempt =? maxAttempts config) eqn:E; cbn [snd]; [lia|].
        apply Z.eqb_neq in E. now apply Hgo.
      * destruct (attempt =? maxAttempts config) eqn:E; cbn [snd]; [lia|].
        apply Z.eqb_neq in E. now apply Hgo.
      * destruct (attempt =? maxAttempts config) eqn:E; cbn [snd]; [lia|].
        apply Z.eqb_neq in E. now apply Hgo.
Qed.

Lemma retry_loop_frame (Hop : one_request_each) (remaining : nat) :
  forall attempt lastError w,
  let w' := snd (retry_loop config operation operationName remaining attempt lastError w) in
  storage w' = storage w /\ requestCounts w' = requestCounts w.
Proof.
  induction remaining as [|remaining IH]; intros attempt lastError w; cbn zeta.
  - cbn. auto.
  - cbn [retry_loop].
    assert (Hattempt : let w1 := snd (attempt_once operation w) in
              storage w1 = storage w /\ requestCounts w1 = requestCounts w).
    { unfold attempt_once. destruct (negb (NetworkChecker.isNetworkOnline w)); cbn.
      - auto.
      - destruct (Hop w) as (_ & _ & H1 & H2). auto. }
    destruct (attempt_once operation w) as [[v|error] w1]; cbn [snd] in *.
    + exact Hattempt.
    + assert (Hgo : forall last',
                let w' := snd (let '(r, w2) := Env.Math_random w1 in
                               retry_loop config operation operationName remaining
                                 (attempt + 1) last'
                                 (Env.sleep (JS.Z2float (backoff_delay config attempt)
                                             + r * 1000)%float w2)) in
                storage w' = storage w /\ requestCounts w' = requestCounts w).
      { intros last' w'. subst w'.
        pose proof (Math_random_rest w1) as (_ & Hst & Hrc).
        destruct (Env.Math_random w1) as [r w2]. cbn [snd] in Hst, Hrc.
        set (ms := (JS.Z2float (backoff_delay config attempt) + r * 1000)%float).
        destruct (sleep_trace ms w2) as (_ & _ & Hst' & Hrc').
        destruct (IH (attempt + 1) last' (Env.sleep ms w2)) as [H1 H2].
        destruct Hattempt as [H3 H4]. split; congruence. }
      destruct error as [e|e|s]; cbn [has_type_property].
      * destruct (negb (retryable e)
                  || negb (existsb (ErrorType_eqb (type e)) (retryableErrors config))
                  || ErrorType_eqb (type e) user); cbn [snd]; [exact Hattempt|].
        destruct (attempt =? maxAttempts config); cbn [snd]; [exact Hattempt|].
        apply Hgo.
      * destruct (attempt =? maxAttempts config); cbn [snd]; [exact Hattempt|].
        apply Hgo.
      * destruct (attempt =? maxAttempts config); cbn [snd]; [exact Hattempt|].
        apply Hgo.
Qed.

(** The trace only grows: a run of the loop appends to it. *)
Definition appends_to_the_trace : Prop :=
  forall w, exists evs, trace (snd (operation w)) = (trace w ++ evs)%list.

Lemma retry_loop_extends (Hop : appends_to_the_trace) (remaining : nat) :
  forall attempt lastError w,
  exists evs,
    trace (snd (retry_loop config operation operationName remaining attempt lastError w))
    = (trace w ++ evs)%list.
Proof.
  induction remaining as [|remaining IH]; intros attempt lastError w.
  - exists []. cbn. now rewrite app_nil_r.
  - cbn [retry_loop].
    assert (Hattempt : exists evs, trace (snd (attempt_once operation w))
                                   = (trace w ++ evs)%list).
    { unfold attempt_once. destruct (negb (NetworkChecker.isNetworkOnline w)); cbn [snd].
      - exists []. now rewrite app_nil_r.
      - apply Hop. }
    destruct (attempt_once operation w) as [[v|error] w1]; cbn [snd] in *.
    + exact Hattempt.
    + destruct Hattempt as [evs1 Hevs1].
      assert (Hgo : forall last',
                exists evs,
                  trace (snd (let '(r, w2) := Env.Math_random w1 in
                              retry_loop config operation operationName remaining
                                (attempt + 1) last'
                                (Env.sleep (JS.Z2float (backoff_delay config attempt)
                                            + r * 1000)%float w2)))
                  = (trace w ++ evs)%list).
      { intros last'.
        pose proof (Math_random_rest w1) as (Ht & _).
        destruct (Env.Math_random w1) as [r w2]. cbn [snd] in Ht.
        set (ms := (JS.Z2float (backoff_delay config attempt) + r * 1000)%float).
        destruct (IH (attempt + 1) last' (Env.sleep ms w2)) as [evs Hevs].
        destruct (sleep_appends ms w2) as [Hs _].
        exists (evs1 ++ EvSleep ms :: evs)%list.
        rewrite Hevs, Hs, Ht, Hevs1. rewrite <- !app_assoc. reflexivity. }
      destruct error as [e|e|s]; cbn [has_type_property].
      * destruct (negb (retryable e)
                  || negb (existsb (ErrorType_eqb (type e)) (retryableErrors config))
                  || ErrorType_eqb (type e) user); cbn [snd]; [eauto|].
        destruct (attempt =? maxAttempts config); cbn [snd]; [eauto|]. apply Hgo.
      * destruct (attempt =? maxAttempts config); cbn [snd]; [eauto|]. apply Hgo.
      * destruct (attempt =? maxAttempts config); cbn [snd]; [eauto|]. apply Hgo.
Qed.

(** Online, the first attempt invokes the operation: what the run leaves
    in the trace begins with what that invocation left. *)
Lemma retry_loop_first (Hop : appends_to_the_trace) (remaining : nat) attempt lastError w :
  NetworkChecker.isNetworkOnline w = true ->
  exists evs,
    trace (snd (retry_loop config operation operationName (S remaining) attempt
                  lastError w))
    = (trace (snd (operation w)) ++ evs)%list.
Proof.
  intros Hon. cbn [retry_loop]. unfold attempt_once. rewrite Hon. cbn [negb].
  destruct (operation w) as [[v|error] w1]; cbn [snd].
  - exists []. now rewrite app_nil_r.
  - assert (Hgo : forall last',
              exists evs,
                trace (snd (let '(r, w2) := Env.Math_random w1 in
                            retry_loop config operation operationName remaining
                              (attempt + 1) last'
                              (Env.sleep (JS.Z2float (backoff_delay config attempt)
                                          + r * 1000)%float w2)))
                = (trace w1 ++ evs)%list).
    { intros last'.
      pose proof (Math_random_rest w1) as (Ht & _).
      destruct (Env.Math_random w1) as [r w2]. cbn [snd] in Ht.
      set (ms := (JS.Z2float (backoff_delay config attempt) + r * 1000)%float).
      destruct (retry_loop_extends Hop remaining (attempt + 1) last' (Env.sleep ms w2))
        as [evs Hevs].
      destruct (sleep_appends ms w2) as [Hs _].
      exists (EvSleep ms :: evs)%list.
      rewrite Hevs, Hs, Ht. rewrite <- !app_assoc. reflexivity. }
    assert (Hstop : exists evs, trace w1 = (trace w1 ++ evs)%list)
      by (exists []; now rewrite app_nil_r).
    destruct error as [e|e|s]; cbn [has_type_property].
    + destruct (negb (retryable e)
                || negb (existsb (ErrorType_eqb (type e)) (retryableErrors config))
                || ErrorType_eqb (type e) user); cbn [snd]; [exact Hstop|].
      destruct (attempt =? maxAttempts config); cbn [snd]; [exact Hstop|]. apply Hgo.
    + destruct (attempt =? maxAttempts config); cbn [snd]; [exact Hstop|]. apply Hgo.
    + destruct (attempt =? maxAttempts config); cbn [snd]; [exact Hstop|]. apply Hgo.
Qed.

End Loop.

(** The operation of [handleFetch]: one request, an ok response or an
    AppError. *)
Lemma fetch_operation_effect (url context : string) :
  one_request_each (ErrorHandler.fetch_operation url context).
Proof.
  intros w. unfold ErrorHandler.fetch_operation, try_catch, bind, Env.fetch, throw, ret.
  cbn [responses log].
  destruct (responses w) as [|o rest];
    cbn [has_type_property snd trace storage requestCounts log].
  - rewrite RetryFacts.count_fetches_app, RetryFacts.count_sleeps_app. cbn.
    repeat split; lia.
  - cbn [set_responses log clock set_clock trace].
    destruct (30000 <=? Http.latency o); cbn [has_type_property snd].
    + cbn [trace storage requestCounts set_clock set_responses log].
      rewrite RetryFacts.count_fetches_app, RetryFacts.count_sleeps_app. cbn.
      repeat split; lia.
    + destruct (Http.result o) as [r|t].
      * destruct (negb (Http.ok r)); cbn [has_type_property snd];
          cbn [trace storage requestCounts set_clock set_responses log];
          rewrite RetryFacts.count_fetches_app, RetryFacts.count_sleeps_app; cbn;
          repeat split; lia.
      * destruct (has_type_property t); cbn [snd];
          cbn [trace storage requestCounts set_clock set_responses log];
          rewrite RetryFacts.count_fetches_app, RetryFacts.count_sleeps_app; cbn;
          repeat split; lia.
Qed.

Lemma fetch_operation_outcome (url context : string) (w : World) :
  match fst (ErrorHandler.fetch_operation url context w) with
  | Return r => Http.ok r = true
  | Throw t => exists e, t = ThrownAppError e
  end.
Proof.
  unfold ErrorHandler.fetch_operation, try_catch, bind, Env.fetch, throw, ret.
  cbn [responses log].
  destruct (responses w) as [|o rest]; cbn [has_type_property fst]; [eauto|].
  destruct (30000 <=? Http.latency o); cbn [has_type_property fst]; [eauto|].
  destruct (Http.result o) as [r|t].
  - destruct (Http.ok r) eqn:Hok; cbn [negb has_type_property fst]; eauto.
  - destruct t as [e|e|s]; cbn [has_type_property fst]; eauto.
Qed.

(** What one invocation of the operation of [handleFetch] does with a
    response that arrives in time. *)
Lemma fetch_operation_response (url context : string) (w : World)
    (o : Http.FetchOutcome) (rest : list Http.FetchOutcome) (r : Http.Response) :
  responses w = o :: rest ->
  Http.latency o < 30000 ->
  Http.result o = Http.Resolves r ->
  ErrorHandler.fetch_operation url context w
  = (if Http.ok r then Return r
     else Throw (ThrownAppError (HttpErrorAnalyzer.analyzeHttpError r context)),
     set_clock (clock w + Z.max 0 (Http.latency o))
       (set_responses rest (log (EvFetch url) w))).
Proof.
  intros Hresp Hlat Hres.
  unfold ErrorHandler.fetch_operation, try_catch, bind, Env.fetch, throw, ret.
  cbn [responses log]. rewrite Hresp.
  replace (30000 <=? Http.latency o) with false by (symmetry; apply Z.leb_gt; lia).
  rewrite Hres. destruct (Http.ok r); reflexivity.
Qed.

(** An HTTP error that may be retried is of the api kind. *)
Lemma retryable_http_error_is_api (r : Http.Response) (context : string) :
  retryable (HttpErrorAnalyzer.analyzeHttpError r context) = true ->
  type (HttpErrorAnalyzer.analyzeHttpError r context) = api.
Proof.
  unfold HttpErrorAnalyzer.analyzeHttpError.
  repeat match goal with
         | |- context [if ?b then _ else _] => destruct b
         end; cbn; congruence.
Qed.

(** One invocation of the operation of [handleFetch] sends one request. *)
Lemma fetch_operation_trace (url context : string) (w : World) :
  trace (snd (ErrorHandler.fetch_operation url context w))
  = (trace w ++ [EvFetch url])%list.
Proof.
  unfold ErrorHandler.fetch_operation, try_catch, bind, Env.fetch, throw, ret.
  cbn [responses log].
  destruct (responses w) as [|o rest]; cbn [has_type_property snd trace log]; [reflexivity|].
  cbn [set_responses log clock set_clock trace].
  destruct (30000 <=? Http.latency o); cbn [has_type_property snd]; [reflexivity|].
  destruct (Http.result o) as [r|t].
  - destruct (negb (Http.ok r)); reflexivity.
  - destruct (has_type_property t); reflexivity.
Qed.

(** Online and within the rate limit, [handleFetch] sends the request: the
    trace it leaves begins with that request. *)
Lemma handleFetch_first_request (retryConfig : RetryHandler.PartialRetryConfig)
    (url context : string) (w : World) :
  NetworkChecker.isNetworkOnline w = true ->
  fst (RateLimitHandler.checkRateLimit (JS.toLowerCase context) (Env.Date_now w)
         (requestCounts w)) = true ->
  1 <= RetryHandler.maxAttempts (RetryHandler.new retryConfig) ->
  exists evs,
    trace (snd (ErrorHandler.handleFetch retryConfig url context w))
    = (trace w ++ EvFetch url :: evs)%list.
Proof.
  intros Hon Hrate Hmax.
  unfold ErrorHandler.handleFetch, ErrorHandler.handleApiRequest.
  rewrite Hon. cbn [negb].
  destruct (RateLimitHandler.checkRateLimit _ _ _) as [allowed counts].
  cbn [fst] in Hrate. subst allowed. cbn [negb].
  unfold RetryHandler.executeWithRetry, ErrorHandler.retryHandler.
  destruct (Z.to_nat (RetryHandler.maxAttempts (RetryHandler.new retryConfig)))
    as [|remaining] eqn:Hn; [lia|].
  destruct (retry_loop_first (RetryHandler.new retryConfig)
              (ErrorHandler.fetch_operation url context) context
              (fun w0 => ex_intro _ [EvFetch url] (fetch_operation_trace url context w0))
              remaining 1 None (set_requestCounts counts w) Hon) as [evs Hevs].
  exists evs. rewrite Hevs, fetch_operation_trace.
  cbn [trace set_requestCounts]. now rewrite <- app_assoc.
Qed.

(** [handleFetch] leaves the cache alone. *)
Lemma handleFetch_storage (retryConfig : RetryHandler.PartialRetryConfig)
    (url context : string) (w : World) :
  storage (snd (ErrorHandler.handleFetch retryConfig url context w)) = storage w.
Proof.
  unfold ErrorHandler.handleFetch, ErrorHandler.handleApiRequest.
  destruct (NetworkChecker.isNetworkOnline w); cbn [negb snd]; [|reflexivity].
  destruct (RateLimitHandler.checkRateLimit _ _ _) as [allowed counts].
  destruct (negb allowed); cbn [snd set_requestCounts storage]; [reflexivity|].
  unfold RetryHandler.executeWithRetry.
  apply (retry_loop_frame (ErrorHandler.retryHandler retryConfig)
           (ErrorHandler.fetch_operation url context) context
           (fetch_operation_effect url context)
           (Z.to_nat (RetryHandler.maxAttempts (ErrorHandler.retryHandler retryConfig)))
           1 None (set_requestCounts counts w)).
Qed.

End EngineFacts.

(* ===================================================================== *)
(** * NaN coordinates *)
(* ===================================================================== *)

Module AccessorFacts.
Import WeatherService.

Section Paths.
Context (config : Config) (Date_getTime : JsValue -> option Z).

(** After [handleFetch], the [try] blocks of the accessors send nothing
    more. *)
Lemma fetch_current_trace (lat lon : float) (w : World) :
  trace (snd (fetch_current config Date_getTime lat lon w))
  = trace (snd (ErrorHandler.handleFetch errorHandler
                  (buildCurrentWeatherUrl config lat lon) "Weather" w)).
Proof.
  unfold fetch_current, bind, lift.
  destruct (ErrorHandler.handleFetch _ _ _ _) as [[response|t] w1]; [|reflexivity].
  destruct (Http.json response) as [data|t]; [|reflexivity].
  destruct (get_prop data "current") as [cur|t]; [|reflexivity].
  destruct (negb (truthy cur)); [reflexivity|].
  destruct (truthy (prop data "daily")); [|reflexivity].
  destruct (transformForecastData _ _ _) as [fc|t]; reflexivity.
Qed.

Lemma fetch_forecast_trace (lat lon : float) (w : World) :
  trace (snd (fetch_forecast config Date_getTime lat lon w))
  = trace (snd (ErrorHandler.handleFetch errorHandler
                  (buildForecastUrl config lat lon) "Weather forecast" w)).
Proof.
  unfold fetch_forecast, bind, lift.
  destruct (ErrorHandler.handleFetch _ _ _ _) as [[response|t] w1]; [|reflexivity].
  destruct (Http.json response) as [data|t]; [|reflexivity].
  destruct (get_prop data "daily") as [daily|t]; [|reflexivity].
  destruct (negb (truthy daily)); [reflexivity|].
  destruct (transformForecastData _ _ _) as [fc|t]; [|reflexivity].
  destruct (truthy (prop data "current")); reflexivity.
Qed.

Lemma fetch_complete_trace (lat lon : float) (w : World) :
  trace (snd (fetch_complete config Date_getTime lat lon w))
  = trace (snd (ErrorHandler.handleFetch errorHandler
                  (buildCompleteWeatherUrl config lat lon) "Complete weather" w)).
Proof.
  unfold fetch_complete, bind, lift.
  destruct (ErrorHandler.handleFetch _ _ _ _) as [[response|t] w1]; [|reflexivity].
  destruct (Http.json response) as [data|t]; [|reflexivity].
  destruct (get_prop data "current") as [cur|t]; [|reflexivity].
  destruct (negb (truthy cur) || negb (truthy (prop data "daily"))); [reflexivity|].
  destruct (transformForecastData _ _ _) as [fc|t]; reflexivity.
Qed.

(** A lookup that finds no entry, own or inherited, answers [null] and
    leaves the world as it is. *)
Lemma cache_lookup_missing (lat lon : float) (w : World) :
  Dict.get (CacheService.getWeatherCacheKey lat lon)
    (CacheService.getWeatherCache (storage w)) = Dict.Missing ->
  cache_lookup lat lon w = (Return CacheService.Null, w).
Proof.
  intros H. unfold cache_lookup, CacheService.getCachedWeatherData. rewrite H.
  f_equal. now destruct w.
Qed.

End Paths.

End AccessorFacts.

Section NaNCoordinates.
Import WeatherService.

(** C10, amended.  A NaN coordinate is never rejected by
    [validateCoordinates]: with both coordinates NaN validation succeeds,
    and with one of them NaN it succeeds whenever the other coordinate is
    neither below nor above its bounds.  A NaN coordinate puts ["NaN"] in
    its place of the cache key.  For [lat = NaN] and [lon = NaN] each of
    the three accessors goes on to the cache under the key ["NaN,NaN"]: it
    answers from an unexpired entry stored under that key, and where
    there is no entry under that key it does what its request path does,
    which, online and within the rate limit, begins by sending the
    request with the two NaN coordinates. *)
Theorem C10_nan_coordinates_are_accepted
    (config : Config) (Date_getTime : JsValue -> option Z) (w wm : World)
    (entry : CacheService.CacheEntry WeatherCacheData) :
  assoc "NaN,NaN" (CacheService.getWeatherCache (storage w)) = Some entry ->
  clock w <= CacheService.expiresAt entry ->
  Dict.get "NaN,NaN" (CacheService.getWeatherCache (storage wm)) = Dict.Missing ->
  NetworkChecker.isNetworkOnline wm = true ->
  fst (RateLimitHandler.checkRateLimit "weather" (clock wm) (requestCounts wm)) = true ->
  fst (RateLimitHandler.checkRateLimit "weather forecast" (clock wm) (requestCounts wm))
  = true ->
  fst (RateLimitHandler.checkRateLimit "complete weather" (clock wm) (requestCounts wm))
  = true ->
  validateCoordinates (JNum PrimFloat.nan) (JNum PrimFloat.nan) = Return tt
  /\ (forall lon, (lon <? -180)%float = false -> (180 <? lon)%float = false ->
        validateCoordinates (JNum PrimFloat.nan) (JNum lon) = Return tt)
  /\ (forall lat, (lat <? -90)%float = false -> (90 <? lat)%float = false ->
        validateCoordinates (JNum lat) (JNum PrimFloat.nan) = Return tt)
  /\ CacheService.getWeatherCacheKey PrimFloat.nan PrimFloat.nan = "NaN,NaN"
  /\ (forall lon,
        CacheService.getWeatherCacheKey PrimFloat.nan lon
        = "NaN," ++ JS.Number_toString (JS.Math_round (lon * 100) / 100)%float)
  /\ (forall lat,
        CacheService.getWeatherCacheKey lat PrimFloat.nan
        = JS.Number_toString (JS.Math_round (lat * 100) / 100)%float ++ ",NaN")
  /\ getCurrentWeather config Date_getTime (JNum PrimFloat.nan) (JNum PrimFloat.nan) w
     = (Return (current (CacheService.data entry)), w)
  /\ getForecast config Date_getTime (JNum PrimFloat.nan) (JNum PrimFloat.nan) w
     = (Return (forecast (CacheService.data entry)), w)
  /\ getCompleteWeatherData config Date_getTime (JNum PrimFloat.nan) (JNum PrimFloat.nan) w
     = (Return (Some (CacheService.data entry)), w)
  /\ JS.Number_toString PrimFloat.nan = "NaN"
  /\ (getCurrentWeather config Date_getTime (JNum PrimFloat.nan) (JNum PrimFloat.nan) wm
      = fetch_current config Date_getTime PrimFloat.nan PrimFloat.nan wm
      /\ exists evs,
           trace (snd (getCurrentWeather config Date_getTime
                         (JNum PrimFloat.nan) (JNum PrimFloat.nan) wm))
           = (trace wm
              ++ EvFetch (buildCurrentWeatherUrl config PrimFloat.nan PrimFloat.nan)
                 :: evs)%list)
  /\ (getForecast config Date_getTime (JNum PrimFloat.nan) (JNum PrimFloat.nan) wm
      = fetch_forecast config Date_getTime PrimFloat.nan PrimFloat.nan wm
      /\ exists evs,
           trace (snd (getForecast config Date_getTime
                         (JNum PrimFloat.nan) (JNum PrimFloat.nan) wm))
           = (trace wm
              ++ EvFetch (buildForecastUrl config PrimFloat.nan PrimFloat.nan)
                 :: evs)%list)
  /\ (getCompleteWeatherData config Date_getTime (JNum PrimFloat.nan) (JNum PrimFloat.nan) wm
      = (let* d := fetch_complete config Date_getTime PrimFloat.nan PrimFloat.nan in
         ret (Some d)) wm
      /\ exists evs,
           trace (snd (getCompleteWeatherData config Date_getTime
                         (JNum PrimFloat.nan) (JNum PrimFloat.nan) wm))
           = (trace wm
              ++ EvFetch (buildCompleteWeatherUrl config PrimFloat.nan PrimFloat.nan)
                 :: evs)%list).
Proof.
  intros Hentry Hlive Hmiss Hon Hrate1 Hrate2 Hrate3.
  assert (Hkey : CacheService.getWeatherCacheKey PrimFloat.nan PrimFloat.nan = "NaN,NaN")
    by (vm_compute; reflexivity).
  assert (Hlookup : cache_lookup PrimFloat.nan PrimFloat.nan w
                    = (Return (CacheService.Data (CacheService.data entry)), w)).
  { unfold cache_lookup, CacheService.getCachedWeatherData, Dict.get, Env.Date_now.
    rewrite Hkey, Hentry.
    replace (CacheService.expiresAt entry <? clock w) with false
      by (symmetry; apply Z.ltb_ge; lia).
    now rewrite set_storage_same. }
  assert (Hnull : cache_lookup PrimFloat.nan PrimFloat.nan wm
                  = (Return CacheService.Null, wm)).
  { apply AccessorFacts.cache_lookup_missing. now rewrite Hkey. }
  assert (Hmax : 1 <= RetryHandler.maxAttempts (RetryHandler.new errorHandler))
    by (vm_compute; discriminate).
  split; [reflexivity|].
  split.
  { intros lon H1 H2. unfold validateCoordinates.
    change ((PrimFloat.nan <? -90)%float || (90 <? PrimFloat.nan)%float) with false.
    now rewrite H1, H2. }
  split.
  { intros lat H1 H2. unfold validateCoordinates. rewrite H1, H2. reflexivity. }
  split; [exact Hkey|].
  assert (Hnan : JS.Number_toString (JS.Math_round (PrimFloat.nan * 100) / 100)%float
                 = "NaN") by (vm_compute; reflexivity).
  split.
  { intros lon. unfold CacheService.getWeatherCacheKey. now rewrite Hnan. }
  split.
  { intros lat. unfold CacheService.getWeatherCacheKey. now rewrite Hnan. }
  split; [|split; [|split]].
  - unfold getCurrentWeather, bind, lift.
    change (validateCoordinates (JNum PrimFloat.nan) (JNum PrimFloat.nan))
      with (Return tt).
    cbn [LocationService.as_number]. now rewrite Hlookup.
  - unfold getForecast, bind, lift.
    change (validateCoordinates (JNum PrimFloat.nan) (JNum PrimFloat.nan))
      with (Return tt).
    cbn [LocationService.as_number]. now rewrite Hlookup.
  - unfold getCompleteWeatherData, bind, lift.
    change (validateCoordinates (JNum PrimFloat.nan) (JNum PrimFloat.nan))
      with (Return tt).
    cbn [LocationService.as_number]. now rewrite Hlookup.
  - split; [vm_compute; reflexivity|].
    assert (Hcurrent : getCurrentWeather config Date_getTime (JNum PrimFloat.nan)
                         (JNum PrimFloat.nan) wm
                       = fetch_current config Date_getTime PrimFloat.nan PrimFloat.nan wm).
    { unfold getCurrentWeather, bind, lift.
      change (validateCoordinates (JNum PrimFloat.nan) (JNum PrimFloat.nan))
        with (Return tt).
      cbn [LocationService.as_number]. rewrite Hnull.
      apply WeatherFacts.try_catch_rethrow. }
    assert (Hforecast : getForecast config Date_getTime (JNum PrimFloat.nan)
                          (JNum PrimFloat.nan) wm
                        = fetch_forecast config Date_getTime PrimFloat.nan PrimFloat.nan wm).
    { unfold getForecast, bind, lift.
      change (validateCoordinates (JNum PrimFloat.nan) (JNum PrimFloat.nan))
        with (Return tt).
      cbn [LocationService.as_number]. rewrite Hnull.
      apply WeatherFacts.try_catch_rethrow. }
    assert (Hcomplete : getCompleteWeatherData config Date_getTime (JNum PrimFloat.nan)
                          (JNum PrimFloat.nan) wm
                        = (let* d := fetch_complete config Date_getTime
                                       PrimFloat.nan PrimFloat.nan in
                           ret (Some d)) wm).
    { unfold getCompleteWeatherData, bind at 1 2, lift.
      change (validateCoordinates (JNum PrimFloat.nan) (JNum PrimFloat.nan))
        with (Return tt).
      cbn [LocationService.as_number]. rewrite Hnull.
      apply WeatherFacts.try_catch_rethrow. }
    split; [|split].
    + split; [exact Hcurrent|].
      rewrite Hcurrent, AccessorFacts.fetch_current_trace.
      now apply EngineFacts.handleFetch_first_request.
    + split; [exact Hforecast|].
      rewrite Hforecast, AccessorFacts.fetch_forecast_trace.
      now apply EngineFacts.handleFetch_first_request.
    + split; [exact Hcomplete|].
      rewrite Hcomplete. unfold bind at 1.
      pose proof (AccessorFacts.fetch_complete_trace config Date_getTime
                    PrimFloat.nan PrimFloat.nan wm) as Htrace.
      destruct (fetch_complete config Date_getTime PrimFloat.nan PrimFloat.nan wm)
        as [[d|t] w1]; cbn [snd ret] in *; rewrite Htrace;
        now apply EngineFacts.handleFetch_first_request.
Qed.

Lemma C10_witness :
  let wm := Scenario.answering [Scenario.ok_json Scenario.current_and_daily] in
  validateCoordinates (JNum PrimFloat.nan) (JNum PrimFloat.nan) = Return tt
  /\ (forall lon, (lon <? -180)%float = false -> (180 <? lon)%float = false ->
        validateCoordinates (JNum PrimFloat.nan) (JNum lon) = Return tt)
  /\ (forall lat, (lat <? -90)%float = false -> (90 <? lat)%float = false ->
        validateCoordinates (JNum lat) (JNum PrimFloat.nan) = Return tt)
  /\ CacheService.getWeatherCacheKey PrimFloat.nan PrimFloat.nan = "NaN,NaN"
  /\ (forall lon,
        CacheService.getWeatherCacheKey PrimFloat.nan lon
        = "NaN," ++ JS.Number_toString (JS.Math_round (lon * 100) / 100)%float)
  /\ (forall lat,
        CacheService.getWeatherCacheKey lat PrimFloat.nan
        = JS.Number_toString (JS.Math_round (lat * 100) / 100)%float ++ ",NaN")
  /\ getCurrentWeather default_config Scenario.Date_getTime
       (JNum PrimFloat.nan) (JNum PrimFloat.nan) Scenario.nan_cached
     = (Return (current Scenario.no_weather), Scenario.nan_cached)
  /\ getForecast default_config Scenario.Date_getTime
       (JNum PrimFloat.nan) (JNum PrimFloat.nan) Scenario.nan_cached
     = (Return (forecast Scenario.no_weather), Scenario.nan_cached)
  /\ getCompleteWeatherData default_config Scenario.Date_getTime
       (JNum PrimFloat.nan) (JNum PrimFloat.nan) Scenario.nan_cached
     = (Return (Some Scenario.no_weather), Scenario.nan_cached)
  /\ JS.Number_toString PrimFloat.nan = "NaN"
  /\ (getCurrentWeather default_config Scenario.Date_getTime
        (JNum PrimFloat.nan) (JNum PrimFloat.nan) wm
      = fetch_current default_config Scenario.Date_getTime PrimFloat.nan PrimFloat.nan wm
      /\ exists evs,
           trace (snd (getCurrentWeather default_config Scenario.Date_getTime
                         (JNum PrimFloat.nan) (JNum PrimFloat.nan) wm))
           = (trace wm
              ++ EvFetch (buildCurrentWeatherUrl default_config PrimFloat.nan PrimFloat.nan)
                 :: evs)%list)
  /\ (getForecast default_config Scenario.Date_getTime
        (JNum PrimFloat.nan) (JNum PrimFloat.nan) wm
      = fetch_forecast default_config Scenario.Date_getTime PrimFloat.nan PrimFloat.nan wm
      /\ exists evs,
           trace (snd (getForecast default_config Scenario.Date_getTime
                         (JNum PrimFloat.nan) (JNum PrimFloat.nan) wm))
           = (trace wm
              ++ EvFetch (buildForecastUrl default_config PrimFloat.nan PrimFloat.nan)
                 :: evs)%list)
  /\ (getCompleteWeatherData default_config Scenario.Date_getTime
        (JNum PrimFloat.nan) (JNum PrimFloat.nan) wm
      = (let* d := fetch_complete default_config Scenario.Date_getTime
                     PrimFloat.nan PrimFloat.nan in
         ret (Some d)) wm
      /\ exists evs,
           trace (snd (getCompleteWeatherData default_config Scenario.Date_getTime
                         (JNum PrimFloat.nan) (JNum PrimFloat.nan) wm))
           = (trace wm
              ++ EvFetch (buildCompleteWeatherUrl default_config PrimFloat.nan PrimFloat.nan)
                 :: evs)%list).
Proof.
  intros wm.
  assert (Hlive : clock Scenario.nan_cached <= 1705320600000)
    by (vm_compute; discriminate).
  assert (H1 : fst (RateLimitHandler.checkRateLimit "weather" (clock wm)
                      (requestCounts wm)) = true) by (vm_compute; reflexivity).
  assert (H2 : fst (RateLimitHandler.checkRateLimit "weather forecast" (clock wm)
                      (requestCounts wm)) = true) by (vm_compute; reflexivity).
  assert (H3 : fst (RateLimitHandler.checkRateLimit "complete weather" (clock wm)
                      (requestCounts wm)) = true) by (vm_compute; reflexivity).
  exact (C10_nan_coordinates_are_accepted default_config Scenario.Date_getTime
           Scenario.nan_cached wm
           {| CacheService.data := Scenario.no_weather;
              CacheService.timestamp := 1705320000000;
              CacheService.expiresAt := 1705320600000 |}
           eq_refl Hlive eq_refl eq_refl H1 H2 H3).
Defined.

End NaNCoordinates.

(* ===================================================================== *)
(** * The retry engine and the request pipeline, in general *)
(* ===================================================================== *)

(** X1.  Whatever the operation throws (an AppError, an Error instance, a
    primitive value) and whatever the configuration, [executeWithRetry]
    raises nothing but AppErrors; a value it returns is one the operation
    returned, invoked while online, and the world is left as that
    invocation left it. *)
Theorem retry_engine_raises_only_AppErrors {T} (config : RetryHandler.RetryConfig)
    (operation : Async T) (operationName : string) (w : World) :
  match RetryHandler.executeWithRetry config operation operationName w with
  | (Throw t, _) => exists e, t = ThrownAppError e
  | (Return v, w') =>
      exists w0, NetworkChecker.isNetworkOnline w0 = true /\ operation w0 = (Return v, w')
  end.
Proof. apply EngineFacts.retry_loop_outcome. Qed.

(** X2.  With the retryable kinds left at their default (network and api),
    as both services leave them, an AppError of the data or user kind, or
    one marked not retryable, thrown by the operation at the first attempt
    is raised at once: the operation has run once, nothing has slept, and
    the world is as the operation left it. *)
Theorem data_and_user_errors_are_never_retried {T}
    (retryConfig : RetryHandler.PartialRetryConfig) (operation : Async T)
    (operationName : string) (w w1 : World) (e : AppError) :
  RetryHandler.p_retryableErrors retryConfig = None ->
  1 <= RetryHandler.maxAttempts (RetryHandler.new retryConfig) ->
  NetworkChecker.isNetworkOnline w = true ->
  operation w = (Throw (ThrownAppError e), w1) ->
  type e = data \/ type e = user \/ retryable e = false ->
  RetryHandler.executeWithRetry (RetryHandler.new retryConfig) operation operationName w
  = (Throw (ThrownAppError e), w1).
Proof.
  intros Hkinds Hmax Hon Hop He. unfold RetryHandler.executeWithRetry.
  destruct (Z.to_nat (RetryHandler.maxAttempts (RetryHandler.new retryConfig)))
    as [|remaining] eqn:Hn; [lia|].
  apply EngineFacts.retry_loop_not_retried; try assumption.
  unfold not_retried, RetryHandler.new. cbn [RetryHandler.retryableErrors].
  rewrite Hkinds. cbn [default RetryHandler.retryableErrors RetryHandler.DEFAULT_RETRY_CONFIG].
  destruct He as [He|[He|He]]; rewrite He.
  - destruct (retryable e); reflexivity.
  - destruct (retryable e); reflexivity.
  - reflexivity.
Qed.

Lemma data_and_user_errors_are_never_retried_witness :
  RetryHandler.executeWithRetry
    (RetryHandler.new (WeatherService.errorHandler))
    MoreScenarios.failing "Weather" Scenario.quiet
  = (Throw (ThrownAppError MoreScenarios.bad_data), Scenario.quiet).
Proof.
  apply (data_and_user_errors_are_never_retried WeatherService.errorHandler
           MoreScenarios.failing "Weather" Scenario.quiet Scenario.quiet
           MoreScenarios.bad_data).
  - reflexivity.
  - vm_compute. discriminate.
  - reflexivity.
  - reflexivity.
  - left. reflexivity.
Defined.

(** X3.  One [handleFetch] call sends at most [maxAttempts] requests and
    sleeps at most [maxAttempts - 1] times, whatever the responses, the
    connectivity events and the configuration. *)
Theorem handleFetch_request_budget (retryConfig : RetryHandler.PartialRetryConfig)
    (url context : string) (w : World) :
  let maxAttempts := RetryHandler.maxAttempts (RetryHandler.new retryConfig) in
  let w' := snd (ErrorHandler.handleFetch retryConfig url context w) in
  (count_fetches (trace w') <= count_fetches (trace w) + Z.to_nat maxAttempts)%nat
  /\ (count_sleeps (trace w') <= count_sleeps (trace w) + Nat.pred (Z.to_nat maxAttempts))%nat.
Proof.
  cbn zeta. unfold ErrorHandler.handleFetch, ErrorHandler.handleApiRequest.
  destruct (negb (NetworkChecker.isNetworkOnline w)); cbn [snd]; [lia|].
  destruct (RateLimitHandler.checkRateLimit _ _ _) as [allowed counts].
  destruct (negb allowed); cbn [snd set_requestCounts trace]; [lia|].
  unfold RetryHandler.executeWithRetry, ErrorHandler.retryHandler.
  destruct (Z_le_gt_dec 0 (RetryHandler.maxAttempts (RetryHandler.new retryConfig)))
    as [Hmax|Hmax].
  - pose proof (EngineFacts.retry_loop_budget (RetryHandler.new retryConfig)
                  (ErrorHandler.fetch_operation url context) context
                  (EngineFacts.fetch_operation_effect url context)
                  (Z.to_nat (RetryHandler.maxAttempts (RetryHandler.new retryConfig)))
                  1 None (set_requestCounts counts w)) as H.
    cbn zeta in H. cbn [set_requestCounts trace] in H. apply H. lia.
  - replace (Z.to_nat (RetryHandler.maxAttempts (RetryHandler.new retryConfig)))
      with O by lia.
    cbn [RetryHandler.retry_loop snd trace set_requestCounts]. lia.
Qed.

(** X4.  [handleFetch] returns only responses whose [ok] is true, and
    raises only AppErrors. *)
Theorem handleFetch_returns_only_ok_responses
    (retryConfig : RetryHandler.PartialRetryConfig) (url context : string) (w : World) :
  match fst (ErrorHandler.handleFetch retryConfig url context w) with
  | Return response => Http.ok response = true
  | Throw t => exists e, t = ThrownAppError e
  end.
Proof.
  unfold ErrorHandler.handleFetch, ErrorHandler.handleApiRequest.
  destruct (negb (NetworkChecker.isNetworkOnline w)); cbn [fst]; [eauto|].
  destruct (RateLimitHandler.checkRateLimit _ _ _) as [allowed counts].
  destruct (negb allowed); cbn [fst]; [eauto|].
  unfold RetryHandler.executeWithRetry.
  pose proof (EngineFacts.retry_loop_outcome (ErrorHandler.retryHandler retryConfig)
                (ErrorHandler.fetch_operation url context) context
                (Z.to_nat (RetryHandler.maxAttempts (ErrorHandler.retryHandler retryConfig)))
                1 None (set_requestCounts counts w)) as H.
  destruct (RetryHandler.retry_loop _ _ _ _ _ _ _) as [[r|t] w']; cbn [fst].
  - destruct H as (w0 & _ & Hop).
    pose proof (EngineFacts.fetch_operation_outcome url context w0) as Hout.
    now rewrite Hop in Hout.
  - exact H.
Qed.

(** X5.  [handleFetch] never touches the cache, and counts one call
    against the rate limit of its service however many requests the
    retries send: the rate limiter is consulted once, before the first
    attempt, and not at all when the browser is offline. *)
Theorem handleFetch_counts_once_against_the_rate_limit
    (retryConfig : RetryHandler.PartialRetryConfig) (url context : string) (w : World) :
  let w' := snd (ErrorHandler.handleFetch retryConfig url context w) in
  storage w' = storage w
  /\ requestCounts w' =
       if NetworkChecker.isNetworkOnline w
       then snd (RateLimitHandler.checkRateLimit (JS.toLowerCase context)
                   (Env.Date_now w) (requestCounts w))
       else requestCounts w.
Proof.
  cbn zeta. unfold ErrorHandler.handleFetch, ErrorHandler.handleApiRequest.
  destruct (NetworkChecker.isNetworkOnline w); cbn [negb snd]; [|auto].
  destruct (RateLimitHandler.checkRateLimit _ _ _) as [allowed counts].
  destruct (negb allowed); cbn [snd set_requestCounts storage requestCounts]; [auto|].
  unfold RetryHandler.executeWithRetry.
  pose proof (EngineFacts.retry_loop_frame (ErrorHandler.retryHandler retryConfig)
                (ErrorHandler.fetch_operation url context) context
                (EngineFacts.fetch_operation_effect url context)
                (Z.to_nat (RetryHandler.maxAttempts (ErrorHandler.retryHandler retryConfig)))
                1 None (set_requestCounts counts w)) as H.
  cbn zeta in H. exact H.
Qed.

(** X6.  A call refused by the rate limiter does not invoke the operation
    and changes nothing, the limiter's map included; it raises the
    retryable api-kind rate-limit error. *)
Theorem rate_limited_call_does_nothing {T} (retryConfig : RetryHandler.PartialRetryConfig)
    (operation : Async T) (context serviceKey : string) (w : World) :
  NetworkChecker.isNetworkOnline w = true ->
  fst (RateLimitHandler.checkRateLimit serviceKey (Env.Date_now w) (requestCounts w))
  = false ->
  exists e,
    ErrorHandler.handleApiRequest retryConfig operation context serviceKey w
    = (Throw (ThrownAppError e), w)
    /\ e = RateLimitHandler.handleRateLimitExceeded serviceKey (Env.Date_now w)
             (requestCounts w)
    /\ type e = api /\ retryable e = true.
Proof.
  intros Hon Hno. unfold ErrorHandler.handleApiRequest. rewrite Hon. cbn [negb].
  destruct (RateLimitFacts.checkRateLimit_false_inv _ _ _ Hno) as (c & Hk & Hnow & Hc).
  rewrite (RateLimitFacts.checkRateLimit_blocked _ _ _ c Hk Hnow Hc). cbn [negb].
  assert (Hw : set_requestCounts (requestCounts w) w = w) by now destruct w.
  rewrite Hw. eexists. split; [reflexivity|]. split; [reflexivity|]. split; reflexivity.
Qed.

Lemma rate_limited_call_does_nothing_witness :
  exists e,
    ErrorHandler.handleApiRequest WeatherService.errorHandler Scenario.succeed
      "Weather" "weather" MoreScenarios.rate_limited
    = (Throw (ThrownAppError e), MoreScenarios.rate_limited)
    /\ e = RateLimitHandler.handleRateLimitExceeded "weather"
             (Env.Date_now MoreScenarios.rate_limited)
             (requestCounts MoreScenarios.rate_limited)
    /\ type e = api /\ retryable e = true.
Proof.
  apply (rate_limited_call_does_nothing WeatherService.errorHandler Scenario.succeed
           "Weather" "weather" MoreScenarios.rate_limited).
  - reflexivity.
  - vm_compute. reflexivity.
Defined.

(** X7.  A response with a 4xx status other than 404 and 429 ends
    [handleFetch] after that one request: the error of
    [analyzeHttpError] is raised, nothing sleeps, and the responses that
    follow are not asked for. *)
Theorem client_error_status_is_not_retried
    (retryConfig : RetryHandler.PartialRetryConfig) (url context : string)
    (w : World) (o : Http.FetchOutcome) (rest : list Http.FetchOutcome)
    (r : Http.Response) :
  NetworkChecker.isNetworkOnline w = true ->
  fst (RateLimitHandler.checkRateLimit (JS.toLowerCase context) (Env.Date_now w)
         (requestCounts w)) = true ->
  1 <= RetryHandler.maxAttempts (RetryHandler.new retryConfig) ->
  responses w = o :: rest ->
  Http.latency o < 30000 ->
  Http.result o = Http.Resolves r ->
  400 <= Http.status r < 500 ->
  Http.status r <> 404 ->
  Http.status r <> 429 ->
  exists w',
    ErrorHandler.handleFetch retryConfig url context w
    = (Throw (ThrownAppError (HttpErrorAnalyzer.analyzeHttpError r context)), w')
    /\ trace w' = (trace w ++ [EvFetch url])%list
    /\ responses w' = rest.
Proof.
  intros Hon Hrate Hmax Hresp Hlat Hres Hrange H404 H429.
  unfold ErrorHandler.handleFetch, ErrorHandler.handleApiRequest.
  rewrite Hon. cbn [negb].
  destruct (RateLimitHandler.checkRateLimit _ _ _) as [allowed counts].
  cbn [fst] in Hrate. subst allowed. cbn [negb].
  unfold RetryHandler.executeWithRetry, ErrorHandler.retryHandler.
  destruct (Z.to_nat (RetryHandler.maxAttempts (RetryHandler.new retryConfig)))
    as [|remaining] eqn:Hn; [lia|].
  assert (Hnotok : Http.ok r = false).
  { unfold Http.ok. apply andb_false_iff. right. apply Z.leb_gt. lia. }
  assert (Hop : ErrorHandler.fetch_operation url context (set_requestCounts counts w)
                = (Throw (ThrownAppError (HttpErrorAnalyzer.analyzeHttpError r context)),
                   set_clock (clock w + Z.max 0 (Http.latency o))
                     (set_responses rest
                        (log (EvFetch url) (set_requestCounts counts w))))).
  { unfold ErrorHandler.fetch_operation, try_catch, bind, Env.fetch, throw, ret.
    cbn [responses log set_requestCounts]. rewrite Hresp.
    replace (30000 <=? Http.latency o) with false by (symmetry; apply Z.leb_gt; lia).
    rewrite Hres, Hnotok. cbn [negb has_type_property]. reflexivity. }
  eexists. split.
  - apply EngineFacts.retry_loop_not_retried; [exact Hon|exact Hop|].
    unfold not_retried.
    assert (Hret : retryable (HttpErrorAnalyzer.analyzeHttpError r context) = false).
    { unfold HttpErrorAnalyzer.analyzeHttpError.
      replace (Http.status r =? 429) with false by (symmetry; apply Z.eqb_neq; lia).
      replace (500 <=? Http.status r) with false by (symmetry; apply Z.leb_gt; lia).
      replace (Http.status r =? 404) with false by (symmetry; apply Z.eqb_neq; lia).
      cbn [andb].
      destruct (Http.status r =? 403); [reflexivity|].
      destruct (Http.status r =? 401); [reflexivity|].
      replace (400 <=? Http.status r) with true by (symmetry; apply Z.leb_le; lia).
      replace (Http.status r <? 500) with true by (symmetry; apply Z.ltb_lt; lia).
      reflexivity. }
    now rewrite Hret.
  - split; reflexivity.
Qed.

Lemma client_error_status_is_not_retried_witness :
  exists w',
    ErrorHandler.handleFetch WeatherService.errorHandler "https://api.example/forecast"
      "Weather" MoreScenarios.forbidden_first
    = (Throw (ThrownAppError
                (HttpErrorAnalyzer.analyzeHttpError
                   {| Http.status := 403; Http.body := Http.BodyJson JNull |} "Weather")),
       w')
    /\ trace w' = (trace MoreScenarios.forbidden_first
                   ++ [EvFetch "https://api.example/forecast"])%list
    /\ responses w' = [Scenario.ok_json JNull].
Proof.
  apply (client_error_status_is_not_retried WeatherService.errorHandler
           "https://api.example/forecast" "Weather" MoreScenarios.forbidden_first
           (Scenario.status_only 403) [Scenario.ok_json JNull]
           {| Http.status := 403; Http.body := Http.BodyJson JNull |}).
  - reflexivity.
  - vm_compute. reflexivity.
  - vm_compute. discriminate.
  - reflexivity.
  - vm_compute. reflexivity.
  - reflexivity.
  - cbn. lia.
  - cbn. discriminate.
  - cbn. discriminate.
Defined.

Section TransientFailures.

(** X8.  A failure that may be retried is invisible to the caller when
    the next attempt succeeds: after an HTTP error marked retryable (a 5xx
    status, 404, 429) [handleFetch] sleeps once, for the base delay
    (capped by the maximal delay) plus the jitter, sends the request
    again and returns the second response. *)
Theorem transient_http_error_is_retried
    (retryConfig : RetryHandler.PartialRetryConfig) (url context : string) (w : World)
    (o1 o2 : Http.FetchOutcome) (rest : list Http.FetchOutcome) (r1 r2 : Http.Response) :
  NetworkChecker.isNetworkOnline w = true ->
  fst (RateLimitHandler.checkRateLimit (JS.toLowerCase context) (Env.Date_now w)
         (requestCounts w)) = true ->
  RetryHandler.p_retryableErrors retryConfig = None ->
  2 <= RetryHandler.maxAttempts (RetryHandler.new retryConfig) ->
  connectivity w = [] ->
  responses w = o1 :: o2 :: rest ->
  Http.latency o1 < 30000 -> Http.result o1 = Http.Resolves r1 ->
  Http.ok r1 = false ->
  retryable (HttpErrorAnalyzer.analyzeHttpError r1 context) = true ->
  Http.latency o2 < 30000 -> Http.result o2 = Http.Resolves r2 ->
  Http.ok r2 = true ->
  exists w',
    ErrorHandler.handleFetch retryConfig url context w = (Return r2, w')
    /\ trace w'
       = (trace w
          ++ [ EvFetch url;
               EvSleep (JS.Z2float
                          (Z.min (RetryHandler.baseDelay (RetryHandler.new retryConfig))
                             (RetryHandler.maxDelay (RetryHandler.new retryConfig)))
                        + fst (Env.Math_random w) * 1000)%float;
               EvFetch url ])%list
    /\ responses w' = rest.
Proof.
  intros Hon Hrate Hkinds Hmax Hconn Hresp Hlat1 Hres1 Hok1 Hretry Hlat2 Hres2 Hok2.
  unfold ErrorHandler.handleFetch, ErrorHandler.handleApiRequest.
  rewrite Hon. cbn [negb].
  destruct (RateLimitHandler.checkRateLimit _ _ _) as [allowed counts].
  cbn [fst] in Hrate. subst allowed. cbn [negb].
  unfold RetryHandler.executeWithRetry, ErrorHandler.retryHandler.
  set (config := RetryHandler.new retryConfig) in *.
  destruct (Z.to_nat (RetryHandler.maxAttempts config)) as [|[|remaining]] eqn:Hn;
    [lia|lia|].
  set (w0 := set_requestCounts counts w).
  (* the first attempt *)
  cbn [RetryHandler.retry_loop]. unfold RetryHandler.attempt_once at 1.
  replace (NetworkChecker.isNetworkOnline w0) with true by (symmetry; exact Hon).
  cbn [negb].
  rewrite (EngineFacts.fetch_operation_response url context w0 o1 (o2 :: rest) r1)
    by assumption.
  rewrite Hok1.
  pose proof (EngineFacts.retryable_http_error_is_api r1 context Hretry) as Hapi.
  rewrite Hretry, Hapi.
  assert (Hlist : RetryHandler.retryableErrors config = [network; api]).
  { unfold config, RetryHandler.new. cbn [RetryHandler.retryableErrors].
    now rewrite Hkinds. }
  rewrite Hlist. cbn [negb existsb ErrorType_eqb orb].
  replace (1 =? RetryHandler.maxAttempts config) with false
    by (symmetry; apply Z.eqb_neq; lia).
  set (w1 := set_clock _ (set_responses (o2 :: rest) (log (EvFetch url) w0))).
  assert (Hrandom : Env.Math_random w1
                    = (fst (Env.Math_random w), snd (Env.Math_random w1))
                    /\ online (snd (Env.Math_random w1)) = true
                    /\ connectivity (snd (Env.Math_random w1)) = []
                    /\ responses (snd (Env.Math_random w1)) = o2 :: rest
                    /\ trace (snd (Env.Math_random w1)) = (trace w ++ [EvFetch url])%list).
  { unfold Env.Math_random. cbn [randoms w1 w0 set_clock set_responses log set_requestCounts].
    destruct (randoms w); cbn; auto. }
  destruct Hrandom as (Hr & Hon1 & Hconn1 & Hresp1 & Htrace1).
  rewrite Hr. set (w2 := snd (Env.Math_random w1)) in *.
  unfold RetryHandler.backoff_delay. cbn [Z.sub Z.pow Z.pow_pos Pos.iter].
  replace (1 - 1) with 0 by lia. rewrite Z.pow_0_r, Z.mul_1_r.
  set (ms := (JS.Z2float _ + _)%float).
  assert (Hsleep : online (Env.sleep ms w2) = true
                   /\ responses (Env.sleep ms w2) = o2 :: rest
                   /\ trace (Env.sleep ms w2)
                      = (trace w ++ [EvFetch url; EvSleep ms])%list).
  { unfold Env.sleep. cbn [connectivity set_clock log]. rewrite Hconn1.
    cbn [online responses trace set_clock log]. rewrite Htrace1, <- app_assoc. auto. }
  destruct Hsleep as (Hon3 & Hresp3 & Htrace3).
  (* the second attempt *)
  cbn [RetryHandler.retry_loop]. unfold RetryHandler.attempt_once.
  unfold NetworkChecker.isNetworkOnline in *. rewrite Hon3. cbn [negb].
  rewrite (EngineFacts.fetch_operation_response url context _ o2 rest r2)
    by assumption.
  rewrite Hok2. eexists. split; [reflexivity|].
  cbn [trace responses set_clock set_responses log]. rewrite Htrace3, <- app_assoc.
  split; reflexivity.
Qed.

Lemma transient_http_error_is_retried_witness :
  exists w',
    ErrorHandler.handleFetch WeatherService.errorHandler "https://api.example/forecast"
      "Weather" MoreScenarios.unavailable_first
    = (Return {| Http.status := 200; Http.body := Http.BodyJson JNull |}, w')
    /\ trace w'
       = (trace MoreScenarios.unavailable_first
          ++ [ EvFetch "https://api.example/forecast";
               EvSleep (JS.Z2float
                          (Z.min (RetryHandler.baseDelay
                                    (RetryHandler.new WeatherService.errorHandler))
                             (RetryHandler.maxDelay
                                (RetryHandler.new WeatherService.errorHandler)))
                        + fst (Env.Math_random MoreScenarios.unavailable_first) * 1000)%float;
               EvFetch "https://api.example/forecast" ])%list
    /\ responses w' = [].
Proof.
  assert (Hrate : fst (RateLimitHandler.checkRateLimit (JS.toLowerCase "Weather")
                         (Env.Date_now MoreScenarios.unavailable_first)
                         (requestCounts MoreScenarios.unavailable_first)) = true)
    by (vm_compute; reflexivity).
  assert (Hmax : 2 <= RetryHandler.maxAttempts
                        (RetryHandler.new WeatherService.errorHandler))
    by (vm_compute; discriminate).
  assert (Hlat : Http.latency (Scenario.status_only 503) < 30000)
    by (vm_compute; reflexivity).
  assert (Hlat' : Http.latency (Scenario.ok_json JNull) < 30000)
    by (vm_compute; reflexivity).
  exact (transient_http_error_is_retried WeatherService.errorHandler
           "https://api.example/forecast" "Weather" MoreScenarios.unavailable_first
           (Scenario.status_only 503) (Scenario.ok_json JNull) []
           {| Http.status := 503; Http.body := Http.BodyJson JNull |}
           {| Http.status := 200; Http.body := Http.BodyJson JNull |}
           eq_refl Hrate eq_refl Hmax eq_refl eq_refl Hlat eq_refl eq_refl eq_refl
           Hlat' eq_refl eq_refl).
Defined.

End TransientFailures.

(* ===================================================================== *)
(** * The cache: maintenance, eviction and read-back *)
(* ===================================================================== *)

Module MaintenanceFacts.
Import CacheService CacheMaintenance DictFacts.

Lemma assoc_app_notin {A} (k : string) (l1 l2 : list (string * A)) :
  ~ In k (Dict.keys l1) -> assoc k (l1 ++ l2) = assoc k l2.
Proof.
  induction l1 as [|[k' v'] l1 IH]; simpl; intros H; [reflexivity|].
  destruct (String.eqb k k') eqn:E.
  - apply String.eqb_eq in E. subst. tauto.
  - apply IH. tauto.
Qed.

Lemma delete_notin {A} (k : string) (o : Dict.t A) :
  ~ In k (Dict.keys o) -> Dict.delete k o = o.
Proof.
  unfold Dict.delete. induction o as [|[k' v'] o IH]; simpl; intros H; [reflexivity|].
  destruct (String.eqb k k') eqn:E.
  - apply String.eqb_eq in E. subst. tauto.
  - simpl. f_equal. apply IH. tauto.
Qed.

Lemma delete_app {A} (k : string) (a b : Dict.t A) :
  Dict.delete k (a ++ b)%list = (Dict.delete k a ++ Dict.delete k b)%list.
Proof. unfold Dict.delete. apply List.filter_app. Qed.

Lemma delete_head {A} (k : string) (v : A) (o : Dict.t A) :
  Dict.delete k ((k, v) :: o) = Dict.delete k o.
Proof. unfold Dict.delete. simpl. now rewrite String.eqb_refl. Qed.

Lemma forallb_filter_id {A} (f : A -> bool) (l : list A) :
  forallb f l = true -> List.filter f l = l.
Proof.
  induction l as [|x l IH]; simpl; [reflexivity|].
  destruct (f x); simpl; [|discriminate]. intros H. f_equal. auto.
Qed.

Lemma filter_split_length {A} (f : A -> bool) (l : list A) :
  (length (List.filter f l) + length (List.filter (fun x => negb (f x)) l))%nat = length l.
Proof.
  induction l as [|x l IH]; simpl; [reflexivity|].
  destruct (f x); simpl; lia.
Qed.

Lemma expired_count_unexpired {T} (now : Z) (cache : Dict.t (CacheEntry T)) :
  expired_count now (List.filter (unexpired now) cache) = 0%nat.
Proof.
  unfold expired_count, unexpired.
  induction cache as [|kv cache IH]; simpl; [reflexivity|].
  destruct (expiresAt (snd kv) <? now) eqn:E; simpl; [exact IH|].
  now rewrite E.
Qed.

Lemma length_unexpired {T} (now : Z) (cache : Dict.t (CacheEntry T)) :
  length (List.filter (unexpired now) cache)
  = (length cache - expired_count now cache)%nat.
Proof.
  pose proof (filter_split_length (fun kv => expiresAt (snd kv) <? now) cache) as H.
  unfold expired_count, unexpired. cbn beta in H. lia.
Qed.

Lemma expired_count_zero {T} (now : Z) (cache : Dict.t (CacheEntry T)) :
  expired_count now cache = 0%nat -> forallb (unexpired now) cache = true.
Proof.
  unfold expired_count, unexpired.
  induction cache as [|kv cache IH]; simpl; [reflexivity|].
  destruct (expiresAt (snd kv) <? now); simpl; [discriminate|exact IH].
Qed.

(** The loop of the cleanup methods, the keys of [done] having been
    visited and those of [todo] being left: it removes the expired entries
    of [todo] and nothing else. *)
Lemma cleanup_keys_split {T} (now : Z) (todo : Dict.t (CacheEntry T)) :
  forall (done : Dict.t (CacheEntry T)) (flag : bool),
  NoDup (Dict.keys (done ++ todo)%list) ->
  cleanup_keys now (Dict.keys todo) (done ++ todo)%list flag
  = Some ((done ++ List.filter (unexpired now) todo)%list,
          flag || negb (forallb (unexpired now) todo)).
Proof.
  induction todo as [|[k e] rest IH]; intros done flag Hnd.
  - simpl. now rewrite orb_false_r.
  - unfold Dict.keys in Hnd. rewrite map_app in Hnd. cbn [map fst] in Hnd.
    apply NoDup_app in Hnd as (Hdone & Hdisj & Hrest).
    apply NoDup_cons in Hrest as [Hk Hrest].
    assert (Hk_done : ~ In k (Dict.keys done)).
    { intros Hin. apply list_elem_of_In in Hin. apply (Hdisj k Hin). left. }
    assert (Hk_rest : ~ In k (Dict.keys rest)).
    { intros Hin. apply Hk. now apply list_elem_of_In. }
    cbn [Dict.keys map fst cleanup_keys]. unfold Dict.get.
    rewrite assoc_app_notin by exact Hk_done.
    cbn [assoc]. rewrite String.eqb_refl.
    cbn [List.filter forallb].
    assert (Hu : unexpired now (k, e) = negb (expiresAt e <? now)) by reflexivity.
    rewrite !Hu.
    destruct (expiresAt e <? now) eqn:E; cbn [negb andb].
    + rewrite delete_app, delete_head, !delete_notin by assumption.
      fold (Dict.keys rest). rewrite IH.
      * f_equal. f_equal. now destruct flag.
      * unfold Dict.keys. rewrite map_app. apply NoDup_app. split; [exact Hdone|].
        split; [|exact Hrest].
        intros x Hx Hx'. apply (Hdisj x Hx). now right.
    + fold (Dict.keys rest).
      replace (done ++ (k, e) :: rest)%list with ((done ++ [(k, e)]) ++ rest)%list
        by now rewrite <- app_assoc.
      rewrite IH.
      * now rewrite <- app_assoc.
      * rewrite <- app_assoc. unfold Dict.keys. rewrite map_app. cbn [map fst app].
        apply NoDup_app. split; [exact Hdone|]. split; [exact Hdisj|].
        apply NoDup_cons. split; [exact Hk|exact Hrest].
Qed.

Lemma cleanup_keys_all {T} (now : Z) (cache : Dict.t (CacheEntry T)) :
  NoDup (Dict.keys cache) ->
  cleanup_keys now (Dict.keys cache) cache false
  = Some (List.filter (unexpired now) cache, negb (forallb (unexpired now) cache)).
Proof. intros H. exact (cleanup_keys_split now cache [] false H). Qed.

(** With no expired entry the loop deletes nothing and leaves the flag. *)
Lemma cleanup_keys_unexpired {T} (now : Z) (cache : Dict.t (CacheEntry T)) :
  forallb (unexpired now) cache = true ->
  forall keys flag,
    cleanup_keys now keys cache flag = None
    \/ cleanup_keys now keys cache flag = Some (cache, flag).
Proof.
  intros Hlive. induction keys as [|k keys IH]; intros flag; cbn [cleanup_keys].
  - now right.
  - unfold Dict.get. destruct (assoc k cache) as [e|] eqn:Hk.
    + apply assoc_In in Hk.
      rewrite forallb_forall in Hlive. specialize (Hlive _ Hk).
      unfold unexpired in Hlive. cbn [snd] in Hlive.
      destruct (expiresAt e <? now); [discriminate|]. apply IH.
    + destruct (Dict.inherited_name k); [apply IH|now left].
Qed.

Lemma cleanupLocationCache_spec (now : Z) (ls : LocalStorage) :
  NoDup (Dict.keys (getLocationCache ls)) ->
  writable ls = true ->
  let ls' := cleanupLocationCache now ls in
  getLocationCache ls' = List.filter (unexpired now) (getLocationCache ls)
  /\ weather_item ls' = weather_item ls
  /\ readable ls' = readable ls /\ writable ls' = writable ls.
Proof.
  intros Hnd Hw. cbn zeta. unfold cleanupLocationCache.
  rewrite cleanup_keys_all by exact Hnd.
  destruct (forallb (unexpired now) (getLocationCache ls)) eqn:Hall; cbn [negb].
  - rewrite forallb_filter_id by exact Hall. auto.
  - unfold setLocationItem. rewrite Hw.
    unfold getLocationCache at 1. cbn [readable location_item weather_item writable].
    destruct (readable ls) eqn:Hr; cbn [read_cache]; [auto|].
    unfold getLocationCache, read_cache in Hall. rewrite Hr in Hall. discriminate.
Qed.

Lemma cleanupWeatherCache_spec (now : Z) (ls : LocalStorage) :
  NoDup (Dict.keys (getWeatherCache ls)) ->
  writable ls = true ->
  let ls' := cleanupWeatherCache now ls in
  getWeatherCache ls' = List.filter (unexpired now) (getWeatherCache ls)
  /\ location_item ls' = location_item ls
  /\ readable ls' = readable ls /\ writable ls' = writable ls.
Proof.
  intros Hnd Hw. cbn zeta. unfold cleanupWeatherCache.
  rewrite cleanup_keys_all by exact Hnd.
  destruct (forallb (unexpired now) (getWeatherCache ls)) eqn:Hall; cbn [negb].
  - rewrite forallb_filter_id by exact Hall. auto.
  - unfold setWeatherItem. rewrite Hw.
    unfold getWeatherCache at 1. cbn [readable location_item weather_item writable].
    destruct (readable ls) eqn:Hr; cbn [read_cache]; [auto|].
    unfold getWeatherCache, read_cache in Hall. rewrite Hr in Hall. discriminate.
Qed.

Lemma cleanupExpiredEntries_spec (now : Z) (ls : LocalStorage) :
  NoDup (Dict.keys (getLocationCache ls)) ->
  NoDup (Dict.keys (getWeatherCache ls)) ->
  writable ls = true ->
  let ls' := cleanupExpiredEntries now ls in
  getLocationCache ls' = List.filter (unexpired now) (getLocationCache ls)
  /\ getWeatherCache ls' = List.filter (unexpired now) (getWeatherCache ls).
Proof.
  intros Hl Hwe Hw. cbn zeta. unfold cleanupExpiredEntries.
  destruct (cleanupLocationCache_spec now ls Hl Hw) as (Hloc & Hitem & Hr & Hw').
  set (ls1 := cleanupLocationCache now ls) in *.
  assert (Hcache : getWeatherCache ls1 = getWeatherCache ls).
  { unfold getWeatherCache. now rewrite Hitem, Hr. }
  destruct (cleanupWeatherCache_spec now ls1) as (Hwc & Hitem' & Hr' & _).
  { now rewrite Hcache. }
  { congruence. }
  split.
  - rewrite <- Hloc. unfold getLocationCache. now rewrite Hitem', Hr'.
  - now rewrite Hwc, Hcache.
Qed.

End MaintenanceFacts.

Section MaintenanceProperties.
Import CacheService CacheMaintenance.

(** X11.  [cleanupExpiredEntries] removes from both caches exactly the
    entries that have expired: what the storage holds afterwards is, for
    each cache, the entries that have not expired, in their order. *)
Theorem cleanup_removes_exactly_the_expired (now : Z) (ls : LocalStorage) :
  NoDup (Dict.keys (getLocationCache ls)) ->
  NoDup (Dict.keys (getWeatherCache ls)) ->
  writable ls = true ->
  let ls' := cleanupExpiredEntries now ls in
  getLocationCache ls' = List.filter (unexpired now) (getLocationCache ls)
  /\ getWeatherCache ls' = List.filter (unexpired now) (getWeatherCache ls).
Proof. apply MaintenanceFacts.cleanupExpiredEntries_spec. Qed.

Lemma cleanup_removes_exactly_the_expired_witness :
  getLocationCache (cleanupExpiredEntries 1705320000001 CacheScenario.stale) = []
  /\ getWeatherCache (cleanupExpiredEntries 1705320000001 CacheScenario.stale) = [].
Proof.
  apply (cleanup_removes_exactly_the_expired 1705320000001 CacheScenario.stale).
  - apply NoDup_cons. split; [apply not_elem_of_nil|apply NoDup_nil; exact I].
  - apply NoDup_cons. split; [apply not_elem_of_nil|apply NoDup_nil; exact I].
  - reflexivity.
Defined.

(** X12.  After [cleanupExpiredEntries], [getCacheStats] at the same clock
    reading reports no expired entry, and each size is the size before
    less the number of entries reported expired before. *)
Theorem stats_after_cleanup (now : Z) (ls : LocalStorage) :
  NoDup (Dict.keys (getLocationCache ls)) ->
  NoDup (Dict.keys (getWeatherCache ls)) ->
  writable ls = true ->
  let before := getCacheStats now ls in
  let after := getCacheStats now (cleanupExpiredEntries now ls) in
  locationCacheExpired after = 0%nat
  /\ weatherCacheExpired after = 0%nat
  /\ locationCacheSize after = (locationCacheSize before - locationCacheExpired before)%nat
  /\ weatherCacheSize after = (weatherCacheSize before - weatherCacheExpired before)%nat.
Proof.
  intros Hl Hwe Hw. cbn zeta.
  destruct (MaintenanceFacts.cleanupExpiredEntries_spec now ls Hl Hwe Hw) as [Hloc Hwc].
  unfold getCacheStats.
  cbn [locationCacheExpired weatherCacheExpired locationCacheSize weatherCacheSize].
  rewrite Hloc, Hwc. unfold Dict.keys. rewrite !length_map.
  rewrite !MaintenanceFacts.expired_count_unexpired, !MaintenanceFacts.length_unexpired.
  auto.
Qed.

Lemma stats_after_cleanup_witness :
  let before := getCacheStats 1705320000001 CacheScenario.stale in
  let after :=
    getCacheStats 1705320000001 (cleanupExpiredEntries 1705320000001 CacheScenario.stale) in
  locationCacheExpired after = 0%nat
  /\ weatherCacheExpired after = 0%nat
  /\ locationCacheSize after = (locationCacheSize before - locationCacheExpired before)%nat
  /\ weatherCacheSize after = (weatherCacheSize before - weatherCacheExpired before)%nat.
Proof.
  apply (stats_after_cleanup 1705320000001 CacheScenario.stale).
  - apply NoDup_cons. split; [apply not_elem_of_nil|apply NoDup_nil; exact I].
  - apply NoDup_cons. split; [apply not_elem_of_nil|apply NoDup_nil; exact I].
  - reflexivity.
Defined.

(** X13.  When no entry has expired, [cleanupExpiredEntries] writes
    nothing: the storage is left exactly as it was. *)
Theorem cleanup_without_expired_entries_writes_nothing (now : Z) (ls : LocalStorage) :
  expired_count now (getLocationCache ls) = 0%nat ->
  expired_count now (getWeatherCache ls) = 0%nat ->
  cleanupExpiredEntries now ls = ls.
Proof.
  intros Hl Hwe.
  assert (H1 : cleanupLocationCache now ls = ls).
  { unfold cleanupLocationCache.
    destruct (MaintenanceFacts.cleanup_keys_unexpired now (getLocationCache ls)
                (MaintenanceFacts.expired_count_zero _ _ Hl)
                (Dict.keys (getLocationCache ls)) false) as [H|H]; now rewrite H. }
  unfold cleanupExpiredEntries. rewrite H1.
  unfold cleanupWeatherCache.
  destruct (MaintenanceFacts.cleanup_keys_unexpired now (getWeatherCache ls)
              (MaintenanceFacts.expired_count_zero _ _ Hwe)
              (Dict.keys (getWeatherCache ls)) false) as [H|H]; now rewrite H.
Qed.

Lemma cleanup_without_expired_entries_writes_nothing_witness :
  cleanupExpiredEntries 1705320000000 CacheScenario.stale = CacheScenario.stale.
Proof.
  apply (cleanup_without_expired_entries_writes_nothing 1705320000000 CacheScenario.stale).
  - reflexivity.
  - reflexivity.
Defined.

End MaintenanceProperties.

Module EvictionFacts.
Import CacheService DictFacts CacheFacts.

Lemma sorted_app_le {T} (pre suf : list (string * CacheEntry T)) :
  StronglySorted ts_le (pre ++ suf)%list ->
  forall a b, In a pre -> In b suf -> ts_le a b.
Proof.
  induction pre as [|x pre IH]; simpl; intros Hs a b Ha Hb; [tauto|].
  inversion Hs as [|? ? Hs' Hall]; subst.
  destruct Ha as [<-|Ha].
  - rewrite List.Forall_forall in Hall. apply Hall. apply in_or_app. now right.
  - now apply IH.
Qed.

Lemma NoDup_Permutation {A} (l l' : list A) :
  Permutation l l' -> NoDup l -> NoDup l'.
Proof. intros H. now rewrite H. Qed.

Lemma keys_replace {A} (k : string) (v : A) (o : Dict.t A) :
  Dict.keys (Dict.replace k v o) = Dict.keys o.
Proof.
  unfold Dict.keys. induction o as [|[k' v'] o IH]; simpl; [reflexivity|].
  destruct (String.eqb k k'); simpl; congruence.
Qed.

Lemma In_replace {A} (k : string) (v : A) (o : Dict.t A) kv :
  In kv (Dict.replace k v o) -> kv = (k, v) \/ In kv o.
Proof.
  induction o as [|[k' v'] o IH]; simpl; [tauto|].
  destruct (String.eqb k k') eqn:E; simpl.
  - apply String.eqb_eq in E. subst k'. intros [<-|H]; auto.
  - intros [<-|H]; auto. destruct (IH H); auto.
Qed.

Lemma In_set {A} (k : string) (v : A) (o : Dict.t A) kv :
  In kv (Dict.set k v o) -> kv = (k, v) \/ In kv o.
Proof.
  unfold Dict.set. destruct (assoc k o).
  - apply In_replace.
  - destruct (String.eqb k "__proto__"); [auto|].
    intros H. apply (Permutation_in _ (Permutation_sym (insert_new_Permutation k v o))) in H.
    destruct H as [<-|H]; auto.
Qed.

Lemma NoDup_keys_set {A} (k : string) (v : A) (o : Dict.t A) :
  NoDup (Dict.keys o) -> NoDup (Dict.keys (Dict.set k v o)).
Proof.
  intros Hnd. unfold Dict.set. destruct (assoc k o) eqn:Hk.
  - now rewrite keys_replace.
  - destruct (String.eqb k "__proto__"); [exact Hnd|].
    apply (NoDup_Permutation (k :: Dict.keys o)).
    + exact (Permutation_map fst (insert_new_Permutation k v o)).
    + apply NoDup_cons. split; [|exact Hnd].
      rewrite list_elem_of_In. now apply assoc_None_keys.
Qed.

Lemma NoDup_keys_filter {A} (f : string * A -> bool) (o : Dict.t A) :
  NoDup (Dict.keys o) -> NoDup (Dict.keys (List.filter f o)).
Proof.
  unfold Dict.keys. induction o as [|x o IH]; simpl; intros Hnd; [exact Hnd|].
  apply NoDup_cons in Hnd as [Hx Hnd].
  destruct (f x); simpl; [|auto].
  apply NoDup_cons. split; [|auto].
  rewrite list_elem_of_In in *. intros Hin. apply Hx.
  apply in_map_iff in Hin as (y & Hy & Hin). apply List.filter_In in Hin as [Hin _].
  apply in_map_iff. eauto.
Qed.

Lemma In_assoc {A} (k : string) (v : A) (o : Dict.t A) :
  NoDup (Dict.keys o) -> In (k, v) o -> assoc k o = Some v.
Proof.
  unfold Dict.keys. induction o as [|[k' v'] o IH]; simpl; intros Hnd Hin; [tauto|].
  apply NoDup_cons in Hnd as [Hx Hnd].
  destruct Hin as [Heq|Hin].
  - injection Heq as -> ->. now rewrite String.eqb_refl.
  - destruct (String.eqb k k') eqn:E; [|auto].
    apply String.eqb_eq in E. subst k'. exfalso. apply Hx.
    rewrite list_elem_of_In. apply in_map_iff. exists (k, v). auto.
Qed.

Lemma assoc_replace_ne {A} (k k' : string) (v : A) (o : Dict.t A) :
  k' <> k -> assoc k' (Dict.replace k v o) = assoc k' o.
Proof.
  intros Hne. induction o as [|[k0 v0] o IH]; simpl; [reflexivity|].
  destruct (String.eqb k k0) eqn:E; simpl.
  - apply String.eqb_eq in E. subst k0.
    destruct (String.eqb k' k) eqn:E'; [|reflexivity].
    apply String.eqb_eq in E'. contradiction.
  - now rewrite IH.
Qed.

Lemma assoc_insert_new_ne {A} (k k' : string) (v : A) (o : Dict.t A) :
  k' <> k -> assoc k' (Dict.insert_new k v o) = assoc k' o.
Proof.
  intros Hne.
  assert (Hk : String.eqb k' k = false) by now apply String.eqb_neq.
  induction o as [|[k0 v0] o IH]; simpl.
  - now rewrite Hk.
  - destruct (Dict.array_index k) as [n|]; [destruct (Dict.array_index k0) as [n'|]|].
    + destruct (n <? n'); simpl; [now rewrite Hk|now rewrite IH].
    + simpl. now rewrite Hk.
    + simpl. now rewrite IH.
Qed.

Lemma assoc_set_ne {A} (k k' : string) (v : A) (o : Dict.t A) :
  k' <> k -> assoc k' (Dict.set k v o) = assoc k' o.
Proof.
  intros Hne. unfold Dict.set. destruct (assoc k o).
  - now apply assoc_replace_ne.
  - destruct (String.eqb k "__proto__"); [reflexivity|].
    now apply assoc_insert_new_ne.
Qed.

(** What [limitCacheSize] does to a cache over the bound: the entries
    sorted by age split into those deleted and the [maxSize] kept. *)
Lemma limitCacheSize_split {T} (cache : Dict.t (CacheEntry T)) (maxSize : nat) :
  NoDup (Dict.keys cache) ->
  (maxSize < length cache)%nat ->
  exists pre suf,
    sort_by_timestamp cache = (pre ++ suf)%list
    /\ length suf = maxSize
    /\ limitCacheSize cache maxSize
       = List.filter (fun kv => negb (existsb (String.eqb (fst kv)) (map fst pre))) cache
    /\ (forall kv, In kv cache -> (In kv (limitCacheSize cache maxSize) <-> In kv suf)).
Proof.
  intros Hnd Hlen.
  set (sorted := sort_by_timestamp cache).
  set (n := (length cache - maxSize)%nat).
  pose proof (sort_by_timestamp_Permutation cache) as Hperm. fold sorted in Hperm.
  exists (firstn n sorted), (skipn n sorted).
  assert (Hsplit : sorted = (firstn n sorted ++ skipn n sorted)%list)
    by (symmetry; apply firstn_skipn).
  assert (Hlim : limitCacheSize cache maxSize
                 = List.filter (fun kv => negb (existsb (String.eqb (fst kv))
                                                   (map fst (firstn n sorted)))) cache).
  { unfold limitCacheSize.
    replace (length cache <=? maxSize)%nat with false
      by (symmetry; apply Nat.leb_gt; lia).
    apply fold_delete_filter. }
  split; [exact Hsplit|]. split.
  { rewrite length_skipn. rewrite <- (Permutation_length Hperm). subst n. lia. }
  split; [exact Hlim|].
  intros kv Hin. rewrite Hlim.
  assert (Hnd' : NoDup (map fst (firstn n sorted) ++ map fst (skipn n sorted))).
  { rewrite <- map_app, <- Hsplit.
    apply (NoDup_Permutation (Dict.keys cache)); [|exact Hnd].
    now apply Permutation_map. }
  apply NoDup_app in Hnd' as (_ & Hdisj & _).
  assert (Hin' : In kv (firstn n sorted ++ skipn n sorted)).
  { rewrite <- Hsplit. now apply (Permutation_in _ Hperm). }
  rewrite List.filter_In. split.
  - intros [_ Hf]. apply negb_true_iff in Hf.
    apply in_app_or in Hin' as [Hpre|Hsuf]; [|exact Hsuf].
    exfalso. apply Bool.not_true_iff_false in Hf. apply Hf.
    apply existsb_exists. exists (fst kv). split; [|apply String.eqb_refl].
    apply in_map_iff. eauto.
  - intros Hsuf. split; [exact Hin|]. apply negb_true_iff.
    apply Bool.not_true_iff_false. intros Hex.
    apply existsb_exists in Hex as (k & Hk & Heq). apply String.eqb_eq in Heq. subst k.
    apply (Hdisj (fst kv)).
    + now apply list_elem_of_In.
    + apply list_elem_of_In. apply in_map_iff. eauto.
Qed.

End EvictionFacts.

Section EvictionProperties.
Import CacheService.

(** X14.  [limitCacheSize], for any cache and bound: afterwards the cache
    has the smaller of its former size and the bound; nothing is added;
    and every entry deleted is at least as old as every entry kept. *)
Theorem eviction_keeps_the_newest {T} (cache : Dict.t (CacheEntry T)) (maxSize : nat) :
  NoDup (Dict.keys cache) ->
  let kept := limitCacheSize cache maxSize in
  length kept = Nat.min (length cache) maxSize
  /\ (forall kv, In kv kept -> In kv cache)
  /\ (forall old new, In old cache -> ~ In old kept -> In new kept ->
        timestamp (snd old) <= timestamp (snd new)).
Proof.
  intros Hnd. cbn zeta.
  destruct (Nat.le_gt_cases (length cache) maxSize) as [Hle|Hgt].
  - assert (Hid : limitCacheSize cache maxSize = cache).
    { unfold limitCacheSize.
      now replace (length cache <=? maxSize)%nat with true
        by (symmetry; apply Nat.leb_le; lia). }
    rewrite Hid. split; [lia|]. split; [auto|]. intros old new Hold Hnot. contradiction.
  - destruct (EvictionFacts.limitCacheSize_split cache maxSize Hnd Hgt)
      as (pre & suf & Hsort & Hlen & Hlim & Hkept).
    pose proof (CacheFacts.sort_by_timestamp_Permutation cache) as Hperm.
    pose proof (CacheFacts.sort_by_timestamp_sorted cache) as Hsorted.
    rewrite Hsort in Hperm, Hsorted.
    assert (Hin : forall kv, In kv (limitCacheSize cache maxSize) -> In kv cache).
    { intros kv. rewrite Hlim. rewrite List.filter_In. tauto. }
    split; [|split; [exact Hin|]].
    + rewrite Hlim.
      rewrite (DictFacts.filter_length_Permutation _ _ _ Hperm).
      rewrite List.filter_app, length_app.
      rewrite DictFacts.filter_own_keys_nil
        by (intros kv Hkv; apply in_map_iff; eauto).
      assert (Hall : List.filter
                       (fun kv => negb (existsb (String.eqb (fst kv)) (map fst pre))) suf
                     = suf).
      { apply MaintenanceFacts.forallb_filter_id. apply forallb_forall. intros kv Hkv.
        assert (Hc : In kv cache).
        { apply (Permutation_in _ (Permutation_sym Hperm)). apply in_or_app. now right. }
        apply (Hkept kv Hc) in Hkv. rewrite Hlim in Hkv.
        apply List.filter_In in Hkv. tauto. }
      rewrite Hall. cbn [length]. lia.
    + intros old new Hold Hnot Hnew.
      apply (EvictionFacts.sorted_app_le pre suf Hsorted).
      * assert (Hps : In old (pre ++ suf)) by now apply (Permutation_in _ Hperm).
        apply in_app_or in Hps as [Hp|Hs]; [exact Hp|].
        exfalso. apply Hnot. now apply Hkept.
      * apply Hkept; [now apply Hin|exact Hnew].
Qed.

Lemma eviction_keeps_the_newest_witness :
  let kept := limitCacheSize MoreScenarios.three_searches 2 in
  length kept = Nat.min (length MoreScenarios.three_searches) 2
  /\ (forall kv, In kv kept -> In kv MoreScenarios.three_searches)
  /\ (forall old new, In old MoreScenarios.three_searches -> ~ In old kept ->
        In new kept -> timestamp (snd old) <= timestamp (snd new)).
Proof.
  apply (eviction_keeps_the_newest MoreScenarios.three_searches 2).
  apply (bool_decide_unpack _). vm_compute. exact I.
Defined.

(** X15.  A search cached at a clock reading later than the timestamps of
    all stored entries is never the one evicted, however full the cache:
    what the storage holds afterwards has the new entry under the
    normalized query, among at most 50 entries. *)
Theorem newest_search_is_never_evicted (query : string) (locations : list Location)
    (now : Z) (ls : LocalStorage) :
  normalizeQuery query <> "__proto__" ->
  writable ls = true ->
  NoDup (Dict.keys (getLocationCache ls)) ->
  (forall kv, In kv (getLocationCache ls) -> timestamp (snd kv) < now) ->
  exists cache',
    location_item (cacheLocationSearch query locations now ls) = Blob cache'
    /\ assoc (normalizeQuery query) cache'
       = Some {| data := locations; timestamp := now;
                 expiresAt := now + LOCATION_CACHE_DURATION |}
    /\ (length cache' <= 50)%nat.
Proof.
  intros Hproto Hw Hnd Hold.
  unfold cacheLocationSearch, setLocationItem. rewrite Hw. cbn [location_item].
  set (key := normalizeQuery query) in *.
  set (entry := {| data := locations; timestamp := now;
                   expiresAt := now + LOCATION_CACHE_DURATION |}).
  set (cache := Dict.set key entry (getLocationCache ls)).
  assert (Hnd' : NoDup (Dict.keys cache)) by now apply EvictionFacts.NoDup_keys_set.
  assert (Hentry : In (key, entry) cache).
  { apply DictFacts.assoc_In. now apply DictFacts.assoc_set_eq. }
  assert (Hothers : forall kv, In kv cache -> kv = (key, entry) \/ timestamp (snd kv) < now).
  { intros kv Hkv. apply EvictionFacts.In_set in Hkv as [->|Hkv]; auto. }
  assert (Hkept : In (key, entry) (limitCacheSize cache MAX_LOCATION_CACHE_SIZE)).
  { destruct (Nat.le_gt_cases (length cache) MAX_LOCATION_CACHE_SIZE) as [Hle|Hgt].
    - unfold limitCacheSize.
      now replace (length cache <=? MAX_LOCATION_CACHE_SIZE)%nat with true
        by (symmetry; apply Nat.leb_le; lia).
    - destruct (EvictionFacts.limitCacheSize_split cache _ Hnd' Hgt)
        as (pre & suf & Hsort & Hlen & Hlim & Hiff).
      apply (Hiff _ Hentry).
      pose proof (CacheFacts.sort_by_timestamp_Permutation cache) as Hperm.
      pose proof (CacheFacts.sort_by_timestamp_sorted cache) as Hsorted.
      rewrite Hsort in Hperm, Hsorted.
      assert (Hps : In (key, entry) (pre ++ suf)) by now apply (Permutation_in _ Hperm).
      apply in_app_or in Hps as [Hp|Hs]; [|exact Hs].
      destruct suf as [|b suf]; [discriminate Hlen|].
      pose proof (EvictionFacts.sorted_app_le pre (b :: suf) Hsorted _ b Hp
                    (or_introl eq_refl)) as Hle.
      unfold ts_le in Hle. cbn [snd timestamp entry] in Hle.
      assert (Hb : In b cache).
      { apply (Permutation_in _ (Permutation_sym Hperm)). apply in_or_app. right. now left. }
      destruct (Hothers b Hb) as [->|Hlt]; [now left|lia]. }
  exists (limitCacheSize cache MAX_LOCATION_CACHE_SIZE).
  split; [reflexivity|]. split.
  - apply EvictionFacts.In_assoc; [|exact Hkept].
    unfold limitCacheSize.
    destruct (length cache <=? MAX_LOCATION_CACHE_SIZE)%nat; [exact Hnd'|].
    rewrite DictFacts.fold_delete_filter. now apply EvictionFacts.NoDup_keys_filter.
  - apply CacheFacts.limitCacheSize_length.
Qed.

Lemma newest_search_is_never_evicted_witness :
  exists cache',
    location_item (cacheLocationSearch "  new   york " [Scenario.london] 1705320500000
                     CacheScenario.full) = Blob cache'
    /\ assoc (normalizeQuery "  new   york ") cache'
       = Some {| data := [Scenario.london]; timestamp := 1705320500000;
                 expiresAt := 1705320500000 + LOCATION_CACHE_DURATION |}
    /\ (length cache' <= 50)%nat.
Proof.
  apply (newest_search_is_never_evicted "  new   york " [Scenario.london]
           1705320500000 CacheScenario.full).
  - vm_compute. discriminate.
  - reflexivity.
  - apply (bool_decide_unpack _). vm_compute. exact I.
  - apply List.Forall_forall. apply (bool_decide_unpack _). vm_compute. exact I.
Defined.

End EvictionProperties.

(* ===================================================================== *)
(** * The services and their caches *)
(* ===================================================================== *)

Module ServiceFacts.
Import CacheService.

(** For data that their JSON text gives back unchanged, a lookup finds what
    was written. *)
Lemma weather_read_your_write (config : Config) (lat lon lat' lon' : float)
    (cur : CurrentWeatherData) (fc : list ForecastData) (now later : Z)
    (ls : LocalStorage) :
  JSON.roundtrip_weather {| current := cur; forecast := fc |}
  = {| current := cur; forecast := fc |} ->
  readable ls = true ->
  writable ls = true ->
  getWeatherCacheKey lat' lon' = getWeatherCacheKey lat lon ->
  later <= now + WEATHER_CACHE_DURATION config ->
  getCachedWeatherData lat' lon' later (cacheWeatherData config lat lon cur fc now ls)
  = (Data {| current := cur; forecast := fc |},
     cacheWeatherData config lat lon cur fc now ls).
Proof.
  intros _ Hr Hw Hkey Hlater.
  unfold getCachedWeatherData. rewrite Hkey.
  unfold cacheWeatherData, setWeatherItem. rewrite Hw.
  unfold getWeatherCache at 1. cbn [readable weather_item]. rewrite Hr. cbn [read_cache].
  unfold Dict.get.
  rewrite DictFacts.assoc_set_eq by apply WeatherFacts.weather_key_not_proto.
  cbn [expiresAt data].
  replace (now + WEATHER_CACHE_DURATION config <? later) with false
    by (symmetry; apply Z.ltb_ge; lia).
  reflexivity.
Qed.

(** A weather lookup changes neither what the storage permits nor, unless
    it deletes an expired entry, what it holds. *)
Lemma weather_lookup_flags (lat lon : float) (now : Z) (ls : LocalStorage) :
  let ls' := snd (getCachedWeatherData lat lon now ls) in
  readable ls' = readable ls /\ writable ls' = writable ls.
Proof.
  cbn zeta. unfold getCachedWeatherData.
  destruct (Dict.get _ _) as [entry| |]; cbn [snd]; auto.
  destruct (expiresAt entry <? now); cbn [snd]; auto.
  unfold setWeatherItem. destruct (writable ls) eqn:Hw; cbn [snd readable writable]; auto.
Qed.

Lemma location_lookup_flags (query : string) (now : Z) (ls : LocalStorage) :
  let ls' := snd (getCachedLocationSearch query now ls) in
  readable ls' = readable ls /\ writable ls' = writable ls
  /\ (length (getLocationCache ls') <= length (getLocationCache ls))%nat.
Proof.
  cbn zeta. unfold getCachedLocationSearch.
  destruct (Dict.get _ _) as [entry| |]; cbn [snd]; auto.
  destruct (expiresAt entry <? now); cbn [snd]; auto.
  unfold setLocationItem. destruct (writable ls) eqn:Hw; cbn [snd readable writable]; auto.
  split; [reflexivity|]. split; [reflexivity|].
  unfold getLocationCache at 1. cbn [readable location_item].
  unfold getLocationCache, read_cache. destruct (readable ls); [|cbn; lia].
  unfold Dict.delete. apply List.filter_length_le.
Qed.

Lemma location_hit_leaves_storage (query : string) (now : Z) (ls : LocalStorage) d :
  fst (getCachedLocationSearch query now ls) = Data d ->
  getCachedLocationSearch query now ls = (Data d, ls).
Proof.
  unfold getCachedLocationSearch.
  destruct (Dict.get _ _) as [entry| |]; cbn [fst]; try discriminate.
  destruct (expiresAt entry <? now).
  - destruct (setLocationItem _ _); discriminate.
  - cbn [fst]. now intros [= ->].
Qed.

Lemma weather_lookup_answer (lat lon : float) (now : Z) (ls : LocalStorage) :
  fst (getCachedWeatherData lat lon now ls)
  = match Dict.get (getWeatherCacheKey lat lon) (getWeatherCache ls) with
    | Dict.Own entry => if expiresAt entry <? now then Null else Data (data entry)
    | Dict.Inherited => Undefined
    | Dict.Missing => Null
    end.
Proof.
  unfold getCachedWeatherData.
  destruct (Dict.get _ _) as [entry| |]; cbn [fst]; try reflexivity.
  destruct (expiresAt entry <? now); [|reflexivity].
  destruct (setWeatherItem _ _); reflexivity.
Qed.

Lemma set_storage_id (w : World) : set_storage (storage w) w = w.
Proof. now destruct w. Qed.

(** A successful search that missed the cache has written its result:
    the world it leaves is the world the request left, with the result
    cached. *)
Lemma search_miss_shape (config : Config) (query : string) (w w' : World)
    (locations : list Location) :
  fst (getCachedLocationSearch (LocationService.sanitizeQuery query) (clock w) (storage w))
  = Null ->
  LocationService.searchLocations config query w = (Return (Some locations), w') ->
  exists w1,
    w' = set_storage
           (cacheLocationSearch (LocationService.sanitizeQuery query) locations
              (clock w1) (storage w1)) w1
    /\ storage w1
       = snd (getCachedLocationSearch (LocationService.sanitizeQuery query)
                (clock w) (storage w)).
Proof.
  intros Hmiss Hrun.
  set (sq := LocationService.sanitizeQuery query) in *.
  destruct (getCachedLocationSearch sq (clock w) (storage w)) as [c ls0] eqn:Hlookup.
  cbn [fst] in Hmiss. subst c. cbn [snd].
  unfold LocationService.searchLocations in Hrun. fold sq in Hrun.
  destruct (LocationService.isValidQuery sq); cbn [negb] in Hrun; [|discriminate].
  unfold Env.Date_now in Hrun. rewrite Hlookup in Hrun.
  rewrite WeatherFacts.try_catch_rethrow in Hrun.
  unfold bind in Hrun.
  pose proof (EngineFacts.handleFetch_storage LocationService.errorHandler
                (LocationService.buildSearchUrl config sq)
                "Location search" (set_storage ls0 w)) as Hframe.
  destruct (ErrorHandler.handleFetch LocationService.errorHandler
              (LocationService.buildSearchUrl config sq)
              "Location search" (set_storage ls0 w)) as [[response|t] w1]; [|discriminate].
  cbn [snd set_storage storage] in Hframe.
  exists w1. split; [|exact Hframe].
  unfold LocationService.process_response, bind, lift in Hrun.
  destruct (Http.json response) as [data|t]; [|discriminate].
  destruct (get_prop data "results") as [results|t]; [|discriminate].
  destruct (truthy results); cbn [negb] in Hrun.
  - destruct results; try discriminate.
    unfold ret, Env.Date_now in Hrun. now injection Hrun as <- <-.
  - unfold ret, Env.Date_now in Hrun. now injection Hrun as <- <-.
Qed.

(** Below the bound nothing is evicted: the storage holds the cache with
    the new entry set under the normalized query. *)
Lemma cacheLocationSearch_stored (query : string) (locations : list Location)
    (now : Z) (ls : LocalStorage) :
  writable ls = true ->
  (length (getLocationCache ls) < 50)%nat ->
  normalizeQuery query <> "__proto__" ->
  let entry := {| data := locations; timestamp := now;
                  expiresAt := now + LOCATION_CACHE_DURATION |} in
  location_item (cacheLocationSearch query locations now ls)
  = Blob (Dict.set (normalizeQuery query) entry (getLocationCache ls))
  /\ readable (cacheLocationSearch query locations now ls) = readable ls
  /\ assoc (normalizeQuery query)
       (Dict.set (normalizeQuery query) entry (getLocationCache ls)) = Some entry.
Proof.
  intros Hw Hlen Hproto entry.
  unfold cacheLocationSearch, setLocationItem. rewrite Hw. fold entry.
  unfold limitCacheSize.
  pose proof (DictFacts.length_set_le (normalizeQuery query) entry (getLocationCache ls))
    as Hset.
  replace (length (Dict.set (normalizeQuery query) entry (getLocationCache ls))
             <=? MAX_LOCATION_CACHE_SIZE)%nat with true
    by (symmetry; apply Nat.leb_le; unfold MAX_LOCATION_CACHE_SIZE; lia).
  cbn [location_item readable]. repeat split.
  now apply DictFacts.assoc_set_eq.
Qed.

(** A search whose key has an unexpired entry of its own is answered with
    that entry's data, and nothing else happens. *)
Lemma search_hit (config : Config) (query : string) (w : World)
    (entry : CacheEntry (list Location)) :
  LocationService.isValidQuery (LocationService.sanitizeQuery query) = true ->
  Dict.get (normalizeQuery (LocationService.sanitizeQuery query))
    (getLocationCache (storage w)) = Dict.Own entry ->
  clock w <= expiresAt entry ->
  LocationService.searchLocations config query w = (Return (Some (data entry)), w).
Proof.
  intros Hvalid Hget Hlive.
  unfold LocationService.searchLocations. rewrite Hvalid. cbn [negb].
  unfold getCachedLocationSearch, Env.Date_now. rewrite Hget.
  replace (expiresAt entry <? clock w) with false by (symmetry; apply Z.ltb_ge; lia).
  now rewrite set_storage_id.
Qed.

End ServiceFacts.

Section ServiceProperties.
Import CacheService.

(** X16.  The weather cache reads back what was written: after
    [cacheWeatherData] with data that their JSON text gives back
    unchanged (no NaN, infinity or negative zero), a lookup for any
    coordinates that round to the same key returns that pair until it
    expires and leaves the storage as it is; lookups under every other
    key answer as they did before, whatever was written. *)
Theorem weather_cache_reads_back_what_was_written (config : Config)
    (lat lon lat' lon' : float) (cur : CurrentWeatherData) (fc : list ForecastData)
    (now later : Z) (ls : LocalStorage) :
  JSON.roundtrip_weather {| current := cur; forecast := fc |}
  = {| current := cur; forecast := fc |} ->
  readable ls = true ->
  writable ls = true ->
  getWeatherCacheKey lat' lon' = getWeatherCacheKey lat lon ->
  later <= now + WEATHER_CACHE_DURATION config ->
  let ls' := cacheWeatherData config lat lon cur fc now ls in
  getCachedWeatherData lat' lon' later ls'
  = (Data {| current := cur; forecast := fc |}, ls')
  /\ forall lat2 lon2,
       getWeatherCacheKey lat2 lon2 <> getWeatherCacheKey lat lon ->
       fst (getCachedWeatherData lat2 lon2 later ls')
       = fst (getCachedWeatherData lat2 lon2 later ls).
Proof.
  intros Hjson Hr Hw Hkey Hlater. cbn zeta. split.
  - now apply ServiceFacts.weather_read_your_write.
  - intros lat2 lon2 Hne. rewrite !ServiceFacts.weather_lookup_answer.
    assert (Hget : Dict.get (getWeatherCacheKey lat2 lon2)
                     (getWeatherCache (cacheWeatherData config lat lon cur fc now ls))
                   = Dict.get (getWeatherCacheKey lat2 lon2) (getWeatherCache ls)).
    { unfold cacheWeatherData, setWeatherItem. rewrite Hw.
      unfold getWeatherCache at 1. cbn [readable weather_item]. rewrite Hr.
      cbn [read_cache]. unfold Dict.get.
      now rewrite EvictionFacts.assoc_set_ne by exact Hne. }
    now rewrite Hget.
Qed.

Lemma weather_cache_reads_back_what_was_written_witness :
  let ls' :=
    cacheWeatherData default_config 51.5 (-0.1278)
      (current MoreScenarios.complete_weather) (forecast MoreScenarios.complete_weather)
      1705320000000 CacheScenario.stale in
  getCachedWeatherData 51.5049 (-0.13) 1705320600000 ls'
  = (Data {| current := current MoreScenarios.complete_weather;
             forecast := forecast MoreScenarios.complete_weather |}, ls')
  /\ forall lat2 lon2,
       getWeatherCacheKey lat2 lon2 <> getWeatherCacheKey 51.5 (-0.1278) ->
       fst (getCachedWeatherData lat2 lon2 1705320600000 ls')
       = fst (getCachedWeatherData lat2 lon2 1705320600000 CacheScenario.stale).
Proof.
  assert (Hjson : JSON.roundtrip_weather
                    {| current := current MoreScenarios.complete_weather;
                       forecast := forecast MoreScenarios.complete_weather |}
                  = {| current := current MoreScenarios.complete_weather;
                       forecast := forecast MoreScenarios.complete_weather |})
    by (vm_compute; reflexivity).
  assert (Hkey : getWeatherCacheKey 51.5049 (-0.13) = getWeatherCacheKey 51.5 (-0.1278))
    by (vm_compute; reflexivity).
  assert (Hlater : 1705320600000 <= 1705320000000 + WEATHER_CACHE_DURATION default_config)
    by (vm_compute; discriminate).
  exact (weather_cache_reads_back_what_was_written default_config 51.5 (-0.1278)
           51.5049 (-0.13) (current MoreScenarios.complete_weather)
           (forecast MoreScenarios.complete_weather) 1705320000000 1705320600000
           CacheScenario.stale Hjson eq_refl eq_refl Hkey Hlater).
Defined.

(** X19.  Weather fetched by [getCompleteWeatherData] is then served from
    the cache: where the storage can be read and written and the data
    fetched are data that their JSON text gives back unchanged (no NaN,
    infinity or negative zero), until the entry expires each of the three
    accessors, called with any valid coordinates that round to the same
    key, returns the cached part and leaves the world as it is, sending
    no request, even offline or with the rate limit used up. *)
Theorem complete_weather_is_then_served_from_the_cache
    (config : Config) (Date_getTime : JsValue -> option Z)
    (lat lon lat' lon' : float) (w w' w2 : World) (d : WeatherCacheData) :
  readable (storage w) = true ->
  writable (storage w) = true ->
  fst (getCachedWeatherData lat lon (clock w) (storage w)) = Null ->
  WeatherService.getCompleteWeatherData config Date_getTime (JNum lat) (JNum lon) w
  = (Return (Some d), w') ->
  JSON.roundtrip_weather d = d ->
  WeatherService.validateCoordinates (JNum lat') (JNum lon') = Return tt ->
  getWeatherCacheKey lat' lon' = getWeatherCacheKey lat lon ->
  storage w2 = storage w' ->
  clock w2 <= clock w' + WEATHER_CACHE_DURATION config ->
  WeatherService.getCurrentWeather config Date_getTime (JNum lat') (JNum lon') w2
  = (Return (current d), w2)
  /\ WeatherService.getForecast config Date_getTime (JNum lat') (JNum lon') w2
     = (Return (forecast d), w2)
  /\ WeatherService.getCompleteWeatherData config Date_getTime (JNum lat') (JNum lon') w2
     = (Return (Some d), w2).
Proof.
  intros Hr Hw Hmiss Hrun Hjson Hvalid Hkey Hstorage Hclock.
  destruct (getCachedWeatherData lat lon (clock w) (storage w)) as [c ls0] eqn:Hlookup.
  cbn [fst] in Hmiss. subst c.
  pose proof (ServiceFacts.weather_lookup_flags lat lon (clock w) (storage w)) as Hflags.
  cbn zeta in Hflags. rewrite Hlookup in Hflags. cbn [snd] in Hflags.
  destruct Hflags as [Hr0 Hw0].
  (* the shape of the successful call *)
  unfold WeatherService.getCompleteWeatherData, bind, lift in Hrun.
  cbn [WeatherService.validateCoordinates] in Hrun.
  destruct ((lat <? -90)%float || (90 <? lat)%float); [discriminate|].
  destruct ((lon <? -180)%float || (180 <? lon)%float); [discriminate|].
  cbn [LocationService.as_number] in Hrun.
  unfold WeatherService.cache_lookup, Env.Date_now in Hrun. rewrite Hlookup in Hrun.
  rewrite WeatherFacts.try_catch_rethrow in Hrun.
  unfold WeatherService.fetch_complete, bind, lift in Hrun.
  pose proof (EngineFacts.handleFetch_storage WeatherService.errorHandler
                (WeatherService.buildCompleteWeatherUrl config lat lon)
                "Complete weather" (set_storage ls0 w)) as Hframe.
  destruct (ErrorHandler.handleFetch WeatherService.errorHandler
              (WeatherService.buildCompleteWeatherUrl config lat lon)
              "Complete weather" (set_storage ls0 w)) as [[response|t] w1]; [|discriminate].
  cbn [snd set_storage storage] in Hframe.
  destruct (Http.json response) as [data|t]; [|discriminate].
  destruct (get_prop data "current") as [cur|t]; [|discriminate].
  destruct (negb (truthy cur) || negb (truthy (prop data "daily"))); [discriminate|].
  unfold Env.Date_now in Hrun.
  destruct (WeatherService.transformForecastData Date_getTime (prop data "daily") (clock w1))
    as [fc|t]; [|discriminate].
  unfold WeatherService.cache_both, ret, Env.Date_now in Hrun.
  injection Hrun as <- <-.
  cbn [storage set_storage clock current forecast] in *.
  set (c := WeatherService.transformCurrentWeatherData Date_getTime cur (clock w1)) in *.
  assert (Hread : getCachedWeatherData lat' lon' (clock w2) (storage w2)
                  = (Data {| current := c; forecast := fc |}, storage w2)).
  { rewrite Hstorage.
    apply ServiceFacts.weather_read_your_write; [exact Hjson|congruence..]. }
  unfold WeatherService.getCurrentWeather, WeatherService.getForecast,
    WeatherService.getCompleteWeatherData, bind, lift.
  rewrite Hvalid. cbn [LocationService.as_number].
  unfold WeatherService.cache_lookup, Env.Date_now. rewrite Hread.
  rewrite ServiceFacts.set_storage_id. unfold ret. cbn [current forecast].
  repeat split.
Qed.

Lemma complete_weather_is_then_served_from_the_cache_witness :
  let w := Scenario.answering [Scenario.ok_json Scenario.current_and_daily] in
  let w' :=
    snd (WeatherService.getCompleteWeatherData default_config Scenario.Date_getTime
           (JNum 51.5) (JNum (-0.125)) w) in
  let w2 := set_online false w' in
  WeatherService.getCurrentWeather default_config Scenario.Date_getTime
    (JNum 51.5049) (JNum (-0.1201)) w2
  = (Return (current MoreScenarios.complete_weather), w2)
  /\ WeatherService.getForecast default_config Scenario.Date_getTime
       (JNum 51.5049) (JNum (-0.1201)) w2
     = (Return (forecast MoreScenarios.complete_weather), w2)
  /\ WeatherService.getCompleteWeatherData default_config Scenario.Date_getTime
       (JNum 51.5049) (JNum (-0.1201)) w2
     = (Return (Some MoreScenarios.complete_weather), w2).
Proof.
  intros w w' w2.
  assert (Hrun : WeatherService.getCompleteWeatherData default_config Scenario.Date_getTime
                   (JNum 51.5) (JNum (-0.125)) w
                 = (Return (Some MoreScenarios.complete_weather), w'))
    by (vm_compute; reflexivity).
  assert (Hvalid : WeatherService.validateCoordinates (JNum 51.5049) (JNum (-0.1201))
                   = Return tt) by (vm_compute; reflexivity).
  assert (Hkey : getWeatherCacheKey 51.5049 (-0.1201) = getWeatherCacheKey 51.5 (-0.125))
    by (vm_compute; reflexivity).
  assert (Hclock : clock w2 <= clock w' + WEATHER_CACHE_DURATION default_config)
    by (vm_compute; discriminate).
  assert (Hjson : JSON.roundtrip_weather MoreScenarios.complete_weather
                  = MoreScenarios.complete_weather) by (vm_compute; reflexivity).
  exact (complete_weather_is_then_served_from_the_cache default_config
           Scenario.Date_getTime 51.5 (-0.125) 51.5049 (-0.1201) w w' w2
           MoreScenarios.complete_weather eq_refl eq_refl eq_refl Hrun Hjson Hvalid Hkey
           eq_refl Hclock).
Defined.

(** X20.  Locations fetched by [searchLocations] (an empty list included)
    are then served from the cache: where the storage can be read and
    written, the cache held fewer than 50 entries, the normalized query
    is not [__proto__] and the locations are locations that their JSON
    text gives back unchanged (no infinite number, no negative zero), a
    search within 24 hours under any spelling with the same normalized
    form returns the same list and leaves the world as it is, sending no
    request, even offline. *)
Theorem search_is_then_served_from_the_cache (config : Config)
    (query query' : string) (w w' w2 : World) (locations : list Location) :
  readable (storage w) = true ->
  writable (storage w) = true ->
  (length (getLocationCache (storage w)) < 50)%nat ->
  fst (getCachedLocationSearch (LocationService.sanitizeQuery query) (clock w) (storage w))
  = Null ->
  LocationService.searchLocations config query w = (Return (Some locations), w') ->
  Forall JSON.location_survives locations ->
  LocationService.isValidQuery (LocationService.sanitizeQuery query') = true ->
  normalizeQuery (LocationService.sanitizeQuery query')
  = normalizeQuery (LocationService.sanitizeQuery query) ->
  normalizeQuery (LocationService.sanitizeQuery query) <> "__proto__" ->
  storage w2 = storage w' ->
  clock w2 <= clock w' + LOCATION_CACHE_DURATION ->
  LocationService.searchLocations config query' w2 = (Return (Some locations), w2).
Proof.
  intros Hr Hw Hlen Hmiss Hrun Hjson Hvalid Hkey Hproto Hstorage Hclock.
  destruct (ServiceFacts.search_miss_shape config query w w' locations Hmiss Hrun)
    as (w1 & -> & Hframe).
  pose proof (ServiceFacts.location_lookup_flags (LocationService.sanitizeQuery query)
                (clock w) (storage w)) as Hflags.
  cbn zeta in Hflags. rewrite <- Hframe in Hflags. destruct Hflags as (Hr0 & Hw0 & Hlen0).
  cbn [storage set_storage clock] in *.
  assert (Hfound : fst (getCachedLocationSearch (LocationService.sanitizeQuery query')
                          (clock w2) (storage w2)) = Data locations).
  { rewrite Hstorage.
    apply cached_search_is_found;
      [exact Hjson|congruence|exact Hproto|congruence|congruence|lia|exact Hclock]. }
  apply ServiceFacts.location_hit_leaves_storage in Hfound.
  unfold LocationService.searchLocations. rewrite Hvalid. cbn [negb].
  unfold Env.Date_now. rewrite Hfound. now rewrite ServiceFacts.set_storage_id.
Qed.

Lemma search_is_then_served_from_the_cache_witness :
  let w := Scenario.answering [Scenario.ok_json MoreScenarios.london_results] in
  let w' := snd (LocationService.searchLocations default_config "  London " w) in
  let w2 := set_online false w' in
  LocationService.searchLocations default_config "LONDON" w2
  = (Return (Some [MoreScenarios.london_found]), w2).
Proof.
  intros w w' w2.
  assert (Hrun : LocationService.searchLocations default_config "  London " w
                 = (Return (Some [MoreScenarios.london_found]), w'))
    by (vm_compute; reflexivity).
  assert (Hlen : (length (getLocationCache (storage w)) < 50)%nat) by (vm_compute; lia).
  assert (Hkey : normalizeQuery (LocationService.sanitizeQuery "LONDON")
                 = normalizeQuery (LocationService.sanitizeQuery "  London "))
    by (vm_compute; reflexivity).
  assert (Hproto : normalizeQuery (LocationService.sanitizeQuery "  London ")
                   <> "__proto__") by (vm_compute; discriminate).
  assert (Hclock : clock w2 <= clock w' + LOCATION_CACHE_DURATION)
    by (vm_compute; discriminate).
  assert (Hjson : Forall JSON.location_survives [MoreScenarios.london_found]).
  { apply Forall_cons. split; [|apply Forall_nil; exact I].
    vm_compute. repeat split. }
  exact (search_is_then_served_from_the_cache default_config "  London " "LONDON"
           w w' w2 [MoreScenarios.london_found] eq_refl eq_refl Hlen eq_refl Hrun
           Hjson eq_refl Hkey Hproto eq_refl Hclock).
Defined.

(** X21.  A search whose normalized query is a member name of
    [Object.prototype] ([constructor], [__proto__]) and has no entry in
    the cache is answered with [undefined]: no request is sent and the
    world is left as it is. *)
Theorem prototype_member_names_are_answered_with_undefined (config : Config)
    (query : string) (w : World) :
  LocationService.isValidQuery (LocationService.sanitizeQuery query) = true ->
  Dict.inherited_name (normalizeQuery (LocationService.sanitizeQuery query)) = true ->
  assoc (normalizeQuery (LocationService.sanitizeQuery query))
    (getLocationCache (storage w)) = None ->
  LocationService.searchLocations config query w = (Return None, w).
Proof.
  intros Hvalid Hname Hnone.
  unfold LocationService.searchLocations. rewrite Hvalid. cbn [negb].
  unfold getCachedLocationSearch, Dict.get. rewrite Hnone, Hname.
  now rewrite ServiceFacts.set_storage_id.
Qed.

Lemma prototype_member_names_are_answered_with_undefined_witness :
  LocationService.searchLocations default_config " Constructor "
    (Scenario.answering [Scenario.ok_json MoreScenarios.london_results])
  = (Return None, Scenario.answering [Scenario.ok_json MoreScenarios.london_results]).
Proof.
  apply (prototype_member_names_are_answered_with_undefined default_config " Constructor "
           (Scenario.answering [Scenario.ok_json MoreScenarios.london_results])).
  - vm_compute. reflexivity.
  - vm_compute. reflexivity.
  - reflexivity.
Defined.

End ServiceProperties.

(* ===================================================================== *)
(** * The three spellings of one search *)
(* ===================================================================== *)

Section SpellingClaim.
Import CacheService.

(** C9.  The three spellings of the specification are sanitized and
    normalized to the one cache key ["new york"], and that is the key
    [searchLocations] reads and writes: a search under one of them that
    finds nothing under ["new york"] and succeeds leaves its result in
    the storage under ["new york"], and a search under any of them on
    that storage, before the entry expires, finds this entry under
    ["new york"] and is answered with its data, the world staying as it
    is (no request is sent). *)
Theorem C9_spellings_share_one_key (config : Config) (q q' : string)
    (w w' w2 : World) (locations : list Location) :
  In q CacheScenario.spellings ->
  In q' CacheScenario.spellings ->
  readable (storage w) = true ->
  writable (storage w) = true ->
  (length (getLocationCache (storage w)) < 50)%nat ->
  Dict.get "new york" (getLocationCache (storage w)) = Dict.Missing ->
  LocationService.searchLocations config q w = (Return (Some locations), w') ->
  storage w2 = storage w' ->
  clock w2 <= clock w' + LOCATION_CACHE_DURATION ->
  normalizeQuery (LocationService.sanitizeQuery q) = "new york"
  /\ normalizeQuery (LocationService.sanitizeQuery q') = "new york"
  /\ (exists cache',
        location_item (storage w') = Blob cache'
        /\ assoc "new york" cache'
           = Some {| data := locations; timestamp := clock w';
                     expiresAt := clock w' + LOCATION_CACHE_DURATION |})
  /\ (exists entry,
        Dict.get "new york" (getLocationCache (storage w2)) = Dict.Own entry
        /\ timestamp entry = clock w'
        /\ LocationService.searchLocations config q' w2
           = (Return (Some (data entry)), w2)).
Proof.
  intros Hq Hq' Hr Hw Hlen Hmissing Hrun Hstorage Hclock.
  assert (Hkeys : forall s, In s CacheScenario.spellings ->
            normalizeQuery (LocationService.sanitizeQuery s) = "new york"
            /\ LocationService.isValidQuery (LocationService.sanitizeQuery s) = true).
  { intros s Hs. simpl in Hs.
    destruct Hs as [<-|[<-|[<-|[]]]]; split; vm_compute; reflexivity. }
  destruct (Hkeys q Hq) as [Hk _]. destruct (Hkeys q' Hq') as [Hk' Hvalid'].
  split; [exact Hk|]. split; [exact Hk'|].
  (* the first search reads the key and finds nothing *)
  assert (Hlookup : getCachedLocationSearch (LocationService.sanitizeQuery q)
                      (clock w) (storage w) = (Null, storage w)).
  { unfold getCachedLocationSearch. now rewrite Hk, Hmissing. }
  destruct (ServiceFacts.search_miss_shape config q w w' locations) as (w1 & -> & Hframe).
  { now rewrite Hlookup. }
  { exact Hrun. }
  rewrite Hlookup in Hframe. cbn [snd] in Hframe.
  cbn [storage set_storage clock] in *.
  rewrite Hframe in Hstorage |- *.
  (* what it writes *)
  destruct (ServiceFacts.cacheLocationSearch_stored (LocationService.sanitizeQuery q)
              locations (clock w1) (storage w) Hw Hlen) as (Hitem & Hreadable & Hassoc).
  { rewrite Hk. discriminate. }
  rewrite Hk in Hitem, Hassoc.
  assert (Hget : Dict.get "new york" (getLocationCache (storage w2))
                 = Dict.Own {| data := locations; timestamp := clock w1;
                               expiresAt := clock w1 + LOCATION_CACHE_DURATION |}).
  { rewrite Hstorage. unfold getLocationCache at 1.
    rewrite Hitem, Hreadable, Hr. cbn [read_cache].
    unfold Dict.get. now rewrite Hassoc. }
  split.
  { eexists. split; [exact Hitem|exact Hassoc]. }
  (* what the later search reads *)
  eexists. split; [exact Hget|]. split; [reflexivity|].
  apply ServiceFacts.search_hit.
  - exact Hvalid'.
  - rewrite Hk'. exact Hget.
  - cbn [expiresAt]. exact Hclock.
Qed.

Lemma C9_witness :
  let w := Scenario.answering [Scenario.ok_json MoreScenarios.london_results] in
  let w' := snd (LocationService.searchLocations default_config "  New York  " w) in
  let w2 := set_online false w' in
  normalizeQuery (LocationService.sanitizeQuery "  New York  ") = "new york"
  /\ normalizeQuery (LocationService.sanitizeQuery "new    york") = "new york"
  /\ (exists cache',
        location_item (storage w') = Blob cache'
        /\ assoc "new york" cache'
           = Some {| data := [MoreScenarios.london_found]; timestamp := clock w';
                     expiresAt := clock w' + LOCATION_CACHE_DURATION |})
  /\ (exists entry,
        Dict.get "new york" (getLocationCache (storage w2)) = Dict.Own entry
        /\ timestamp entry = clock w'
        /\ LocationService.searchLocations default_config "new    york" w2
           = (Return (Some (data entry)), w2)).
Proof.
  intros w w' w2.
  assert (Hrun : LocationService.searchLocations default_config "  New York  " w
                 = (Return (Some [MoreScenarios.london_found]), w'))
    by (vm_compute; reflexivity).
  assert (Hlen : (length (getLocationCache (storage w)) < 50)%nat) by (vm_compute; lia).
  assert (Hclock : clock w2 <= clock w' + LOCATION_CACHE_DURATION)
    by (vm_compute; discriminate).
  exact (C9_spellings_share_one_key default_config "  New York  " "new    york"
           w w' w2 [MoreScenarios.london_found]
           (or_introl eq_refl) (or_intror (or_intror (or_introl eq_refl)))
           eq_refl eq_refl Hlen eq_refl Hrun eq_refl Hclock).
Defined.

End SpellingClaim.

(* ===================================================================== *)
(** * The rate limiter over any history of calls *)
(* ===================================================================== *)

Section RateLimitProperties.
Import RateLimitHandler.

(** X9.  The limit is kept per service key: a [checkRateLimit] call
    leaves the windows of all other keys as they are, so it never changes
    the answer a later call for another key gets. *)
Theorem rate_limit_is_kept_per_key (key key' : string) (now now' : Z)
    (counts : gmap string RateWindow) :
  key' <> key ->
  snd (checkRateLimit key now counts) !! key' = counts !! key'
  /\ fst (checkRateLimit key' now' (snd (checkRateLimit key now counts)))
     = fst (checkRateLimit key' now' counts).
Proof.
  intros Hne.
  assert (Hlookup : snd (checkRateLimit key now counts) !! key' = counts !! key').
  { unfold checkRateLimit. destruct (counts !! key) as [c|].
    - destruct (resetTime c <? now); cbn [snd].
      + now apply lookup_insert_ne.
      + destruct (MAX_REQUESTS_PER_WINDOW <=? count c); cbn [snd]; [reflexivity|].
        now apply lookup_insert_ne.
    - cbn [snd]. now apply lookup_insert_ne. }
  split; [exact Hlookup|].
  unfold checkRateLimit at 1 3. rewrite Hlookup.
  destruct (counts !! key') as [c|]; [|reflexivity].
  destruct (resetTime c <? now'); [reflexivity|].
  destruct (MAX_REQUESTS_PER_WINDOW <=? count c); reflexivity.
Qed.

Lemma rate_limit_is_kept_per_key_witness :
  snd (checkRateLimit "weather" 30000 Scenario.full_window) !! "weather forecast"
  = Scenario.full_window !! "weather forecast"
  /\ fst (checkRateLimit "weather forecast" 30001
            (snd (checkRateLimit "weather" 30000 Scenario.full_window)))
     = fst (checkRateLimit "weather forecast" 30001 Scenario.full_window).
Proof.
  apply (rate_limit_is_kept_per_key "weather" "weather forecast" 30000 30001
           Scenario.full_window).
  discriminate.
Defined.

(** X10.  Whatever calls are made, for whatever keys and at whatever clock
    readings, starting from the empty map: every window the limiter holds
    has counted at least 1 and at most 60 calls. *)
Theorem rate_limit_counts_stay_within_the_ceiling (calls : list (string * Z)) :
  map_Forall (fun _ c => 1 <= count c <= MAX_REQUESTS_PER_WINDOW)
    (rate_limit_history calls ∅).
Proof.
  assert (Hgen : forall counts,
            map_Forall (fun _ c => 1 <= count c <= MAX_REQUESTS_PER_WINDOW) counts ->
            map_Forall (fun _ c => 1 <= count c <= MAX_REQUESTS_PER_WINDOW)
              (rate_limit_history calls counts)).
  { induction calls as [|[key now] calls IH]; intros counts Hinv; cbn [rate_limit_history].
    - exact Hinv.
    - apply IH. unfold checkRateLimit.
      destruct (counts !! key) as [c|] eqn:Hk.
      + destruct (resetTime c <? now); cbn [snd].
        * apply map_Forall_insert_2; [|exact Hinv].
          cbn [count]. unfold MAX_REQUESTS_PER_WINDOW. lia.
        * destruct (MAX_REQUESTS_PER_WINDOW <=? count c) eqn:E; cbn [snd]; [exact Hinv|].
          apply map_Forall_insert_2; [|exact Hinv].
          apply Z.leb_gt in E. specialize (Hinv key c Hk). cbn beta in Hinv.
          cbn [count]. lia.
      + cbn [snd]. apply map_Forall_insert_2; [|exact Hinv].
        cbn [count]. unfold MAX_REQUESTS_PER_WINDOW. lia. }
  apply Hgen. apply map_Forall_empty.
Qed.

End RateLimitProperties.

(* ===================================================================== *)
(** * Queries, results and forecasts *)
(* ===================================================================== *)

Module QueryFacts.

Lemma mentions_remove_chars (bad : ascii -> bool) (c : ascii) (s : string) :
  bad c = true -> JS.mentions c (JS.remove_chars bad s) = false.
Proof.
  intros Hbad. induction s as [|c' s IH]; simpl; [reflexivity|].
  destruct (bad c') eqn:E; [exact IH|].
  simpl. rewrite IH, orb_false_r.
  apply Ascii.eqb_neq. intros ->. congruence.
Qed.

Lemma mentions_substring0 (c : ascii) (n : nat) : forall s,
  JS.mentions c s = false -> JS.mentions c (JS.substring0 n s) = false.
Proof.
  induction n as [|n IH]; intros s; [now destruct s|].
  destruct s as [|c' s]; simpl; [reflexivity|].
  intros H. apply orb_false_iff in H as [H1 H2].
  now rewrite H1, IH.
Qed.

Lemma length_substring0 (n : nat) : forall s,
  (String.length (JS.substring0 n s) <= n)%nat.
Proof.
  induction n as [|n IH]; intros s; [destruct s; simpl; lia|].
  destruct s as [|c s]; simpl; [lia|]. specialize (IH s). lia.
Qed.

Lemma length_slice0 {A} (n : Z) (l : list A) :
  0 <= n -> (length (slice0 n l) <= Z.to_nat n)%nat.
Proof.
  intros Hn. unfold slice0.
  replace (n <? 0) with false by (symmetry; apply Z.ltb_ge; lia).
  rewrite length_firstn. lia.
Qed.

Section Forecast.
Context (Date_getTime : JsValue -> option Z).

(** The callback of [time.map] pairs the elements at one index. *)
Lemma forecast_from_aligned (tmax tmin code precip : JsValue) (now : Z)
    (items : list JsValue) : forall (index : nat) (days : list ForecastData),
  WeatherService.forecast_from Date_getTime items index tmax tmin code precip now
  = Return days ->
  length days = length items
  /\ forall i day, nth_error days i = Some day ->
       (exists dateStr, nth_error items i = Some dateStr
                        /\ date day = WeatherService.parseTimestamp Date_getTime dateStr now)
       /\ get_index tmax (index + i) = Return (temperatureMax day)
       /\ get_index tmin (index + i) = Return (temperatureMin day)
       /\ get_index code (index + i) = Return (fc_weatherCode day)
       /\ get_index precip (index + i) = Return (precipitationSum day).
Proof.
  induction items as [|dateStr items IH]; intros index days H;
    cbn [WeatherService.forecast_from] in H.
  - injection H as <-. split; [reflexivity|]. intros [|i] day Hd; discriminate.
  - destruct (get_index tmax index) as [vmax|t] eqn:H1; [|discriminate].
    destruct (get_index tmin index) as [vmin|t] eqn:H2; [|discriminate].
    destruct (get_index code index) as [vcode|t] eqn:H3; [|discriminate].
    destruct (get_index precip index) as [vprecip|t] eqn:H4; [|discriminate].
    destruct (WeatherService.forecast_from Date_getTime items (S index)
                tmax tmin code precip now) as [rest|t] eqn:Hrest; [|discriminate].
    injection H as <-.
    destruct (IH (S index) rest Hrest) as [Hlen Hdays].
    split; [cbn [length]; congruence|].
    intros [|i] day Hd; cbn [nth_error] in Hd.
    + injection Hd as <-. cbn [date temperatureMax temperatureMin fc_weatherCode
                                 precipitationSum nth_error].
      rewrite Nat.add_0_r. repeat split; eauto.
    + cbn [nth_error]. replace (index + S i)%nat with (S index + i)%nat by lia.
      now apply Hdays.
Qed.

End Forecast.

(** No member name of [Object.prototype] holds a comma; every weather
    cache key does. *)
Lemma weather_key_not_inherited (lat lon : float) :
  Dict.inherited_name (CacheService.getWeatherCacheKey lat lon) = false.
Proof.
  unfold Dict.inherited_name. apply Bool.not_true_iff_false. intros H.
  apply existsb_exists in H as (name & Hin & Heq). apply String.eqb_eq in Heq.
  assert (Hcomma : JS.mentions ","%char (CacheService.getWeatherCacheKey lat lon) = true).
  { unfold CacheService.getWeatherCacheKey. rewrite !WeatherFacts.mentions_app.
    simpl. now rewrite orb_true_r. }
  rewrite Heq in Hcomma. unfold Dict.Object_prototype_names in Hin.
  repeat (destruct Hin as [<-|Hin]; [discriminate Hcomma|]). destruct Hin.
Qed.

End QueryFacts.

Section QueryProperties.

(** X23.  What [sanitizeQuery] returns holds none of the characters it
    removes (angle brackets, quotes, ampersand, parentheses, slash) and
    is at most 100 characters long. *)
Theorem sanitized_query_is_harmless_and_short (query : string) (c : ascii) :
  LocationService.dangerous c = true ->
  JS.mentions c (LocationService.sanitizeQuery query) = false
  /\ (String.length (LocationService.sanitizeQuery query) <= 100)%nat.
Proof.
  intros Hc. unfold LocationService.sanitizeQuery. split.
  - apply QueryFacts.mentions_substring0. now apply QueryFacts.mentions_remove_chars.
  - apply QueryFacts.length_substring0.
Qed.

Lemma sanitized_query_is_harmless_and_short_witness :
  JS.mentions "<"%char (LocationService.sanitizeQuery "<script>alert('x')</script>") = false
  /\ (String.length (LocationService.sanitizeQuery "<script>alert('x')</script>") <= 100)%nat.
Proof.
  apply (sanitized_query_is_harmless_and_short "<script>alert('x')</script>" "<"%char).
  reflexivity.
Defined.

(** X24.  A search answered by the service returns at most
    [maxLocationResults] locations, however many valid records the
    response holds. *)
Theorem search_results_are_capped (config : Config) (query : string) (w w' : World)
    (locations : list Location) :
  0 <= maxLocationResults config ->
  fst (CacheService.getCachedLocationSearch (LocationService.sanitizeQuery query)
         (clock w) (storage w)) = CacheService.Null ->
  LocationService.searchLocations config query w = (Return (Some locations), w') ->
  (length locations <= Z.to_nat (maxLocationResults config))%nat.
Proof.
  intros Hmax Hmiss Hrun.
  unfold LocationService.searchLocations in Hrun.
  destruct (LocationService.isValidQuery (LocationService.sanitizeQuery query));
    cbn [negb] in Hrun; [|discriminate].
  unfold Env.Date_now in Hrun.
  destruct (CacheService.getCachedLocationSearch _ _ _) as [c ls0].
  cbn [fst] in Hmiss. subst c.
  rewrite WeatherFacts.try_catch_rethrow in Hrun. unfold bind in Hrun.
  destruct (ErrorHandler.handleFetch _ _ _ _) as [[response|t] w1]; [|discriminate].
  unfold LocationService.process_response, bind, lift in Hrun.
  destruct (Http.json response) as [data|t]; [|discriminate].
  destruct (get_prop data "results") as [results|t]; [|discriminate].
  destruct (truthy results); cbn [negb] in Hrun.
  - destruct results; try discriminate.
    unfold ret in Hrun. injection Hrun as <- _.
    unfold LocationService.validateAndTransformResults. rewrite length_map.
    now apply QueryFacts.length_slice0.
  - unfold ret in Hrun. injection Hrun as <- _. cbn. lia.
Qed.

Lemma search_results_are_capped_witness :
  (length [MoreScenarios.london_found] <= Z.to_nat (maxLocationResults default_config))%nat.
Proof.
  apply (search_results_are_capped default_config "  London "
           (Scenario.answering [Scenario.ok_json MoreScenarios.london_results])
           (snd (LocationService.searchLocations default_config "  London "
                   (Scenario.answering [Scenario.ok_json MoreScenarios.london_results])))
           [MoreScenarios.london_found]).
  - vm_compute. discriminate.
  - reflexivity.
  - vm_compute. reflexivity.
Defined.

(** X25.  A forecast has one entry per element of [daily.time], whatever
    the lengths of the other arrays, and the entry at each index pairs the
    date parsed from [time] with the elements of the four value arrays at
    that same index. *)
Theorem forecast_days_are_aligned (Date_getTime : JsValue -> option Z)
    (daily : JsValue) (now : Z) (items : list JsValue) (days : list ForecastData) :
  prop daily "time" = JArr items ->
  WeatherService.transformForecastData Date_getTime daily now = Return days ->
  length days = length items
  /\ forall i day, nth_error days i = Some day ->
       (exists dateStr, nth_error items i = Some dateStr
                        /\ date day = WeatherService.parseTimestamp Date_getTime dateStr now)
       /\ get_index (prop daily "temperature_2m_max") i = Return (temperatureMax day)
       /\ get_index (prop daily "temperature_2m_min") i = Return (temperatureMin day)
       /\ get_index (prop daily "weather_code") i = Return (fc_weatherCode day)
       /\ get_index (prop daily "precipitation_sum") i = Return (precipitationSum day).
Proof.
  intros Htime Hrun. unfold WeatherService.transformForecastData in Hrun.
  rewrite Htime in Hrun.
  exact (QueryFacts.forecast_from_aligned Date_getTime _ _ _ _ now items 0 days Hrun).
Qed.

Lemma forecast_days_are_aligned_witness :
  let daily := prop Scenario.current_and_daily "daily" in
  let days := forecast MoreScenarios.complete_weather in
  length days = length [JStr "2024-01-15"]
  /\ forall i day, nth_error days i = Some day ->
       (exists dateStr, nth_error [JStr "2024-01-15"] i = Some dateStr
                        /\ date day
                           = WeatherService.parseTimestamp Scenario.Date_getTime dateStr
                               1705320000000)
       /\ get_index (prop daily "temperature_2m_max") i = Return (temperatureMax day)
       /\ get_index (prop daily "temperature_2m_min") i = Return (temperatureMin day)
       /\ get_index (prop daily "weather_code") i = Return (fc_weatherCode day)
       /\ get_index (prop daily "precipitation_sum") i = Return (precipitationSum day).
Proof.
  apply (forecast_days_are_aligned Scenario.Date_getTime
           (prop Scenario.current_and_daily "daily") 1705320000000
           [JStr "2024-01-15"] (forecast MoreScenarios.complete_weather)).
  - reflexivity.
  - vm_compute. reflexivity.
Defined.

(** X22.  A weather lookup never finds an inherited member: no weather
    cache key is a member name of [Object.prototype] (each holds a
    comma), so where the cache has no entry of its own under the key the
    lookup answers [null] and leaves the storage as it is, unlike the
    location lookup. *)
Theorem weather_lookup_without_entry_is_null (lat lon : float) (now : Z)
    (ls : CacheService.LocalStorage) :
  assoc (CacheService.getWeatherCacheKey lat lon) (CacheService.getWeatherCache ls) = None ->
  Dict.inherited_name (CacheService.getWeatherCacheKey lat lon) = false
  /\ CacheService.getCachedWeatherData lat lon now ls = (CacheService.Null, ls).
Proof.
  intros Hnone. split; [apply QueryFacts.weather_key_not_inherited|].
  unfold CacheService.getCachedWeatherData, Dict.get.
  now rewrite Hnone, QueryFacts.weather_key_not_inherited.
Qed.

Lemma weather_lookup_without_entry_is_null_witness :
  Dict.inherited_name (CacheService.getWeatherCacheKey 51.5 (-0.1278)) = false
  /\ CacheService.getCachedWeatherData 51.5 (-0.1278) 1705320000000 Scenario.empty_storage
     = (CacheService.Null, Scenario.empty_storage).
Proof.
  apply (weather_lookup_without_entry_is_null 51.5 (-0.1278) 1705320000000
           Scenario.empty_storage).
  reflexivity.
Defined.

End QueryProperties.

(* ===================================================================== *)
(** * Connectivity test, network listeners and the offline queue *)
(* ===================================================================== *)

Module QueueFacts.
Import OfflineQueue.

Section Queue.
Context {T : Type}.

Lemma queue_all_spec (ctx : string) (ops : list (Async T)) : forall s : State T,
  let s' := queue_all ops ctx s in
  world s' = world s
  /\ settled s' = settled s
  /\ listeners s' = (listeners s ++ map OnlineHandler (seq (calls s) (length ops)))%list
  /\ map operation (offlineQueue s') = (map operation (offlineQueue s) ++ ops)%list
  /\ map promise (offlineQueue s')
     = (map promise (offlineQueue s) ++ seq (calls s) (length ops))%list
  /\ calls s' = (calls s + length ops)%nat.
Proof.
  induction ops as [|op ops IH]; intros s; cbn zeta.
  - cbn. rewrite !app_nil_r. repeat split. lia.
  - cbn [queue_all]. destruct (IH (snd (queueForOnline op ctx s)))
      as (Hw & Hs & Hl & Ho & Hp & Hc).
    cbn [queueForOnline snd addNetworkListener world settled listeners offlineQueue calls]
      in *.
    rewrite Hw, Hs, Hl, Ho, Hp, Hc. rewrite !map_app. cbn [map operation promise length seq].
    rewrite <- !app_assoc. cbn [app]. repeat split. lia.
Qed.

Lemma process_fold (queue : list (QueueItem T)) : forall s : State T,
  let p := fold_left process_item queue s in
  listeners p = listeners s
  /\ offlineQueue p = offlineQueue s
  /\ calls p = calls s
  /\ world p = snd (run_all (map operation queue) (world s))
  /\ settled p
     = (settled s
        ++ combine (map promise queue) (fst (run_all (map operation queue) (world s))))%list.
Proof.
  induction queue as [|item queue IH]; intros s; cbn zeta.
  - cbn. now rewrite app_nil_r.
  - cbn [fold_left map run_all].
    destruct (IH (process_item s item)) as (Hl & Hq & Hc & Hw & Hs).
    unfold process_item in *.
    destruct (operation item (world s)) as [outcome w1].
    cbn [world listeners offlineQueue settled calls] in *.
    destruct (run_all (map operation queue) w1) as [cs w2].
    cbn [fst snd combine] in *.
    rewrite Hl, Hq, Hc, Hw, Hs. rewrite <- app_assoc. repeat split.
Qed.

Lemma processOfflineQueue_spec (s : State T) :
  let p := processOfflineQueue s in
  listeners p = listeners s
  /\ offlineQueue p = []
  /\ calls p = calls s
  /\ world p = snd (run_all (map operation (offlineQueue s)) (world s))
  /\ settled p
     = (settled s
        ++ combine (map promise (offlineQueue s))
             (fst (run_all (map operation (offlineQueue s)) (world s))))%list.
Proof.
  cbn zeta. unfold processOfflineQueue.
  pose proof (process_fold (offlineQueue s)
                {| world := world s; listeners := listeners s; offlineQueue := [];
                   settled := settled s; calls := calls s |}) as H.
  cbn zeta in H. cbn [world listeners offlineQueue settled calls] in H. exact H.
Qed.

Lemma processOfflineQueue_empty (s : State T) :
  offlineQueue s = [] -> processOfflineQueue s = s.
Proof.
  intros H. destruct s as [w ls q st c]. cbn in H. subst q. reflexivity.
Qed.

Lemma other_listeners_run_nothing (online : bool) (ls : list Listener) :
  forall s : State T,
  forallb (fun l => negb (is_online_handler l)) ls = true ->
  fold_left (call_listener online) ls s = s.
Proof.
  induction ls as [|l ls IH]; intros s H; [reflexivity|].
  cbn [forallb] in H. apply andb_prop in H as [Hl H].
  destruct l; [discriminate|]. cbn [fold_left call_listener]. now apply IH.
Qed.

Lemma offline_runs_nothing (ls : list Listener) : forall s : State T,
  fold_left (call_listener false) ls s = s.
Proof.
  induction ls as [|l ls IH]; intros s; [reflexivity|].
  cbn [fold_left]. now destruct l; cbn [call_listener].
Qed.

Lemma filter_among_nil (ls : list Listener) :
  List.filter (fun l => negb (among [] l)) ls = ls.
Proof. induction ls as [|l ls IH]; cbn; [reflexivity|]. now f_equal. Qed.

Lemma filter_among_cons (h : nat) (hs : list nat) (ls : list Listener) :
  List.filter (fun l => negb (among hs l))
    (List.filter (fun l => negb (Listener_eqb l (OnlineHandler h))) ls)
  = List.filter (fun l => negb (among (h :: hs) l)) ls.
Proof.
  induction ls as [|l ls IH]; cbn [List.filter]; [reflexivity|].
  unfold among at 2. cbn [existsb]. fold (among hs l).
  destruct (Listener_eqb l (OnlineHandler h)); cbn [negb orb List.filter].
  - exact IH.
  - destruct (among hs l); cbn [negb]; [exact IH|now f_equal].
Qed.

(** The online handlers, called in turn: the first one to run finds the
    queue and processes it, and each removes itself. *)
Lemma handlers_fold (hs : list nat) : forall s : State T,
  (hs = [] -> offlineQueue s = []) ->
  fold_left (call_listener true) (map OnlineHandler hs) s
  = {| world := world (processOfflineQueue s);
       listeners := List.filter (fun l => negb (among hs l)) (listeners s);
       offlineQueue := [];
       settled := settled (processOfflineQueue s);
       calls := calls s |}.
Proof.
  induction hs as [|h hs IH]; intros s Hq.
  - rewrite processOfflineQueue_empty by auto. rewrite filter_among_nil.
    specialize (Hq eq_refl). destruct s as [w ls q st c]. cbn in Hq. subst q. reflexivity.
  - cbn [map fold_left call_listener].
    destruct (processOfflineQueue_spec s) as (Hl & Hempty & Hc & _ & _).
    set (p := processOfflineQueue s) in *.
    rewrite IH.
    + assert (Hp : processOfflineQueue (removeNetworkListener (OnlineHandler h) p)
                   = removeNetworkListener (OnlineHandler h) p)
        by now apply processOfflineQueue_empty.
      rewrite Hp. cbn [removeNetworkListener world settled calls listeners].
      rewrite Hl, Hc. now rewrite filter_among_cons.
    + intros _. exact Hempty.
Qed.

Lemma filter_keeps_other_listeners (hs : list nat) (ls : list Listener) :
  forallb (fun l => negb (is_online_handler l)) ls = true ->
  List.filter (fun l => negb (among hs l)) ls = ls.
Proof.
  induction ls as [|l ls IH]; cbn [forallb List.filter]; [reflexivity|].
  intros H. apply andb_prop in H as [Hl H]. destruct l; [discriminate|].
  assert (Ha : among hs (Other n) = false).
  { unfold among. cbn [Listener_eqb]. clear. induction hs; cbn; auto. }
  rewrite Ha. cbn [negb]. f_equal. now apply IH.
Qed.

Lemma filter_drops_handlers (hs : list nat) :
  List.filter (fun l => negb (among hs l)) (map OnlineHandler hs) = [].
Proof.
  assert (H : forall hs' : list nat,
            (forall n, In n hs' -> In n hs) ->
            List.filter (fun l => negb (among hs l)) (map OnlineHandler hs') = []).
  { induction hs' as [|n hs' IH]; intros Hsub; cbn [map List.filter]; [reflexivity|].
    assert (Ha : among hs (OnlineHandler n) = true).
    { unfold among. apply existsb_exists. exists n. split; [apply Hsub; now left|].
      cbn. apply Nat.eqb_refl. }
    rewrite Ha. cbn [negb]. apply IH. intros m Hm. apply Hsub. now right. }
  apply H. auto.
Qed.

End Queue.

End QueueFacts.

Section QueueProperties.
Import OfflineQueue.

(** X26.  Operations queued with [queueForOnline], the queue having been
    empty, are run by the next online event: each once, in the order they
    were queued, each promise settled with the outcome of its operation;
    afterwards the queue is empty and every handler the queueing
    registered has removed itself, the listeners registered by others
    staying in place. *)
Theorem online_event_drains_the_queue {T} (ops : list (Async T)) (ctx : string)
    (s0 : State T) :
  offlineQueue s0 = [] ->
  forallb (fun l => negb (is_online_handler l)) (listeners s0) = true ->
  let s := on_event true (queue_all ops ctx s0) in
  let run := run_all ops (set_online true (world s0)) in
  world s = snd run
  /\ settled s = (settled s0 ++ combine (seq (calls s0) (length ops)) (fst run))%list
  /\ offlineQueue s = []
  /\ listeners s = listeners s0.
Proof.
  intros Hq Hl. cbn zeta.
  destruct (QueueFacts.queue_all_spec ctx ops s0) as (Hw & Hs & Hls & Ho & Hp & Hc).
  cbn zeta in *. rewrite Hq in Ho, Hp. cbn [map app] in Ho, Hp.
  set (s1 := queue_all ops ctx s0) in *.
  unfold on_event, notifyListeners. cbn [listeners].
  rewrite Hls, fold_left_app.
  rewrite (QueueFacts.other_listeners_run_nothing true (listeners s0)) by exact Hl.
  rewrite QueueFacts.handlers_fold.
  - cbn [world settled offlineQueue listeners].
    match goal with
    | |- context [processOfflineQueue ?s] =>
        destruct (QueueFacts.processOfflineQueue_spec s) as (_ & _ & _ & Hpw & Hps)
    end.
    cbn [world settled offlineQueue] in Hpw, Hps.
    rewrite Hpw, Hps, Ho, Hp, Hw, Hs.
    repeat split.
    rewrite List.filter_app, QueueFacts.filter_drops_handlers, app_nil_r.
    now apply QueueFacts.filter_keeps_other_listeners.
  - cbn [offlineQueue]. intros Hnil.
    destruct ops as [|op ops]; [|discriminate].
    destruct (offlineQueue s1); [reflexivity|discriminate].
Qed.

Lemma online_event_drains_the_queue_witness :
  let s := on_event true
             (queue_all [Scenario.scripted; Scenario.succeed] "Weather"
                MoreScenarios.nothing_queued) in
  let run := run_all [Scenario.scripted; Scenario.succeed]
               (set_online true (world MoreScenarios.nothing_queued)) in
  world s = snd run
  /\ settled s
     = (settled MoreScenarios.nothing_queued
        ++ combine (seq (calls MoreScenarios.nothing_queued)
                      (length [Scenario.scripted; Scenario.succeed])) (fst run))%list
  /\ offlineQueue s = []
  /\ listeners s = listeners MoreScenarios.nothing_queued.
Proof.
  apply (online_event_drains_the_queue [Scenario.scripted; Scenario.succeed] "Weather"
           MoreScenarios.nothing_queued).
  - reflexivity.
  - reflexivity.
Defined.

(** X27.  Queued operations wait for an online event: neither
    [queueForOnline] nor an offline event invokes any of them or settles
    a promise; the queue and the handlers stay as queued. *)
Theorem queued_operations_wait_for_an_online_event {T} (ops : list (Async T))
    (ctx : string) (s0 : State T) :
  let s := on_event false (queue_all ops ctx s0) in
  world s = set_online false (world s0)
  /\ settled s = settled s0
  /\ map operation (offlineQueue s) = (map operation (offlineQueue s0) ++ ops)%list
  /\ listeners s
     = (listeners s0 ++ map OnlineHandler (seq (calls s0) (length ops)))%list.
Proof.
  cbn zeta.
  destruct (QueueFacts.queue_all_spec ctx ops s0) as (Hw & Hs & Hls & Ho & _ & _).
  cbn zeta in *. unfold on_event, notifyListeners.
  rewrite QueueFacts.offline_runs_nothing.
  cbn [world settled offlineQueue listeners]. rewrite Hw. auto.
Qed.

(** X28.  [testConnectivity] never throws.  It answers true exactly when
    the browser is online and the probe request resolves within 5
    seconds, with whatever status; offline it answers false at once,
    sending nothing. *)
Theorem testConnectivity_answers (w : World) :
  exists b w',
    Connectivity.testConnectivity w = (Return b, w')
    /\ (NetworkChecker.isNetworkOnline w = false -> b = false /\ w' = w)
    /\ (b = true <->
        NetworkChecker.isNetworkOnline w = true
        /\ exists o rest r,
             responses w = o :: rest /\ Http.latency o < 5000
             /\ Http.result o = Http.Resolves r).
Proof.
  unfold Connectivity.testConnectivity.
  destruct (NetworkChecker.isNetworkOnline w) eqn:Hon; cbn [negb].
  - unfold Connectivity.fetch_within. cbn [responses log].
    destruct (responses w) as [|o rest] eqn:Hresp.
    + eexists _, _. split; [reflexivity|]. split; [discriminate|].
      split; [discriminate|]. intros (_ & o & rest & r & H & _). discriminate.
    + destruct (5000 <=? Http.latency o) eqn:Hlat.
      * eexists _, _. split; [reflexivity|]. split; [discriminate|].
        split; [discriminate|]. intros (_ & o' & rest' & r & [= <- <-] & Hlt & _).
        apply Z.leb_le in Hlat. lia.
      * destruct (Http.result o) as [r|t] eqn:Hres.
        -- eexists _, _. split; [reflexivity|]. split; [discriminate|].
           split; [|reflexivity]. intros _. split; [reflexivity|].
           exists o, rest, r. apply Z.leb_gt in Hlat. auto.
        -- eexists _, _. split; [reflexivity|]. split; [discriminate|].
           split; [discriminate|].
           intros (_ & o' & rest' & r & [= <- <-] & _ & Hr). congruence.
  - eexists _, _. split; [reflexivity|]. split; [auto|].
    split; [discriminate|]. intros [H _]. discriminate.
Qed.

End QueueProperties.

Section ClearProperties.
Import CacheService CacheMaintenance.

(** X17.  After [clearAllCache] both caches are empty: the statistics are
    all zero, no location lookup returns data, every weather lookup
    answers [null], and no lookup writes to the storage. *)
Theorem clearAllCache_empties_both_caches (ls : LocalStorage) (now : Z)
    (query : string) (lat lon : float) :
  let ls' := clearAllCache true ls in
  getCacheStats now ls'
  = {| locationCacheSize := 0; weatherCacheSize := 0;
       locationCacheExpired := 0; weatherCacheExpired := 0 |}
  /\ (forall d, fst (getCachedLocationSearch query now ls') <> Data d)
  /\ snd (getCachedLocationSearch query now ls') = ls'
  /\ getCachedWeatherData lat lon now ls' = (Null, ls').
Proof.
  cbn zeta.
  assert (Hl : getLocationCache (clearAllCache true ls) = []).
  { unfold getLocationCache, clearAllCache, read_cache. cbn. now destruct (readable ls). }
  assert (Hw : getWeatherCache (clearAllCache true ls) = []).
  { unfold getWeatherCache, clearAllCache, read_cache. cbn. now destruct (readable ls). }
  split; [|split; [|split]].
  - unfold getCacheStats. now rewrite Hl, Hw.
  - intros d. unfold getCachedLocationSearch. rewrite Hl. unfold Dict.get. cbn [assoc].
    destruct (Dict.inherited_name _); discriminate.
  - unfold getCachedLocationSearch. rewrite Hl. unfold Dict.get. cbn [assoc].
    destruct (Dict.inherited_name _); reflexivity.
  - unfold getCachedWeatherData. rewrite Hw. unfold Dict.get. cbn [assoc].
    now rewrite QueryFacts.weather_key_not_inherited.
Qed.

End ClearProperties.

(* ===================================================================== *)
(** * Cache keys of searches are canonical *)
(* ===================================================================== *)

Module NormalizeFacts.
Import JS.

Lemma lower_char_idem (c : ascii) : lower_char (lower_char c) = lower_char c.
Proof. destruct c as [[] [] [] [] [] [] [] []]; reflexivity. Qed.

Lemma is_space_lower (c : ascii) : is_space (lower_char c) = is_space c.
Proof. destruct c as [[] [] [] [] [] [] [] []]; reflexivity. Qed.

Lemma toLowerCase_idem (s : string) : toLowerCase (toLowerCase s) = toLowerCase s.
Proof.
  induction s as [|c s IH]; cbn [toLowerCase]; [reflexivity|].
  now rewrite lower_char_idem, IH.
Qed.

Lemma toLowerCase_trimStart (s : string) :
  toLowerCase (trimStart s) = trimStart (toLowerCase s).
Proof.
  induction s as [|c s IH]; cbn [toLowerCase trimStart]; [reflexivity|].
  rewrite is_space_lower. destruct (is_space c); [exact IH|reflexivity].
Qed.

Lemma all_space_lower (s : string) : all_space (toLowerCase s) = all_space s.
Proof.
  induction s as [|c s IH]; cbn [toLowerCase all_space]; [reflexivity|].
  now rewrite is_space_lower, IH.
Qed.

Lemma toLowerCase_trimEnd (s : string) :
  toLowerCase (trimEnd s) = trimEnd (toLowerCase s).
Proof.
  induction s as [|c s IH]; [reflexivity|].
  cbn [toLowerCase trimEnd all_space].
  rewrite is_space_lower, all_space_lower.
  destruct (is_space c && all_space s); [reflexivity|].
  cbn [toLowerCase]. now rewrite IH.
Qed.

Lemma toLowerCase_collapse (s : string) : forall b,
  toLowerCase (collapse_from b s) = collapse_from b (toLowerCase s).
Proof.
  induction s as [|c s IH]; intros b; cbn [toLowerCase collapse_from]; [reflexivity|].
  rewrite is_space_lower. destruct (is_space c).
  - destruct b; [apply IH|]. cbn [toLowerCase]. now rewrite IH.
  - cbn [toLowerCase]. now rewrite IH.
Qed.

Lemma collapse_from_idem (s : string) : forall b,
  collapse_from b (collapse_from b s) = collapse_from b s.
Proof.
  induction s as [|c s IH]; intros b; cbn [collapse_from]; [reflexivity|].
  destruct (is_space c) eqn:E.
  - destruct b; [apply IH|].
    cbn [collapse_from]. change (is_space " "%char) with true. cbn iota.
    now rewrite IH.
  - cbn [collapse_from]. rewrite E. now rewrite IH.
Qed.

Lemma all_space_collapse (s : string) : forall b,
  all_space (collapse_from b s) = all_space s.
Proof.
  induction s as [|c s IH]; intros b; cbn [collapse_from all_space]; [reflexivity|].
  destruct (is_space c) eqn:E; cbn [andb].
  - destruct b; [apply IH|]. cbn [all_space]. change (is_space " "%char) with true.
    cbn [andb]. apply IH.
  - cbn [all_space]. now rewrite E.
Qed.

Lemma all_space_trimEnd (s : string) : all_space (trimEnd s) = all_space s.
Proof.
  induction s as [|c s IH]; [reflexivity|].
  cbn [trimEnd all_space].
  destruct (is_space c) eqn:E; cbn [andb].
  - destruct (all_space s) eqn:Es; [reflexivity|].
    cbn [all_space]. now rewrite E, IH.
  - cbn [all_space]. now rewrite E.
Qed.

Lemma trimEnd_idem (s : string) : trimEnd (trimEnd s) = trimEnd s.
Proof.
  induction s as [|c s IH]; [reflexivity|].
  cbn [trimEnd all_space].
  destruct (is_space c && all_space s) eqn:E; [reflexivity|].
  cbn [trimEnd all_space]. rewrite all_space_trimEnd, E. now rewrite IH.
Qed.

(** The string is empty or begins with a character that is no white
    space. *)
Lemma trimStart_clean (s : string) : trimStart (trimStart s) = trimStart s.
Proof.
  induction s as [|c s IH]; [reflexivity|].
  cbn [trimStart]. destruct (is_space c) eqn:E; [exact IH|].
  cbn [trimStart]. now rewrite E.
Qed.

Lemma trimStart_trimEnd (s : string) :
  trimStart s = s -> trimStart (trimEnd s) = trimEnd s.
Proof.
  destruct s as [|c s]; [reflexivity|].
  cbn [trimStart trimEnd all_space].
  destruct (is_space c) eqn:E; cbn [andb].
  - intros H. exfalso.
    assert (Hlen : (String.length (trimStart s) <= String.length s)%nat).
    { clear. induction s as [|c s IH]; cbn [trimStart]; [lia|].
      destruct (is_space c); cbn [String.length]; lia. }
    rewrite H in Hlen. cbn [String.length] in Hlen. lia.
  - intros _. cbn [trimStart]. now rewrite E.
Qed.

Lemma trimStart_collapse (s : string) :
  trimStart s = s -> trimStart (collapse_from false s) = collapse_from false s.
Proof.
  destruct s as [|c s]; [reflexivity|].
  cbn [trimStart collapse_from].
  destruct (is_space c) eqn:E.
  - intros H. exfalso.
    assert (Hlen : (String.length (trimStart s) <= String.length s)%nat).
    { clear. induction s as [|c s IH]; cbn [trimStart]; [lia|].
      destruct (is_space c); cbn [String.length]; lia. }
    rewrite H in Hlen. cbn [String.length] in Hlen. lia.
  - intros _. cbn [trimStart]. now rewrite E.
Qed.

Lemma trimEnd_collapse (s : string) : forall b,
  trimEnd s = s -> trimEnd (collapse_from b s) = collapse_from b s.
Proof.
  induction s as [|c s IH]; intros b; [reflexivity|].
  cbn [trimEnd all_space collapse_from].
  destruct (is_space c) eqn:E; cbn [andb].
  - destruct (all_space s) eqn:Es; [discriminate|].
    intros [= Hs]. destruct b; [now apply IH|].
    cbn [trimEnd all_space]. change (is_space " "%char) with true. cbn [andb].
    rewrite all_space_collapse, Es. now rewrite IH.
  - intros [= Hs]. cbn [trimEnd all_space]. rewrite E. cbn [andb]. now rewrite IH.
Qed.

Lemma trim_collapse_trim (s : string) :
  trim (collapse_spaces (trim s)) = collapse_spaces (trim s).
Proof.
  unfold trim at 1, collapse_spaces.
  assert (Hstart : trimStart (trim s) = trim s).
  { unfold trim. apply trimStart_trimEnd. apply trimStart_clean. }
  assert (Hend : trimEnd (trim s) = trim s) by (unfold trim; apply trimEnd_idem).
  rewrite trimStart_collapse by exact Hstart.
  now apply trimEnd_collapse.
Qed.

End NormalizeFacts.

(** X18.  [normalizeQuery] produces canonical keys: normalizing a
    normalized query changes nothing, so an entry is found again under
    the very key it is stored under. *)
Theorem normalizeQuery_is_idempotent (query : string) :
  CacheService.normalizeQuery (CacheService.normalizeQuery query)
  = CacheService.normalizeQuery query.
Proof.
  unfold CacheService.normalizeQuery.
  unfold JS.collapse_spaces at 2.
  rewrite NormalizeFacts.toLowerCase_collapse.
  unfold JS.trim at 2.
  rewrite NormalizeFacts.toLowerCase_trimEnd, NormalizeFacts.toLowerCase_trimStart.
  rewrite NormalizeFacts.toLowerCase_idem.
  fold (JS.trim (JS.toLowerCase query)).
  fold (JS.collapse_spaces (JS.trim (JS.toLowerCase query))).
  rewrite NormalizeFacts.trim_collapse_trim.
  unfold JS.collapse_spaces. apply NormalizeFacts.collapse_from_idem.
Qed.

(* ===================================================================== *)
(** * The specification's testable scenarios, run on the model *)
(* ===================================================================== *)

Module SpecificationScenarios.

(** Validation: [search("a")] raises a user error that is not retryable
    and sends nothing. *)
Example short_query_is_rejected :
  LocationService.searchLocations default_config "a" Scenario.quiet
  = (Throw (ThrownAppError
              (createAppError user
                 "Please enter a valid location name (at least 2 characters)" false None)),
     Scenario.quiet).
Proof. vm_compute. reflexivity. Qed.

(** Coordinate validation: latitude 91 and longitude 181 are refused. *)
Example out_of_range_coordinates_are_rejected :
  fst (WeatherService.getCurrentWeather default_config Scenario.Date_getTime
         (JNum 91) (JNum 0) Scenario.quiet)
  = Throw (WeatherService.coordinate_error "Latitude must be between -90 and 90 degrees")
  /\ fst (WeatherService.getCurrentWeather default_config Scenario.Date_getTime
            (JNum 0) (JNum 181) Scenario.quiet)
     = Throw (WeatherService.coordinate_error
                "Longitude must be between -180 and 180 degrees")
  /\ fst (WeatherService.getCurrentWeather default_config Scenario.Date_getTime
            (JStr "invalid") (JNum 0) Scenario.quiet)
     = Throw (WeatherService.coordinate_error "Invalid coordinates provided").
Proof. repeat split; vm_compute; reflexivity. Qed.

(** Retry: an operation that fails once with a retryable error and then
    succeeds returns after two invocations and one sleep. *)
Example retry_then_success :
  let run :=
    RetryHandler.executeWithRetry RetryHandler.DEFAULT_RETRY_CONFIG Scenario.scripted "test"
      (Scenario.answering
         [ Scenario.rejecting (createAppError api "API error" true None);
           Scenario.status_only 200 ]) in
  fst run = Return 200
  /\ count_fetches (trace (snd run)) = 2%nat
  /\ count_sleeps (trace (snd run)) = 1%nat
  /\ clock Scenario.quiet + 1000 <= clock (snd run).
Proof. vm_compute. repeat split; discriminate. Qed.

(** No retry of an error that is not retryable. *)
Example user_error_is_not_retried :
  let e := createAppError user "User error" false None in
  let run :=
    RetryHandler.executeWithRetry RetryHandler.DEFAULT_RETRY_CONFIG Scenario.scripted "test"
      (Scenario.answering [ Scenario.rejecting e; Scenario.status_only 200 ]) in
  fst run = Throw (ThrownAppError e)
  /\ count_fetches (trace (snd run)) = 1%nat
  /\ count_sleeps (trace (snd run)) = 0%nat.
Proof. vm_compute. repeat split. Qed.

(** A retryable error at every attempt: three invocations, then the
    error itself. *)
Example gives_up_after_max_attempts :
  let e := createAppError api "API error" true None in
  let run :=
    RetryHandler.executeWithRetry RetryHandler.DEFAULT_RETRY_CONFIG Scenario.scripted "test"
      (Scenario.answering
         [ Scenario.rejecting e; Scenario.rejecting e; Scenario.rejecting e;
           Scenario.status_only 200 ]) in
  fst run = Throw (ThrownAppError e)
  /\ count_fetches (trace (snd run)) = 3%nat
  /\ count_sleeps (trace (snd run)) = 2%nat.
Proof. vm_compute. repeat split. Qed.

(** An [Error] that is not an AppError at every attempt is wrapped after
    the last one, as an api error that is not retryable. *)
Example foreign_error_is_wrapped_after_the_last_attempt :
  let boom :=
    {| Http.latency := 0;
       Http.result := Http.Rejects (ThrownError {| err_name := "Error";
                                                   err_message := "boom" |}) |} in
  fst (RetryHandler.executeWithRetry RetryHandler.DEFAULT_RETRY_CONFIG Scenario.scripted
         "test" (Scenario.answering [boom; boom; boom]))
  = Throw (ThrownAppError
             (createAppError api "test failed after 3 attempts" false
                (Some {| err_name := "Error"; err_message := "boom" |}))).
Proof. vm_compute. reflexivity. Qed.

(** A 403 response: one request, an error that is not retryable. *)
Example forbidden_is_not_retried :
  let run :=
    LocationService.searchLocations default_config "Vienna"
      (Scenario.answering [Scenario.status_only 403; Scenario.status_only 200]) in
  fst run
  = Throw (ThrownAppError
             (createAppError api "Access to location search service is forbidden"
                false None))
  /\ count_fetches (trace (snd run)) = 1%nat.
Proof. vm_compute. repeat split. Qed.

(** Scenario A: two valid and two invalid records give the two valid
    Locations, in their order. *)
Example invalid_records_are_filtered :
  let run :=
    LocationService.searchLocations default_config "test"
      (Scenario.answering [Scenario.ok_json Scenario.mixed_results]) in
  exists results,
    fst run = Return (Some results) /\ map name results = ["London"; "Paris"].
Proof. eexists. vm_compute. split; reflexivity. Qed.

(** Scenario B: a forecast call answered without [daily] raises a
    retryable data error. *)
Example missing_daily_is_a_data_error :
  fst (WeatherService.getForecast default_config Scenario.Date_getTime
         (JNum 51.5) (JNum (-0.125))
         (Scenario.answering [Scenario.ok_json Scenario.current_only]))
  = Throw (ThrownAppError
             (createAppError data "Invalid forecast data received from service" true None)).
Proof. vm_compute. reflexivity. Qed.

(** Scenario C: offline, [search("Paris")] raises a retryable network
    error that mentions "offline", and sends nothing. *)
Example offline_search :
  let run :=
    LocationService.searchLocations default_config "Paris" Scenario.offline_for_good in
  exists e,
    fst run = Throw (ThrownAppError e)
    /\ type e = network /\ retryable e = true
    /\ JS.includes "offline" (message e) = true
    /\ trace (snd run) = [].
Proof. eexists. vm_compute. repeat split. Qed.

(** Idempotence: the second search is answered from the cache, under the
    shared key, without a second request. *)
Example second_search_hits_the_cache :
  let first :=
    LocationService.searchLocations default_config "  New York  "
      (Scenario.answering [Scenario.ok_json Scenario.mixed_results]) in
  let second := LocationService.searchLocations default_config "NEW YORK" (snd first) in
  fst second = fst first
  /\ count_fetches (trace (snd first)) = 1%nat
  /\ count_fetches (trace (snd second)) = 1%nat
  /\ map fst (CacheService.getLocationCache (storage (snd second))) = ["new york"].
Proof. vm_compute. repeat split. Qed.

(** The repository's test 'should round coordinates for consistent cache
    keys'. *)
Example rounded_cache_key :
  CacheService.getWeatherCacheKey 40.7128 (-74.006) = "40.71,-74.01".
Proof. vm_compute. reflexivity. Qed.

(** Number formatting and rounding agree with the language on its known
    corner cases. *)
Example number_formatting :
  map JS.Number_toString
    [ (0.1 + 0.2)%float; 1e21%float; 5e-324%float; 0.000001%float; 1e-7%float;
      123456789012345680000%float; (-0)%float; PrimFloat.infinity ]
  = [ "0.30000000000000004"; "1e+21"; "5e-324"; "0.000001"; "1e-7";
      "123456789012345680000"; "0"; "Infinity" ]
  /\ map (fun x => JS.Number_toString (JS.Math_round x))
       [ 0.5%float; (-0.5)%float; 2.5%float; (-2.5)%float; 0.49999999999999994%float ]
     = [ "1"; "0"; "3"; "-2"; "0" ]
  /\ JS.Number_toString (JS.Math_round (1.005 * 100) / 100)%float = "1".
Proof. vm_compute. repeat split. Qed.

End SpecificationScenarios.
